(** * aws-secrets-cache: the refresh/retry engine of [AWSSecretsManagerCache]

    A shallow embedding of [src/awsSecretsManagerCache.ts] and the
    properties its specification states about it.

    The class is an object with mutable fields that talks to three
    collaborators: the Secrets Manager client ([client.send]), the Node
    timers ([setTimeout], [setInterval], [clearInterval]) and the
    [EventEmitter] it extends.  The embedding threads one [State] through
    every method: the fields of the object, the emitter's listener table,
    and the environment (what the Secret Source answers, the clock, the
    armed interval timers and the chronological [trace] of everything the
    object did to the outside world).  A method is a function
    [State -> Outcome A]: it returns, or it throws (an [async] method that
    rejects), in both cases with the state it reached.

    Numbers: [maxRetries] and [attempt] are naturals and timestamps are
    integers.  [retryDelay], [refreshInterval] and the delay
    [retryDelay * Math.pow(2, attempt - 1)] are JavaScript numbers, that
    is IEEE 754 doubles: they are primitive floats here, so the product
    is the one the source computes, [Infinity] included. *)

From Stdlib Require Import ZArith Lia Strings.Byte.
From Stdlib Require Import Floats.PrimFloat Floats.SpecFloat Floats.FloatOps.
From Stdlib Require Import Numbers.Cyclic.Int63.Uint63.
From stdpp Require Import base gmap strings list fin_maps.

Local Open Scope Z_scope.

(** ** The JavaScript platform

    [JSON.parse], [JSON.stringify] and [Buffer.from(..).toString('utf-8')]
    are not code of the repository: the development is parametric in
    them.  [JSON_parse] answers [None] where [JSON.parse] throws a
    [SyntaxError]. *)
Class Platform := {
  JsValue : Type;
  JsString : string -> JsValue;
  JSON_parse : string -> option JsValue;
  JSON_stringify : JsValue -> string;
  Buffer_toString_utf8 : list byte -> string
}.

(** ** Data *)

(** Values that are thrown and caught. *)
Inductive Error :=
| ClientError (message : string)
    (* the rejection of [client.send] *)
| NoResponseError (secretId : string)
    (* [new Error(`No response received for secret ${secretId}`)] *)
| SyntaxError (text : string)
    (* thrown by [JSON.parse] *)
| UnhandledError (userId : option string) (cause : Error) (timestamp : Z).
    (* thrown by [emit('error', payload)] when nobody listens; it carries
       the payload *)

(** [GetSecretValueCommandOutput], the two fields the code reads. *)
Record GetSecretValueCommandOutput := {
  SecretString : option string;
  SecretBinary : option (list byte)
}.

(** What one [await this.client.send(command)] can give: a rejection, or a
    value, which may be [undefined] ([Resolves None]). *)
Inductive SendResult :=
| Rejects (message : string)
| Resolves (response : option GetSecretValueCommandOutput).

(** [configSchema]: the fields of the parsed configuration. *)
Record AWSSecretsConfig := {
  region : string;
  secretMappings : gmap string string;
  refreshInterval : float;
  maxRetries : nat;
  retryDelay : float;
  disableEvents : bool
}.

Inductive EventName :=
| EvUpdate | EvError | EvStart | EvStop | EvRemove | EvClear.

Inductive LogLevel := Info | Warn | Err.

Inductive LogLine :=
| FetchingAll
| FinishedFetchingAll
| UpdatedCache (userId : string)
| RetryLine (attempt maxRetries : nat) (userId : string) (delay : float)
    (error : Error)
| FailedLine (userId : string) (maxRetries : nat) (error : Error)
| RefreshTriggered
| RefreshFailed (error : Error)
| RefreshStarted (interval : float)
| RefreshStopped.

#[global] Instance EventName_eq_dec : EqDecision EventName.
Proof. solve_decision. Defined.

(** ** Numbers, timers and plain objects *)

(** [Math.pow(2, n)] for an integer [n]: the power of two as a double,
    [Infinity] from [n = 1024] on and [0.5] at [n = -1]. *)
Definition Math_pow2 (n : Z) : float := Z.ldexp 1%float n.
Arguments Math_pow2 : simpl never.

(** [Math.trunc]. *)
Definition Math_trunc (x : float) : float :=
  match Prim2SF x with
  | S754_finite negative m e =>
      if e <? 0 then
        let q := PrimFloat.of_uint63 (Uint63.of_Z (Z.shiftl (Z.pos m) e)) in
        if negative then PrimFloat.opp q else q
      else x
  | _ => x
  end.

(** Node's [TIMEOUT_MAX], [2^31 - 1]. *)
Definition TIMEOUT_MAX : float := 2147483647%float.

(** The duration for which Node arms a timer that [setTimeout] or
    [setInterval] is asked to arm for [after] milliseconds.  Node's
    [Timeout] sets [after] to [1] unless [after >= 1 && after <=
    TIMEOUT_MAX] ([Infinity] and [NaN] included), and truncates what is
    left to whole milliseconds when it inserts the timer. *)
Definition armed (after : float) : float :=
  Math_trunc
    (if PrimFloat.leb 1 after && PrimFloat.leb after TIMEOUT_MAX
     then after else 1%float).

(** A duration of whole milliseconds, as an integer. *)
Definition milliseconds (x : float) : Z :=
  match Prim2SF x with
  | S754_finite false m e => Z.shiftl (Z.pos m) e
  | _ => 0
  end.

Arguments Math_trunc : simpl never.
Arguments armed : simpl never.
Arguments milliseconds : simpl never.

(** [obj[key] = value] on a plain object whose values are strings, as a
    map of its own properties.  The key ["__proto__"] names the accessor
    inherited from [Object.prototype], whose setter ignores a string: the
    assignment creates no property. *)
Definition object_set (key value : string) (obj : gmap string string)
    : gmap string string :=
  if bool_decide (key = "__proto__"%string) then obj
  else <[key := value]> obj.

Section Cache.
Context `{Platform}.

Record CacheEntry := { value : JsValue; fetchedAt : Z }.

(** The payloads handed to [emit]. *)
Inductive Event :=
| UpdateEvent (userId : string) (v : JsValue) (timestamp : Z)
| ErrorEvent (userId : option string) (error : Error) (timestamp : Z)
| StartEvent (timestamp : Z)
| StopEvent (timestamp : Z)
| RemoveEvent (userId : string) (timestamp : Z)
| ClearEvent (timestamp : Z).

Definition event_name (e : Event) : EventName :=
  match e with
  | UpdateEvent _ _ _ => EvUpdate
  | ErrorEvent _ _ _ => EvError
  | StartEvent _ => EvStart
  | StopEvent _ => EvStop
  | RemoveEvent _ _ => EvRemove
  | ClearEvent _ => EvClear
  end.

(** What the object does to the outside world, in the order it does it.
    [ACall] is one [client.send] together with its result; [userId] and
    [attempt] are the arguments of the [fetchSecretWithRetry] activation
    that made the call. *)
Inductive Action :=
| ACall (userId secretId : string) (attempt : nat) (result : SendResult)
| ASleep (delay : float)
| AEmit (e : Event)
| ALog (level : LogLevel) (line : LogLine)
| ASetInterval (handle : nat) (period : float)
| AClearInterval (handle : nat).

(** The object and its environment.
    - [config], [cache], [refreshIntervalId], [isRunning]: the private
      fields of the class;
    - [listeners]: the names registered with the inherited [on];
    - [source], [calls]: the Secret Source answers the [n]-th [send] of the
      run, asked for identifier [id], with [source n id];
    - [clock]: what [Date.now()] reads;
    - [timers], [nextHandle]: the interval timers that were created and
      not cleared, each with the period [setInterval] was given, and the
      next fresh handle;
    - [trace]: the actions so far, oldest first. *)
Record State := {
  config : AWSSecretsConfig;
  cache : gmap string CacheEntry;
  refreshIntervalId : option nat;
  isRunning : bool;
  listeners : list EventName;
  source : nat -> string -> SendResult;
  calls : nat;
  clock : Z;
  timers : gmap nat float;
  nextHandle : nat;
  trace : list Action
}.

Definition set_secretMappings (f : gmap string string -> gmap string string)
    (st : State) : State :=
  {| config := {| region := region (config st);
                  secretMappings := f (secretMappings (config st));
                  refreshInterval := refreshInterval (config st);
                  maxRetries := maxRetries (config st);
                  retryDelay := retryDelay (config st);
                  disableEvents := disableEvents (config st) |};
     cache := cache st; refreshIntervalId := refreshIntervalId st;
     isRunning := isRunning st; listeners := listeners st;
     source := source st; calls := calls st; clock := clock st;
     timers := timers st; nextHandle := nextHandle st; trace := trace st |}.

Definition set_cache (f : gmap string CacheEntry -> gmap string CacheEntry)
    (st : State) : State :=
  {| config := config st; cache := f (cache st);
     refreshIntervalId := refreshIntervalId st;
     isRunning := isRunning st; listeners := listeners st;
     source := source st; calls := calls st; clock := clock st;
     timers := timers st; nextHandle := nextHandle st; trace := trace st |}.

Definition set_refreshIntervalId (h : option nat) (st : State) : State :=
  {| config := config st; cache := cache st; refreshIntervalId := h;
     isRunning := isRunning st; listeners := listeners st;
     source := source st; calls := calls st; clock := clock st;
     timers := timers st; nextHandle := nextHandle st; trace := trace st |}.

Definition set_isRunning (b : bool) (st : State) : State :=
  {| config := config st; cache := cache st;
     refreshIntervalId := refreshIntervalId st;
     isRunning := b; listeners := listeners st;
     source := source st; calls := calls st; clock := clock st;
     timers := timers st; nextHandle := nextHandle st; trace := trace st |}.

Definition set_listeners (f : list EventName -> list EventName)
    (st : State) : State :=
  {| config := config st; cache := cache st;
     refreshIntervalId := refreshIntervalId st;
     isRunning := isRunning st; listeners := f (listeners st);
     source := source st; calls := calls st; clock := clock st;
     timers := timers st; nextHandle := nextHandle st; trace := trace st |}.

Definition set_calls (n : nat) (st : State) : State :=
  {| config := config st; cache := cache st;
     refreshIntervalId := refreshIntervalId st;
     isRunning := isRunning st; listeners := listeners st;
     source := source st; calls := n; clock := clock st;
     timers := timers st; nextHandle := nextHandle st; trace := trace st |}.

Definition set_clock (t : Z) (st : State) : State :=
  {| config := config st; cache := cache st;
     refreshIntervalId := refreshIntervalId st;
     isRunning := isRunning st; listeners := listeners st;
     source := source st; calls := calls st; clock := t;
     timers := timers st; nextHandle := nextHandle st; trace := trace st |}.

Definition set_timers (f : gmap nat float -> gmap nat float) (st : State)
    : State :=
  {| config := config st; cache := cache st;
     refreshIntervalId := refreshIntervalId st;
     isRunning := isRunning st; listeners := listeners st;
     source := source st; calls := calls st; clock := clock st;
     timers := f (timers st); nextHandle := nextHandle st;
     trace := trace st |}.

Definition set_nextHandle (n : nat) (st : State) : State :=
  {| config := config st; cache := cache st;
     refreshIntervalId := refreshIntervalId st;
     isRunning := isRunning st; listeners := listeners st;
     source := source st; calls := calls st; clock := clock st;
     timers := timers st; nextHandle := n; trace := trace st |}.

(** Append one action to the trace. *)
Definition record (a : Action) (st : State) : State :=
  {| config := config st; cache := cache st;
     refreshIntervalId := refreshIntervalId st;
     isRunning := isRunning st; listeners := listeners st;
     source := source st; calls := calls st; clock := clock st;
     timers := timers st; nextHandle := nextHandle st;
     trace := trace st ++ [a] |}.

(** ** Methods as state transformers that may throw *)

Inductive Outcome (A : Type) :=
| Returned (a : A) (st : State)
| Thrown (e : Error) (st : State)
| OutOfFuel.
Arguments Returned {A} a st.
Arguments Thrown {A} e st.
Arguments OutOfFuel {A}.

Definition M (A : Type) : Type := State -> Outcome A.

Definition ret {A} (a : A) : M A := fun st => Returned a st.

Definition bind {A B} (m : M A) (k : A -> M B) : M B :=
  fun st =>
    match m st with
    | Returned a st' => k a st'
    | Thrown e st' => Thrown e st'
    | OutOfFuel => OutOfFuel
    end.

Definition throw {A} (e : Error) : M A := fun st => Thrown e st.

(** [try { m } catch (error) { handler error }] *)
Definition try_catch {A} (m : M A) (handler : Error -> M A) : M A :=
  fun st =>
    match m st with
    | Thrown e st' => handler e st'
    | o => o
    end.

Definition gets {A} (f : State -> A) : M A := fun st => Returned (f st) st.
Definition modify (f : State -> State) : M unit :=
  fun st => Returned tt (f st).

Notation "x <- m ;; k" := (bind m (fun x => k))
  (at level 100, m at next level, k at level 200, right associativity,
   only parsing).
Notation "m ;; k" := (bind m (fun _ => k))
  (at level 100, k at level 200, right associativity, only parsing).

(** ** The collaborators *)

(** [Date.now()] *)
Definition Date_now : M Z := gets clock.

(** [console.log], [console.warn], [console.error] *)
Definition console (level : LogLevel) (line : LogLine) : M unit :=
  modify (record (ALog level line)).

(** [await new Promise((resolve) => setTimeout(resolve, delay))]: the trace
    keeps the delay that was given to [setTimeout]; the method is
    suspended for [armed delay] milliseconds. *)
Definition setTimeout_await (delay : float) : M unit :=
  modify (fun st =>
    set_clock (clock st + milliseconds (armed delay))
      (record (ASleep delay) st)).

(** [await this.client.send(new GetSecretValueCommand({ SecretId }))] *)
Definition client_send (userId secretId : string) (attempt : nat)
    : M (option GetSecretValueCommandOutput) :=
  fun st =>
    let result := source st (calls st) secretId in
    let st' := record (ACall userId secretId attempt result)
                 (set_calls (S (calls st)) st) in
    match result with
    | Rejects message => Thrown (ClientError message) st'
    | Resolves response => Returned response st'
    end.

(** The inherited [on(name, listener)].  Listeners are observers: they do
    not throw and do not call back into the object, so only the fact that
    one is registered matters. *)
Definition on (name : EventName) : M unit :=
  modify (set_listeners (fun l => l ++ [name])).

(** The inherited [emit(name, payload)].  Node's [EventEmitter] treats the
    name ['error'] specially: when no listener is registered for it,
    [emit('error', payload)] throws instead of returning (a payload that is
    not an [Error] is wrapped in an [ERR_UNHANDLED_ERROR]). *)
Definition emit (e : Event) : M unit :=
  fun st =>
    let st' := record (AEmit e) st in
    match e with
    | ErrorEvent userId error timestamp =>
        if bool_decide (EvError ∈ listeners st) then Returned tt st'
        else Thrown (UnhandledError userId error timestamp) st'
    | _ => Returned tt st'
    end.

(** [setInterval(callback, period)]: the callback is always the scheduled
    refresh, so a timer is its handle and its period.  [timers] and the
    trace keep the period that was given to [setInterval]; the timer fires
    every [armed period] milliseconds. *)
Definition setInterval (period : float) : M nat :=
  fun st =>
    let h := nextHandle st in
    Returned h (record (ASetInterval h period)
                  (set_nextHandle (S h) (set_timers (insert h period) st))).

Definition clearInterval (h : nat) : M unit :=
  modify (fun st => record (AClearInterval h) (set_timers (delete h) st)).

(** ** The class *)

(** [if (!this.config.disableEvents) { ... }] *)
Definition unlessEventsDisabled (m : M unit) : M unit :=
  disabled <- gets (fun st => disableEvents (config st)) ;;
  if disabled then ret tt else m.

(** Lines 61-65: the value of a response.  A JavaScript string is truthy
    when it is not empty; a [Uint8Array] is always truthy. *)
Definition secretValueOf (response : GetSecretValueCommandOutput)
    : Error + JsValue :=
  match SecretString response with
  | Some (String c s) =>
      match JSON_parse (String c s) with
      | Some v => inr v
      | None => inl (SyntaxError (String c s))
      end
  | _ =>
      match SecretBinary response with
      | Some bytes => inr (JsString (Buffer_toString_utf8 bytes))
      | None => inr (JsString EmptyString)
      end
  end.

(** Line 69: [!currentEntry ||
    JSON.stringify(currentEntry.value) !== JSON.stringify(secretValue)] *)
Definition changed (currentEntry : option CacheEntry) (secretValue : JsValue)
    : bool :=
  match currentEntry with
  | None => true
  | Some entry =>
      bool_decide (JSON_stringify (value entry) <> JSON_stringify secretValue)
  end.

(** Lines 56-75, the body of the [try]. *)
Definition fetchSecret_try (userId secretId : string) (attempt : nat)
    : M unit :=
  response <- client_send userId secretId attempt ;;
  match response with
  | None => throw (NoResponseError secretId)
  | Some response =>
      match secretValueOf response with
      | inl error => throw error
      | inr secretValue =>
          currentEntry <- gets (fun st => cache st !! userId) ;;
          now <- Date_now ;;
          let newEntry := {| value := secretValue; fetchedAt := now |} in
          if changed currentEntry secretValue then
            modify (set_cache (insert userId newEntry)) ;;
            unlessEventsDisabled
              (emit (UpdateEvent userId secretValue (fetchedAt newEntry))) ;;
            console Info (UpdatedCache userId)
          else ret tt
      end
  end.

(** Lines 76-87, the [catch] block; [retry] is the recursive call of line
    81. *)
Definition fetchSecret_catch (retry : M unit) (userId : string)
    (attempt : nat) (error : Error) : M unit :=
  cfg <- gets config ;;
  if (attempt <=? maxRetries cfg)%nat then
    let delay := (retryDelay cfg * Math_pow2 (Z.of_nat attempt - 1))%float in
    console Warn (RetryLine attempt (maxRetries cfg) userId delay error) ;;
    setTimeout_await delay ;;
    retry
  else
    unlessEventsDisabled
      (now <- Date_now ;; emit (ErrorEvent (Some userId) error now)) ;;
    console Err (FailedLine userId (maxRetries cfg) error).

(** Lines 54-88.  The method calls itself from its [catch] with
    [attempt + 1]; [fuel] bounds the depth of these calls.  [attempt] is
    [1] at every call from outside. *)
Fixpoint fetchSecretWithRetry_fuel (fuel : nat) (userId secretId : string)
    (attempt : nat) : M unit :=
  match fuel with
  | O => fun _ => OutOfFuel
  | S fuel' =>
      try_catch (fetchSecret_try userId secretId attempt)
        (fetchSecret_catch
           (fetchSecretWithRetry_fuel fuel' userId secretId (attempt + 1))
           userId attempt)
  end.

(** The method itself: the fuel is the number of attempts that are left,
    [fetchSecretWithRetry_total] shows that it never runs out. *)
Definition fetchSecretWithRetry (userId secretId : string) (attempt : nat)
    : M unit :=
  fun st =>
    fetchSecretWithRetry_fuel (S (S (maxRetries (config st)) - attempt))
      userId secretId attempt st.

(** [await Promise.all(promises)].  The promises were all started by the
    [map]; each of them runs to its end whatever happens to the others, and
    the [await] throws the rejection of the first that rejects.  Each fetch
    reads and writes the cache at its own alias only and the aliases of
    [Object.entries] are distinct, so the order in which the fetches
    interleave does not show in the cache.  The model runs them one after
    the other, in the order of the list it is given; the source starts
    every fetch before it awaits any, so the fetches interleave at their
    [await]s.  What is stated of a fan-out is therefore stated per alias
    (its own calls, its own notifications, its own cache entry) or of
    counts, and never of the order of the actions of different aliases or
    of which call of the run served which alias. *)
Fixpoint Promise_all (promises : list (M unit)) : M unit :=
  match promises with
  | [] => ret tt
  | p :: rest =>
      fun st =>
        match p st with
        | Returned _ st1 => Promise_all rest st1
        | Thrown e st1 =>
            match Promise_all rest st1 with
            | Returned _ st2 => Thrown e st2
            | Thrown _ st2 => Thrown e st2
            | OutOfFuel => OutOfFuel
            end
        | OutOfFuel => OutOfFuel
        end
  end.

(** Lines 45-52.  [map_to_list] lists the registry in the order of its
    keys, [Object.entries] in the order of insertion; see [Promise_all]. *)
Definition fetchAllSecrets : M unit :=
  console Info FetchingAll ;;
  mappings <- gets (fun st => secretMappings (config st)) ;;
  Promise_all
    (map (fun entry => fetchSecretWithRetry entry.1 entry.2 1%nat)
         (map_to_list mappings)) ;;
  console Info FinishedFetchingAll.

(** Lines 93-100, the callback of the interval timer. *)
Definition scheduledRefresh : M unit :=
  console Info RefreshTriggered ;;
  try_catch fetchAllSecrets (fun error =>
    unlessEventsDisabled
      (now <- Date_now ;; emit (ErrorEvent None error now)) ;;
    console Err (RefreshFailed error)).

(** Lines 90-107. *)
Definition startScheduledRefresh : M unit :=
  running <- gets isRunning ;;
  if negb running then
    modify (set_isRunning true) ;;
    period <- gets (fun st => refreshInterval (config st)) ;;
    h <- setInterval period ;;
    modify (set_refreshIntervalId (Some h)) ;;
    unlessEventsDisabled (now <- Date_now ;; emit (StartEvent now)) ;;
    console Info (RefreshStarted period)
  else ret tt.

(** Lines 109-118. *)
Definition stopScheduledRefresh : M unit :=
  running <- gets isRunning ;;
  id <- gets refreshIntervalId ;;
  match running, id with
  | true, Some h =>
      clearInterval h ;;
      modify (set_isRunning false) ;;
      unlessEventsDisabled (now <- Date_now ;; emit (StopEvent now)) ;;
      console Info RefreshStopped
  | _, _ => ret tt
  end.

(** Lines 40-43. *)
Definition initialize : M unit :=
  fetchAllSecrets ;;
  startScheduledRefresh.

(** Lines 120-123. *)
Definition getSecret (userId : string) (st : State) : option JsValue :=
  value <$> cache st !! userId.

(** Lines 125-131: the own properties of the object that is returned.
    The result is a plain object filled by [secrets[userId] = entry.value],
    so the entry cached for ["__proto__"] is not among them (a value that
    is an object becomes the prototype of the result instead). *)
Definition getAllSecrets (st : State) : gmap string JsValue :=
  value <$> delete "__proto__"%string (cache st).

(** Lines 133-136. *)
Definition addSecretMapping (userId secretId : string) : M unit :=
  modify (set_secretMappings (object_set userId secretId)) ;;
  fetchSecretWithRetry userId secretId 1%nat.

(** Lines 138-144. *)
Definition removeSecretMapping (userId : string) : M unit :=
  modify (set_secretMappings (delete userId)) ;;
  modify (set_cache (delete userId)) ;;
  unlessEventsDisabled (now <- Date_now ;; emit (RemoveEvent userId now)).

(** Lines 146-154. *)
Definition clearCache : M unit :=
  modify (set_cache (fun _ => ∅)) ;;
  running <- gets isRunning ;;
  (if running then stopScheduledRefresh else ret tt) ;;
  unlessEventsDisabled (now <- Date_now ;; emit (ClearEvent now)).

(** Lines 156-158. *)
Definition getCacheStats (st : State) : nat := size (cache st).

(** Lines 5-14: what [configSchema.parse] accepts.  [maxRetries] is a
    natural number by its type; a positive number is a double above [0],
    which [NaN] is not. *)
Definition configSchema (cfg : AWSSecretsConfig) : bool :=
  bool_decide (secretMappings cfg <> ∅)
  && PrimFloat.ltb 0 (refreshInterval cfg)
  && PrimFloat.ltb 0 (retryDelay cfg).

(** Lines 32-38: the object right after construction from a configuration
    that [configSchema] accepts, in an environment where the Secret Source
    behaves as [src] and the clock reads [t0]. *)
Definition new_cache (cfg : AWSSecretsConfig)
    (src : nat -> string -> SendResult) (t0 : Z) : State :=
  {| config := cfg; cache := ∅; refreshIntervalId := None;
     isRunning := false; listeners := [];
     source := src; calls := 0; clock := t0;
     timers := ∅; nextHandle := 0; trace := [] |}.

(** The public surface of the object, the inherited [on] and the firing
    of the interval timer. *)
Inductive Op :=
| OpOn (name : EventName)
| OpInitialize
| OpGetSecret (userId : string)
| OpGetAllSecrets
| OpStopScheduledRefresh
| OpAddSecretMapping (userId secretId : string)
| OpRemoveSecretMapping (userId : string)
| OpClearCache
| OpGetCacheStats
| OpTimerFires.

Definition run (op : Op) : M unit :=
  match op with
  | OpOn name => on name
  | OpInitialize => initialize
  | OpGetSecret userId => _ <- gets (getSecret userId) ;; ret tt
  | OpGetAllSecrets => _ <- gets getAllSecrets ;; ret tt
  | OpStopScheduledRefresh => stopScheduledRefresh
  | OpAddSecretMapping userId secretId => addSecretMapping userId secretId
  | OpRemoveSecretMapping userId => removeSecretMapping userId
  | OpClearCache => clearCache
  | OpGetCacheStats => _ <- gets getCacheStats ;; ret tt
  | OpTimerFires => scheduledRefresh
  end.

(** The operations that fetch. *)
Definition fetches (op : Op) : bool :=
  match op with
  | OpInitialize | OpAddSecretMapping _ _ | OpTimerFires => true
  | _ => false
  end.

Definition outcome_state {A} (o : Outcome A) : option State :=
  match o with
  | Returned _ st => Some st
  | Thrown _ st => Some st
  | OutOfFuel => None
  end.

(** The states the object can be in: a fresh object, and whatever an
    operation leaves behind, whether it returned or threw. *)
Inductive reachable : State -> Prop :=
| reachable_new cfg src t0 :
    configSchema cfg = true -> reachable (new_cache cfg src t0)
| reachable_step st op st' :
    reachable st -> outcome_state (run op st) = Some st' -> reachable st'.

(** ** Reading the trace *)

Definition is_call (a : Action) : bool :=
  match a with ACall _ _ _ _ => true | _ => false end.

Definition is_error_event (a : Action) : bool :=
  match a with AEmit (ErrorEvent _ _ _) => true | _ => false end.

Definition is_update_event (a : Action) : bool :=
  match a with AEmit (UpdateEvent _ _ _) => true | _ => false end.

Definition is_update_for (userId : string) (a : Action) : bool :=
  match a with
  | AEmit (UpdateEvent u _ _) => bool_decide (u = userId)
  | _ => false
  end.

Definition is_clear_event (a : Action) : bool :=
  match a with AEmit (ClearEvent _) => true | _ => false end.

Definition is_start_event (a : Action) : bool :=
  match a with AEmit (StartEvent _) => true | _ => false end.

Definition is_stop_event (a : Action) : bool :=
  match a with AEmit (StopEvent _) => true | _ => false end.

Definition is_set_interval (a : Action) : bool :=
  match a with ASetInterval _ _ => true | _ => false end.

Definition is_clear_interval (a : Action) : bool :=
  match a with AClearInterval _ => true | _ => false end.

(** The attempt numbers of the calls of a trace, in order. *)
Fixpoint attempts_of (tr : list Action) : list nat :=
  match tr with
  | [] => []
  | ACall _ _ k _ :: tr' => k :: attempts_of tr'
  | _ :: tr' => attempts_of tr'
  end.

Fixpoint count (p : Action -> bool) (tr : list Action) : nat :=
  match tr with
  | [] => 0
  | a :: tr' => (if p a then 1 else 0) + count p tr'
  end.

(** What was appended to the trace between [st] and [st']. *)
Definition actions_since (st st' : State) : list Action :=
  drop (length (trace st)) (trace st').

(** ** Derived forms used in the proofs *)

(** What one answer of the Secret Source amounts to for lines 57-65: the
    error that reaches the [catch], or the decoded value. *)
Definition attempt_result (secretId : string) (r : SendResult)
    : Error + JsValue :=
  match r with
  | Rejects message => inl (ClientError message)
  | Resolves None => inl (NoResponseError secretId)
  | Resolves (Some response) => secretValueOf response
  end.

Definition attempt_fails (secretId : string) (r : SendResult) : bool :=
  match attempt_result secretId r with inl _ => true | inr _ => false end.

(** The text payload of a response, as line 61 sees it: a [SecretString]
    that is truthy. *)
Definition textPayload (response : GetSecretValueCommandOutput)
    : option string :=
  match SecretString response with
  | Some (String c s) => Some (String c s)
  | _ => None
  end.

(** The state right after the [send] of an attempt. *)
Definition after_call (userId secretId : string) (attempt : nat)
    (st : State) : State :=
  record (ACall userId secretId attempt (source st (calls st) secretId))
    (set_calls (S (calls st)) st).

(** The state after lines 66-75, entered with the decoded value [v]. *)
Definition store (userId : string) (v : JsValue) (st : State) : State :=
  if changed (cache st !! userId) v then
    let st1 :=
      set_cache (insert userId {| value := v; fetchedAt := clock st |}) st in
    let st2 :=
      if disableEvents (config st) then st1
      else record (AEmit (UpdateEvent userId v (clock st))) st1 in
    record (ALog Info (UpdatedCache userId)) st2
  else st.

(** The state in which line 81 calls the method again. *)
Definition before_retry (userId : string) (attempt : nat) (error : Error)
    (st : State) : State :=
  let delay :=
    (retryDelay (config st) * Math_pow2 (Z.of_nat attempt - 1))%float in
  set_clock (clock st + milliseconds (armed delay))
    (record (ASleep delay)
       (record (ALog Warn (RetryLine attempt (maxRetries (config st)) userId
                             delay error)) st)).

(** Lines 83-86, when the retries are used up. *)
Definition report_failure (userId : string) (error : Error) (st : State)
    : Outcome unit :=
  let line := ALog Err (FailedLine userId (maxRetries (config st)) error) in
  if disableEvents (config st) then Returned tt (record line st)
  else
    let st1 := record (AEmit (ErrorEvent (Some userId) error (clock st))) st in
    if bool_decide (EvError ∈ listeners st) then Returned tt (record line st1)
    else Thrown (UnhandledError (Some userId) error (clock st)) st1.

(** The delays given to [setTimeout], in order. *)
Fixpoint sleeps_of (tr : list Action) : list float :=
  match tr with
  | [] => []
  | ASleep d :: tr' => d :: sleeps_of tr'
  | _ :: tr' => sleeps_of tr'
  end.

(** The durations of the suspensions of a trace, in order: what Node arms
    for the delays given to [setTimeout]. *)
Definition suspensions_of (tr : list Action) : list float :=
  armed <$> sleeps_of tr.

(** The periods at which the interval timers of [timers] fire. *)
Definition armed_timers (st : State) : gmap nat float := armed <$> timers st.

(** The alias and the identifier of the calls of a trace, in order. *)
Fixpoint targets_of (tr : list Action) : list (string * string) :=
  match tr with
  | [] => []
  | ACall userId secretId _ _ :: tr' => (userId, secretId) :: targets_of tr'
  | _ :: tr' => targets_of tr'
  end.

(** The fetch of [secretId] that starts in [st] exhausts its retries: the
    answers to its [maxRetries + 1] calls all fail. *)
Definition exhausts (secretId : string) (st : State) : Prop :=
  forall i : nat, (i <= maxRetries (config st))%nat ->
    attempt_fails secretId (source st (calls st + i)%nat secretId) = true.

(** Every alias of the cache was fetched successfully at some point: the
    trace holds a call made for it whose answer decodes to the cached
    value. *)
Definition fetched (userId : string) (v : JsValue) (tr : list Action)
    : Prop :=
  exists secretId attempt response,
    In (ACall userId secretId attempt (Resolves (Some response))) tr /\
    secretValueOf response = inr v.

Definition cache_inv (st : State) : Prop :=
  forall userId entry, cache st !! userId = Some entry ->
    fetched userId (value entry) (trace st).

(** The state after lines 92-105, entered with the scheduler stopped. *)
Definition started (st : State) : State :=
  let h := nextHandle st in
  let period := refreshInterval (config st) in
  let st1 :=
    set_refreshIntervalId (Some h)
      (record (ASetInterval h period)
         (set_nextHandle (S h)
            (set_timers (insert h period) (set_isRunning true st)))) in
  let st2 :=
    if disableEvents (config st) then st1
    else record (AEmit (StartEvent (clock st))) st1 in
  record (ALog Info (RefreshStarted period)) st2.

(** The state after lines 111-116, entered with the timer [h] running. *)
Definition halted (h : nat) (st : State) : State :=
  let st1 :=
    set_isRunning false
      (record (AClearInterval h) (set_timers (delete h) st)) in
  let st2 :=
    if disableEvents (config st) then st1
    else record (AEmit (StopEvent (clock st))) st1 in
  record (ALog Info RefreshStopped) st2.

(** What any operation can do to the cache: what it holds afterwards was
    there before, or is the decoded answer of a call made meanwhile. *)
Definition cache_effect (st st' : State) (new : list Action) : Prop :=
  trace st' = trace st ++ new /\
  (forall x entry, cache st' !! x = Some entry ->
     cache st !! x = Some entry \/ fetched x (value entry) new).

(** Nothing can make [emit('error', ..)] throw: events are disabled, or
    somebody listens to ['error']. *)
Definition errors_handled (st : State) : Prop :=
  disableEvents (config st) = true \/ EvError ∈ listeners st.

(** What fetching can do to the object: it appends [new] to the trace and
    writes decoded answers to the cache; the configuration, the scheduler,
    the listeners and the rest of the environment stay as they are. *)
Definition fetch_effect (st st' : State) (new : list Action) : Prop :=
  config st' = config st /\
  refreshIntervalId st' = refreshIntervalId st /\
  isRunning st' = isRunning st /\
  listeners st' = listeners st /\
  source st' = source st /\
  timers st' = timers st /\
  nextHandle st' = nextHandle st /\
  trace st' = trace st ++ new /\
  (forall x entry, cache st' !! x = Some entry ->
     cache st !! x = Some entry \/ fetched x (value entry) new).

(** The source answers [payload id] to every request for an identifier
    [id] of [entries], and that payload decodes to [decoded id]. *)
Definition steady_on (payload : string -> GetSecretValueCommandOutput)
    (decoded : string -> JsValue) (entries : list (string * string))
    (st : State) : Prop :=
  forall alias id, (alias, id) ∈ entries ->
    secretValueOf (payload id) = inr (decoded id) /\
    forall n, source st n id = Resolves (Some (payload id)).

(** Any notification. *)
Definition is_emit (a : Action) : bool :=
  match a with AEmit _ => true | _ => false end.

(** The errors carried by the error notifications sent for [userId], in
    order. *)
Fixpoint errors_notified (userId : string) (tr : list Action) : list Error :=
  match tr with
  | [] => []
  | AEmit (ErrorEvent (Some u) error _) :: tr' =>
      if bool_decide (u = userId) then error :: errors_notified userId tr'
      else errors_notified userId tr'
  | _ :: tr' => errors_notified userId tr'
  end.

(** The update notifications of a trace, as (alias, value, timestamp). *)
Fixpoint updates_of (tr : list Action) : list (string * JsValue * Z) :=
  match tr with
  | [] => []
  | AEmit (UpdateEvent u v t) :: tr' => (u, v, t) :: updates_of tr'
  | _ :: tr' => updates_of tr'
  end.

(** The scheduler: [running] with exactly the timer of [refreshIntervalId]
    armed, or stopped with no timer armed. *)
Definition sched_inv (st : State) : Prop :=
  if isRunning st
  then exists h period,
         refreshIntervalId st = Some h /\ timers st = {[ h := period ]}
  else timers st = ∅.

End Cache.

Arguments Returned {_ _} a st.
Arguments Thrown {_ _} e st.
Arguments OutOfFuel {_ _}.

(** ** A small platform to evaluate the model on

    Documents are [null], the booleans and strings; only the literals
    [null], [true] and [false] parse. *)
Inductive Json := JNull | JBool (b : bool) | JStr (s : string).

Definition json_parse (s : string) : option Json :=
  if bool_decide (s = "null"%string) then Some JNull
  else if bool_decide (s = "true"%string) then Some (JBool true)
  else if bool_decide (s = "false"%string) then Some (JBool false)
  else None.

Definition json_stringify (j : Json) : string :=
  match j with
  | JNull => "null"
  | JBool true => "true"
  | JBool false => "false"
  | JStr s =>
      String (Ascii.ascii_of_nat 34) (s +:+ String (Ascii.ascii_of_nat 34) EmptyString)
  end.

#[global] Instance SmallPlatform : Platform := {|
  JsValue := Json;
  JsString := JStr;
  JSON_parse := json_parse;
  JSON_stringify := json_stringify;
  Buffer_toString_utf8 := String.string_of_list_byte
|}.

Definition example_config (retries : nat) (silent : bool) : AWSSecretsConfig :=
  {| region := "us-east-1";
     secretMappings := {[ "a"%string := "idA"%string ]};
     refreshInterval := 1000%float;
     maxRetries := retries;
     retryDelay := 100%float;
     disableEvents := silent |}.

(** A Secret Source that rejects every request. *)
Definition failing_source : nat -> string -> SendResult :=
  fun _ _ => Rejects "unreachable".

(** A Secret Source that answers every request with the text [true]. *)
Definition steady_source : nat -> string -> SendResult :=
  fun _ _ => Resolves (Some {| SecretString := Some "true"%string;
                               SecretBinary := None |}).

(** A Secret Source whose first answer is the text [true] and that rejects
    every later request. *)
Definition flaky_source : nat -> string -> SendResult :=
  fun n _ =>
    if (n <? 1)%nat
    then Resolves (Some {| SecretString := Some "true"%string;
                           SecretBinary := None |})
    else Rejects "unreachable".

(** A Secret Source that answers every request with the two bytes of
    [hi] as a binary payload. *)
Definition binary_source : nat -> string -> SendResult :=
  fun _ _ => Resolves (Some {| SecretString := None;
                               SecretBinary := Some [x68; x69] |}).

(** A Secret Source that answers every request with a text that is not a
    document. *)
Definition malformed_source : nat -> string -> SendResult :=
  fun _ _ => Resolves (Some {| SecretString := Some "oops"%string;
                               SecretBinary := None |}).

(** A Secret Source that answers every request with a response that has
    neither payload. *)
Definition empty_source : nat -> string -> SendResult :=
  fun _ _ => Resolves (Some {| SecretString := None; SecretBinary := None |}).

(** A Secret Source that rejects its first two requests and answers the
    text [true] from then on. *)
Definition recovering_source : nat -> string -> SendResult :=
  fun n _ =>
    if (n <? 2)%nat then Rejects "throttled"
    else Resolves (Some {| SecretString := Some "true"%string;
                           SecretBinary := None |}).

(** A Secret Source that answers the text [true] to its first request and
    the text [false] from then on. *)
Definition rotating_source : nat -> string -> SendResult :=
  fun n _ =>
    Resolves (Some {| SecretString :=
                        Some (if (n <? 1)%nat then "true" else "false")%string;
                      SecretBinary := None |}).

(** The state an operation leaves behind. *)
Definition after (op : Op) (st : State) : State :=
  match outcome_state (run op st) with
  | Some st' => st'
  | None => st
  end.

Definition fresh_state (retries : nat) (silent : bool)
    (src : nat -> string -> SendResult) : State :=
  new_cache (example_config retries silent) src 0.

(** An object that holds a value for the alias [a] and whose source has
    started to fail. *)
Definition stale_state : State :=
  after OpInitialize (fresh_state 2 false flaky_source).

(** An object whose scheduler runs. *)
Definition running_state : State :=
  after OpInitialize (fresh_state 2 false steady_source).

(** A Secret Source that answers every request with an empty text and the
    two bytes of [hi] as a binary payload. *)
Definition empty_text_source : nat -> string -> SendResult :=
  fun _ _ => Resolves (Some {| SecretString := Some EmptyString;
                               SecretBinary := Some [x68; x69] |}).

(** An object with a listener for ['error'] and a source that rejects. *)
Definition listening_state : State :=
  after (OpOn EvError) (fresh_state 0 false failing_source).

(** An object that holds the first value of a source that has rotated. *)
Definition rotated_state : State :=
  after OpInitialize (fresh_state 2 false rotating_source).

(** An object whose only alias was removed. *)
Definition emptied_state : State :=
  after (OpRemoveSecretMapping "a") (fresh_state 2 false steady_source).

(** An object with no alias cached, a source that rejects, and the given
    [retryDelay] and [maxRetries]. *)
Definition backoff_state (delay : float) (retries : nat) : State :=
  new_cache
    {| region := "us-east-1";
       secretMappings := {[ "a"%string := "idA"%string ]};
       refreshInterval := 1000%float;
       maxRetries := retries;
       retryDelay := delay;
       disableEvents := false |}
    failing_source 0.

(** A Secret Source that answers every request with an empty text and no
    binary payload. *)
Definition blank_text_source : nat -> string -> SendResult :=
  fun _ _ => Resolves (Some {| SecretString := Some EmptyString;
                               SecretBinary := None |}).

(** * Properties *)

Section Properties.
Context `{Platform}.

Implicit Types (st : State) (userId secretId : string) (attempt fuel : nat).

(** ** One attempt *)

Lemma fetchSecret_try_fails userId secretId attempt st error :
  attempt_result secretId (source st (calls st) secretId) = inl error ->
  fetchSecret_try userId secretId attempt st
  = Thrown error (after_call userId secretId attempt st).
Proof.
  unfold fetchSecret_try, bind, client_send, after_call, attempt_result.
  destruct (source st (calls st) secretId) as [m | [response |]]; cbn.
  - intros [= <-]. reflexivity.
  - intros ->. reflexivity.
  - intros [= <-]. reflexivity.
Qed.

Lemma fetchSecret_try_succeeds userId secretId attempt st v :
  attempt_result secretId (source st (calls st) secretId) = inr v ->
  fetchSecret_try userId secretId attempt st
  = Returned tt (store userId v (after_call userId secretId attempt st)).
Proof.
  unfold fetchSecret_try, bind, client_send, after_call, attempt_result.
  destruct (source st (calls st) secretId) as [m | [response |]]; cbn;
    try discriminate.
  intros ->. unfold store, gets, Date_now; cbn.
  destruct (changed (cache st !! userId) v); [| reflexivity].
  unfold unlessEventsDisabled, bind, gets, modify, console, emit, ret; cbn.
  destruct (disableEvents (config st)); reflexivity.
Qed.

Lemma fetch_step_fails fuel userId secretId attempt st error :
  attempt_result secretId (source st (calls st) secretId) = inl error ->
  fetchSecretWithRetry_fuel (S fuel) userId secretId attempt st
  = fetchSecret_catch
      (fetchSecretWithRetry_fuel fuel userId secretId (attempt + 1))
      userId attempt error (after_call userId secretId attempt st).
Proof.
  intros Hr. cbn [fetchSecretWithRetry_fuel]. unfold try_catch.
  rewrite (fetchSecret_try_fails _ _ _ _ _ Hr). reflexivity.
Qed.

Lemma fetch_step_succeeds fuel userId secretId attempt st v :
  attempt_result secretId (source st (calls st) secretId) = inr v ->
  fetchSecretWithRetry_fuel (S fuel) userId secretId attempt st
  = Returned tt (store userId v (after_call userId secretId attempt st)).
Proof.
  intros Hr. cbn [fetchSecretWithRetry_fuel]. unfold try_catch.
  rewrite (fetchSecret_try_succeeds _ _ _ _ _ Hr). reflexivity.
Qed.

Lemma catch_retries (retry : M unit) userId attempt error st :
  (attempt <= maxRetries (config st))%nat ->
  fetchSecret_catch retry userId attempt error st
  = retry (before_retry userId attempt error st).
Proof.
  intros Hle. unfold fetchSecret_catch, bind, gets.
  apply Nat.leb_le in Hle. rewrite Hle. reflexivity.
Qed.

Lemma catch_reports (retry : M unit) userId attempt error st :
  (maxRetries (config st) < attempt)%nat ->
  fetchSecret_catch retry userId attempt error st = report_failure userId error st.
Proof.
  intros Hlt. unfold fetchSecret_catch, bind, gets.
  apply Nat.leb_gt in Hlt. rewrite Hlt.
  unfold report_failure, unlessEventsDisabled, bind, gets, Date_now, emit, console,
    modify; cbn.
  destruct (disableEvents (config st)); [reflexivity |].
  destruct (bool_decide (EvError ∈ listeners st)); reflexivity.
Qed.

(** ** Reading a trace that grows *)

Lemma count_app (p : Action -> bool) (tr1 tr2 : list Action) :
  count p (tr1 ++ tr2) = (count p tr1 + count p tr2)%nat.
Proof. induction tr1 as [| a tr1 IH]; cbn; [reflexivity | rewrite IH; lia]. Qed.

Lemma attempts_of_app (tr1 tr2 : list Action) :
  attempts_of (tr1 ++ tr2) = attempts_of tr1 ++ attempts_of tr2.
Proof.
  induction tr1 as [| a tr1 IH]; [reflexivity |].
  destruct a; cbn; rewrite IH; reflexivity.
Qed.

Lemma sleeps_of_app (tr1 tr2 : list Action) :
  sleeps_of (tr1 ++ tr2) = sleeps_of tr1 ++ sleeps_of tr2.
Proof.
  induction tr1 as [| a tr1 IH]; [reflexivity |].
  destruct a; cbn; rewrite IH; reflexivity.
Qed.

Lemma actions_since_app st st' (new : list Action) :
  trace st' = trace st ++ new -> actions_since st st' = new.
Proof. intros Ht. unfold actions_since. rewrite Ht. apply drop_app_length. Qed.

(** ** A fetch whose attempts all fail *)

(** The run is described from any attempt number on, so that the
    induction on the fuel goes through; the method is entered at 1. *)
Lemma exhausting_run fuel : forall userId secretId attempt st,
  (attempt <= S (maxRetries (config st)))%nat ->
  (S (maxRetries (config st)) < attempt + fuel)%nat ->
  (forall i, (attempt + i <= S (maxRetries (config st)))%nat ->
     attempt_fails secretId (source st (calls st + i)%nat secretId) = true) ->
  exists st' new,
    outcome_state (fetchSecretWithRetry_fuel fuel userId secretId attempt st)
      = Some st' /\
    cache st' = cache st /\
    config st' = config st /\
    trace st' = trace st ++ new /\
    attempts_of new
      = seq attempt (S (S (maxRetries (config st)) - attempt)) /\
    sleeps_of new
      = map (fun k => (retryDelay (config st) * Math_pow2 (Z.of_nat k - 1))%float)
          (seq attempt (S (maxRetries (config st)) - attempt)) /\
    count is_error_event new
      = (if disableEvents (config st) then 0 else 1)%nat /\
    (exists r rest, new = ACall userId secretId attempt r :: rest) /\
    (forall k, (attempt < k <= S (maxRetries (config st)))%nat ->
       exists pre r post,
         new = pre ++ ASleep ((retryDelay (config st) * Math_pow2 (Z.of_nat k - 2))%float)
                 :: ACall userId secretId k r :: post) /\
    (disableEvents (config st) = false -> EvError ∉ listeners st ->
     exists cause timestamp,
       fetchSecretWithRetry_fuel fuel userId secretId attempt st
       = Thrown (UnhandledError (Some userId) cause timestamp) st').
Proof.
  induction fuel as [| fuel IH]; intros userId secretId attempt st Hle Hfuel Hfail.
  { lia. }
  pose proof (Hfail 0%nat ltac:(lia)) as H0. rewrite Nat.add_0_r in H0.
  unfold attempt_fails in H0.
  destruct (attempt_result secretId (source st (calls st) secretId))
    as [error | v] eqn:Hr; [clear H0 | discriminate].
  rewrite (fetch_step_fails _ _ _ _ _ _ Hr).
  destruct (le_gt_dec attempt (maxRetries (config st))) as [Hretry | Hlast].
  - rewrite catch_retries by exact Hretry.
    set (st2 := before_retry userId attempt error
                  (after_call userId secretId attempt st)).
    destruct (IH userId secretId (attempt + 1)%nat st2)
      as (st' & new & Hout & Hcache & Hconfig & Htrace & Hatt & Hsl & Herr
          & (r2 & rest2 & Hhead) & Hadj & Hthrow).
    { cbn. lia. }
    { cbn. lia. }
    { intros i Hi. cbn in Hi |- *.
      pose proof (Hfail (S i) ltac:(lia)) as HSi.
      replace (calls st + S i)%nat with (S (calls st + i)) in HSi by lia.
      exact HSi. }
    cbn in Hcache, Hconfig, Htrace, Hatt, Hsl, Herr, Hadj, Hthrow.
    exists st'.
    eexists (ACall userId secretId attempt _ :: ALog Warn _ :: ASleep _ :: new).
    split; [exact Hout |]. split; [exact Hcache |]. split; [exact Hconfig |].
    split. { rewrite Htrace, <- !app_assoc. reflexivity. }
    split.
    { cbn. rewrite Hatt.
      replace (S (maxRetries (config st)) - attempt)%nat
        with (S (S (maxRetries (config st)) - (attempt + 1)))%nat by lia.
      cbn. rewrite Nat.add_1_r. reflexivity. }
    split.
    { cbn. rewrite Hsl.
      replace (S (maxRetries (config st)) - attempt)%nat
        with (S (S (maxRetries (config st)) - (attempt + 1)))%nat by lia.
      cbn. rewrite Nat.add_1_r. reflexivity. }
    split; [exact Herr |].
    split; [eauto |].
    split; [| exact Hthrow].
    intros k Hk.
    destruct (decide (k = attempt + 1)%nat) as [-> | Hne].
    + exists [ACall userId secretId attempt (source st (calls st) secretId);
              ALog Warn (RetryLine attempt (maxRetries (config st)) userId
                ((retryDelay (config st) * Math_pow2 (Z.of_nat attempt - 1))%float) error)],
        r2, rest2.
      rewrite Hhead. cbn.
      replace (Z.of_nat (attempt + 1) - 2) with (Z.of_nat attempt - 1) by lia.
      reflexivity.
    + destruct (Hadj k ltac:(lia)) as (pre & r & post & Hnew).
      exists (ACall userId secretId attempt (source st (calls st) secretId)
                :: ALog Warn (RetryLine attempt (maxRetries (config st)) userId
                     ((retryDelay (config st) * Math_pow2 (Z.of_nat attempt - 1))%float) error)
                :: ASleep ((retryDelay (config st) * Math_pow2 (Z.of_nat attempt - 1))%float)
                :: pre), r, post.
      rewrite Hnew. reflexivity.
  - rewrite catch_reports by (cbn; lia).
    assert (attempt = S (maxRetries (config st))) as Hlast' by lia.
    unfold report_failure. cbn.
    replace (S (maxRetries (config st)) - attempt)%nat with 0%nat by lia.
    destruct (disableEvents (config st));
      [| destruct (bool_decide (EvError ∈ listeners st)) eqn:Hl];
      eexists _, _; cbn;
      (split; [reflexivity |]); (split; [reflexivity |]);
      (split; [reflexivity |]);
      (split; [cbn; rewrite <- ?app_assoc; reflexivity |]);
      (split; [reflexivity |]); (split; [reflexivity |]);
      (split; [reflexivity |]); (split; [eauto |]);
      (split; [intros k Hk; lia |]).
    + intros Hd. discriminate.
    + intros _ Hn. apply bool_decide_eq_true in Hl. contradiction.
    + intros _ _. eauto.
Qed.

(** ** Any fetch: it ends, and what it can change *)

Lemma fetched_app_l userId v (tr1 tr2 : list Action) :
  fetched userId v tr1 -> fetched userId v (tr1 ++ tr2).
Proof.
  intros (s & k & r & Hin & Hv). exists s, k, r. split; [| exact Hv].
  apply in_or_app. left. exact Hin.
Qed.

Lemma fetched_app_r userId v (tr1 tr2 : list Action) :
  fetched userId v tr2 -> fetched userId v (tr1 ++ tr2).
Proof.
  intros (s & k & r & Hin & Hv). exists s, k, r. split; [| exact Hv].
  apply in_or_app. right. exact Hin.
Qed.

Lemma fetch_effect_refl st : fetch_effect st st [].
Proof.
  unfold fetch_effect. rewrite app_nil_r.
  repeat (split; [reflexivity |]). intros x entry Hx. left. exact Hx.
Qed.

Lemma fetch_effect_trans st st1 st2 (new1 new2 : list Action) :
  fetch_effect st st1 new1 -> fetch_effect st1 st2 new2 ->
  fetch_effect st st2 (new1 ++ new2).
Proof.
  intros (A1 & A2 & A3 & A4 & A5 & A6 & A7 & A8 & A9)
         (B1 & B2 & B3 & B4 & B5 & B6 & B7 & B8 & B9).
  unfold fetch_effect.
  rewrite B1, B2, B3, B4, B5, B6, B7, B8, A8, app_assoc.
  repeat (split; [assumption || reflexivity |]).
  intros x entry Hx. destruct (B9 x entry Hx) as [Hold | Hnew].
  - destruct (A9 x entry Hold) as [Hold' | Hnew'].
    + left. exact Hold'.
    + right. apply fetched_app_l. exact Hnew'.
  - right. apply fetched_app_r. exact Hnew.
Qed.

Lemma fetch_effect_record st (a : Action) : fetch_effect st (record a st) [a].
Proof.
  unfold fetch_effect. cbn.
  repeat (split; [reflexivity |]). intros x entry Hx. left. exact Hx.
Qed.

Lemma errors_handled_effect st st' (new : list Action) :
  fetch_effect st st' new -> errors_handled st -> errors_handled st'.
Proof.
  intros (A1 & _ & _ & A4 & _) Hh. unfold errors_handled.
  rewrite A1, A4. exact Hh.
Qed.

Lemma store_effect userId secretId attempt st response v :
  source st (calls st) secretId = Resolves (Some response) ->
  secretValueOf response = inr v ->
  fetch_effect st (store userId v (after_call userId secretId attempt st))
    (actions_since st (store userId v (after_call userId secretId attempt st))).
Proof.
  intros Hsrc Hv.
  assert (fetched userId v
            [ACall userId secretId attempt (Resolves (Some response))])
    as Hf.
  { exists secretId, attempt, response. split; [left; reflexivity | exact Hv]. }
  unfold store, after_call. cbn. rewrite Hsrc.
  destruct (changed (cache st !! userId) v).
  - destruct (disableEvents (config st)); cbn;
      (erewrite actions_since_app
         by (cbn; rewrite <- ?app_assoc; reflexivity));
      unfold fetch_effect; cbn; rewrite <- ?app_assoc;
      repeat (split; [reflexivity |]);
      intros x entry Hx;
      (destruct (decide (userId = x)) as [<- | Hne];
       [ rewrite lookup_insert_eq in Hx; injection Hx as <-; right;
         apply (fetched_app_l _ _ [_]); exact Hf
       | rewrite lookup_insert_ne in Hx by exact Hne; left; exact Hx ]).
  - cbn. erewrite actions_since_app by (cbn; reflexivity).
    unfold fetch_effect; cbn.
    repeat (split; [reflexivity |]). intros x entry Hx. left. exact Hx.
Qed.

Lemma report_failure_effect userId error st :
  exists st' new,
    outcome_state (report_failure userId error st) = Some st' /\
    fetch_effect st st' new /\
    (errors_handled st -> report_failure userId error st = Returned tt st').
Proof.
  unfold report_failure, errors_handled.
  destruct (disableEvents (config st)) eqn:Hd.
  - eexists _, [_]. split; [reflexivity |].
    split; [apply fetch_effect_record | reflexivity].
  - destruct (bool_decide (EvError ∈ listeners st)) eqn:Hl.
    + eexists _, ([_] ++ [_]). split; [reflexivity |].
      split; [| reflexivity].
      eapply fetch_effect_trans; apply fetch_effect_record.
    + eexists _, [_]. split; [reflexivity |].
      split; [apply fetch_effect_record |].
      intros [Hf | Hin]; [discriminate |].
      apply bool_decide_eq_false in Hl. contradiction.
Qed.

Lemma before_retry_effect userId attempt error st :
  exists new, fetch_effect st (before_retry userId attempt error st) new.
Proof.
  eexists [_; _]. unfold fetch_effect, before_retry. cbn.
  rewrite <- app_assoc.
  repeat (split; [reflexivity |]). intros x entry Hx. left. exact Hx.
Qed.

Lemma after_call_effect userId secretId attempt st :
  fetch_effect st (after_call userId secretId attempt st)
    [ACall userId secretId attempt (source st (calls st) secretId)].
Proof.
  unfold fetch_effect, after_call. cbn.
  repeat (split; [reflexivity |]). intros x entry Hx. left. exact Hx.
Qed.

Lemma fetchSecretWithRetry_fuel_effect fuel :
  forall userId secretId attempt st,
  (S (maxRetries (config st)) - attempt < fuel)%nat ->
  exists st' new,
    outcome_state (fetchSecretWithRetry_fuel fuel userId secretId attempt st)
      = Some st' /\
    fetch_effect st st' new /\
    (errors_handled st ->
     fetchSecretWithRetry_fuel fuel userId secretId attempt st
     = Returned tt st').
Proof.
  induction fuel as [| fuel IH]; intros userId secretId attempt st Hfuel.
  { lia. }
  destruct (attempt_result secretId (source st (calls st) secretId))
    as [error | v] eqn:Hr.
  - rewrite (fetch_step_fails _ _ _ _ _ _ Hr).
    pose proof (after_call_effect userId secretId attempt st) as Hcall.
    destruct (le_gt_dec attempt (maxRetries (config st))) as [Hretry | Hlast].
    + rewrite catch_retries by exact Hretry.
      destruct (before_retry_effect userId attempt error
                  (after_call userId secretId attempt st)) as (new1 & Hb).
      pose proof (fetch_effect_trans _ _ _ _ _ Hcall Hb) as H1.
      destruct (IH userId secretId (attempt + 1)%nat
                  (before_retry userId attempt error
                     (after_call userId secretId attempt st)))
        as (st' & new2 & Hout & Heff & Hret).
      { cbn. lia. }
      exists st'. eexists. split; [exact Hout |].
      split; [exact (fetch_effect_trans _ _ _ _ _ H1 Heff) |].
      intros Hh. apply Hret. exact (errors_handled_effect _ _ _ H1 Hh).
    + rewrite catch_reports by (cbn; lia).
      destruct (report_failure_effect userId error
                  (after_call userId secretId attempt st))
        as (st' & new2 & Hout & Heff & Hret).
      exists st'. eexists. split; [exact Hout |].
      split; [exact (fetch_effect_trans _ _ _ _ _ Hcall Heff) |].
      intros Hh. apply Hret. exact (errors_handled_effect _ _ _ Hcall Hh).
  - rewrite (fetch_step_succeeds _ _ _ _ _ _ Hr).
    unfold attempt_result in Hr.
    destruct (source st (calls st) secretId) as [m | [response |]] eqn:Hsrc;
      try discriminate.
    eexists _, _. split; [reflexivity |].
    split; [exact (store_effect _ _ _ _ _ _ Hsrc Hr) | reflexivity].
Qed.

(** The method never runs out of fuel. *)
Lemma fetchSecretWithRetry_total userId secretId attempt st :
  exists st' new,
    outcome_state (fetchSecretWithRetry userId secretId attempt st) = Some st' /\
    fetch_effect st st' new /\
    (errors_handled st ->
     fetchSecretWithRetry userId secretId attempt st = Returned tt st').
Proof.
  unfold fetchSecretWithRetry.
  apply fetchSecretWithRetry_fuel_effect. lia.
Qed.

(** ** The fan-out *)

Lemma Promise_all_effect (entries : list (string * string)) : forall st,
  exists st' new,
    outcome_state
      (Promise_all
         (map (fun entry => fetchSecretWithRetry entry.1 entry.2 1%nat)
            entries) st) = Some st' /\
    fetch_effect st st' new /\
    (errors_handled st ->
     Promise_all
       (map (fun entry => fetchSecretWithRetry entry.1 entry.2 1%nat)
          entries) st = Returned tt st').
Proof.
  induction entries as [| entry entries IH]; intros st.
  { exists st, []. split; [reflexivity |].
    split; [apply fetch_effect_refl | reflexivity]. }
  cbn [map Promise_all].
  destruct (fetchSecretWithRetry_total entry.1 entry.2 1%nat st)
    as (st1 & new1 & Hout1 & Heff1 & Hret1).
  destruct (IH st1) as (st2 & new2 & Hout2 & Heff2 & Hret2).
  pose proof (fetch_effect_trans _ _ _ _ _ Heff1 Heff2) as Heff.
  exists st2, (new1 ++ new2).
  destruct (fetchSecretWithRetry entry.1 entry.2 1%nat st)
    as [[] s1 | e s1 |] eqn:E1; cbn in Hout1; try discriminate;
    injection Hout1 as ->.
  - split; [exact Hout2 |]. split; [exact Heff |].
    intros Hh. apply Hret2. exact (errors_handled_effect _ _ _ Heff1 Hh).
  - split.
    { destruct (Promise_all _ st1) as [[] s2 | e2 s2 |]; cbn in Hout2 |- *;
        try discriminate; exact Hout2. }
    split; [exact Heff |].
    intros Hh. specialize (Hret1 Hh). discriminate.
Qed.

Lemma fetchAllSecrets_unfold st :
  fetchAllSecrets st
  = match
      Promise_all
        (map (fun entry => fetchSecretWithRetry entry.1 entry.2 1%nat)
           (map_to_list (secretMappings (config st))))
        (record (ALog Info FetchingAll) st)
    with
    | Returned _ st' => Returned tt (record (ALog Info FinishedFetchingAll) st')
    | Thrown e st' => Thrown e st'
    | OutOfFuel => OutOfFuel
    end.
Proof. reflexivity. Qed.

Lemma fetchAllSecrets_effect st :
  exists st' new,
    outcome_state (fetchAllSecrets st) = Some st' /\
    fetch_effect st st' new /\
    (errors_handled st -> fetchAllSecrets st = Returned tt st').
Proof.
  rewrite fetchAllSecrets_unfold.
  pose proof (fetch_effect_record st (ALog Info FetchingAll)) as H0.
  destruct (Promise_all_effect (map_to_list (secretMappings (config st)))
              (record (ALog Info FetchingAll) st))
    as (st1 & new1 & Hout & Heff & Hret).
  pose proof (fetch_effect_trans _ _ _ _ _ H0 Heff) as H1.
  destruct (Promise_all _ _) as [[] s1 | e s1 |] eqn:E; cbn in Hout;
    try discriminate; injection Hout as ->.
  - eexists _, _. split; [reflexivity |].
    split; [| reflexivity].
    exact (fetch_effect_trans _ _ _ _ _ H1 (fetch_effect_record _ _)).
  - eexists _, _. split; [reflexivity |].
    split; [exact H1 |].
    intros Hh. specialize (Hret (errors_handled_effect _ _ _ H0 Hh)).
    discriminate.
Qed.

Lemma scheduledRefresh_effect st :
  exists st' new,
    outcome_state (scheduledRefresh st) = Some st' /\
    fetch_effect st st' new /\
    (errors_handled st -> scheduledRefresh st = Returned tt st').
Proof.
  unfold scheduledRefresh, bind, try_catch, console, modify.
  pose proof (fetch_effect_record st (ALog Info RefreshTriggered)) as H0.
  destruct (fetchAllSecrets_effect (record (ALog Info RefreshTriggered) st))
    as (st1 & new1 & Hout & Heff & Hret).
  pose proof (fetch_effect_trans _ _ _ _ _ H0 Heff) as H1.
  destruct (fetchAllSecrets _) as [[] s1 | e s1 |] eqn:E; cbn in Hout;
    try discriminate; injection Hout as ->.
  - eexists _, _. split; [reflexivity |]. split; [exact H1 | reflexivity].
  - pose proof (fun Hh => Hret (errors_handled_effect _ _ _ H0 Hh)) as Hret'.
    unfold unlessEventsDisabled, bind, gets, Date_now, emit, ret. cbn.
    destruct (disableEvents (config st1)) eqn:Hd; cbn.
    + eexists _, _. split; [reflexivity |].
      split; [exact (fetch_effect_trans _ _ _ _ _ H1 (fetch_effect_record _ _)) |].
      intros Hh. specialize (Hret' Hh). discriminate.
    + destruct (bool_decide (EvError ∈ listeners st1)) eqn:Hl.
      * eexists _, _. split; [reflexivity |].
        split; [| intros Hh; specialize (Hret' Hh); discriminate].
        exact (fetch_effect_trans _ _ _ _ _
                 (fetch_effect_trans _ _ _ _ _ H1 (fetch_effect_record _ _))
                 (fetch_effect_record _ _)).
      * eexists _, _. split; [reflexivity |].
        split; [| intros Hh; specialize (Hret' Hh); discriminate].
        exact (fetch_effect_trans _ _ _ _ _ H1 (fetch_effect_record _ _)).
Qed.

(** ** The scheduler *)

Lemma start_when_running st :
  isRunning st = true -> startScheduledRefresh st = Returned tt st.
Proof.
  intros Hr. unfold startScheduledRefresh, bind, gets. rewrite Hr. reflexivity.
Qed.

Lemma start_when_stopped st :
  isRunning st = false -> startScheduledRefresh st = Returned tt (started st).
Proof.
  intros Hr. unfold startScheduledRefresh, bind, gets. rewrite Hr. cbn.
  unfold started, unlessEventsDisabled, bind, gets, Date_now, emit, console,
    modify, ret. cbn.
  destruct (disableEvents (config st)); reflexivity.
Qed.

Lemma stop_when_running st h :
  isRunning st = true -> refreshIntervalId st = Some h ->
  stopScheduledRefresh st = Returned tt (halted h st).
Proof.
  intros Hr Hid. unfold stopScheduledRefresh, bind, gets. rewrite Hr, Hid. cbn.
  unfold halted, unlessEventsDisabled, bind, gets, Date_now, emit, console,
    modify, ret. cbn.
  destruct (disableEvents (config st)); reflexivity.
Qed.

Lemma stop_when_stopped st :
  isRunning st = false -> stopScheduledRefresh st = Returned tt st.
Proof.
  intros Hr. unfold stopScheduledRefresh, bind, gets. rewrite Hr. reflexivity.
Qed.

Lemma sched_inv_started st : sched_inv st -> isRunning st = false ->
  sched_inv (started st).
Proof.
  unfold sched_inv. intros Hinv Hr. rewrite Hr in Hinv.
  unfold started. destruct (disableEvents (config st)); cbn;
    exists (nextHandle st), (refreshInterval (config st));
    rewrite Hinv; split; reflexivity.
Qed.

Lemma sched_inv_halted st h : sched_inv st -> isRunning st = true ->
  refreshIntervalId st = Some h -> sched_inv (halted h st).
Proof.
  unfold sched_inv. intros Hinv Hr Hid. rewrite Hr in Hinv.
  destruct Hinv as (h' & period & Hid' & Htimers).
  rewrite Hid in Hid'. injection Hid' as <-.
  unfold halted. destruct (disableEvents (config st)); cbn;
    rewrite Htimers; apply delete_singleton_eq.
Qed.

Lemma sched_inv_fetch_effect st st' (new : list Action) :
  fetch_effect st st' new -> sched_inv st -> sched_inv st'.
Proof.
  intros (_ & A2 & A3 & _ & _ & A6 & _). unfold sched_inv.
  rewrite A2, A3, A6. trivial.
Qed.

(** Stopping from any state of the invariant: it returns, and the
    invariant holds afterwards with the scheduler stopped. *)
Lemma stop_from_inv st : sched_inv st ->
  exists st', stopScheduledRefresh st = Returned tt st' /\
    sched_inv st' /\ isRunning st' = false /\ timers st' = ∅ /\
    cache st' = cache st /\ config st' = config st /\
    (exists new, trace st' = trace st ++ new /\
       count is_clear_event new = 0%nat).
Proof.
  intros Hinv. destruct (isRunning st) eqn:Hr.
  - pose proof Hinv as Hinv'. unfold sched_inv in Hinv'. rewrite Hr in Hinv'.
    destruct Hinv' as (h & period & Hid & Htimers).
    exists (halted h st). split; [exact (stop_when_running _ _ Hr Hid) |].
    split; [exact (sched_inv_halted _ _ Hinv Hr Hid) |].
    unfold halted. destruct (disableEvents (config st)); cbn;
      rewrite Htimers, delete_singleton_eq;
      repeat (split; [reflexivity |]);
      eexists; (split; [rewrite <- ?app_assoc; reflexivity | reflexivity]).
  - exists st. split; [exact (stop_when_stopped _ Hr) |].
    split; [exact Hinv |]. split; [exact Hr |].
    unfold sched_inv in Hinv. rewrite Hr in Hinv.
    split; [exact Hinv |]. split; [reflexivity |]. split; [reflexivity |].
    exists []. rewrite app_nil_r. split; reflexivity.
Qed.

(** ** The operations, one by one *)

Lemma cache_effect_of_fetch st st' (new : list Action) :
  fetch_effect st st' new -> cache_effect st st' new.
Proof. intros (_ & _ & _ & _ & _ & _ & _ & A8 & A9). split; assumption. Qed.

Lemma cache_effect_trans st st1 st2 (new1 new2 : list Action) :
  cache_effect st st1 new1 -> cache_effect st1 st2 new2 ->
  cache_effect st st2 (new1 ++ new2).
Proof.
  intros (A1 & A2) (B1 & B2). split.
  - rewrite B1, A1, app_assoc. reflexivity.
  - intros x entry Hx. destruct (B2 x entry Hx) as [Hold | Hnew].
    + destruct (A2 x entry Hold) as [Hold' | Hnew'].
      * left. exact Hold'.
      * right. apply fetched_app_l. exact Hnew'.
    + right. apply fetched_app_r. exact Hnew.
Qed.

(** A state that keeps the cache, or shrinks it, and extends the trace. *)
Lemma cache_effect_shrink st st' (new : list Action) :
  trace st' = trace st ++ new ->
  (forall x entry, cache st' !! x = Some entry -> cache st !! x = Some entry) ->
  cache_effect st st' new.
Proof. intros Ht Hc. split; [exact Ht |]. intros x entry Hx. left. auto. Qed.

Lemma clearCache_from_inv st : sched_inv st ->
  exists st' new,
    clearCache st = Returned tt st' /\
    sched_inv st' /\ cache st' = ∅ /\ isRunning st' = false /\
    timers st' = ∅ /\ config st' = config st /\
    trace st' = trace st ++ new /\
    count is_clear_event new
      = (if disableEvents (config st) then 0 else 1)%nat.
Proof.
  intros Hinv.
  set (st0 := set_cache (fun _ => ∅) st).
  assert (sched_inv st0) as Hinv0 by exact Hinv.
  destruct (stop_from_inv st0 Hinv0)
    as (st1 & Hstop & Hinv1 & Hrun1 & Htimers1 & Hcache1 & Hconfig1
        & new1 & Htrace1 & Hcount1).
  assert (exists st2 new2,
            (if isRunning st0 then stopScheduledRefresh else ret tt) st0
            = Returned tt st2 /\
            sched_inv st2 /\ cache st2 = ∅ /\ isRunning st2 = false /\
            timers st2 = ∅ /\ config st2 = config st /\
            trace st2 = trace st ++ new2 /\ count is_clear_event new2 = 0%nat)
    as (st2 & new2 & Heq & Hinv2 & Hcache2 & Hrun2 & Htimers2 & Hconfig2
        & Htrace2 & Hcount2).
  { replace (isRunning st0) with (isRunning st) by reflexivity.
    destruct (isRunning st) eqn:Hr.
    - exists st1, new1. rewrite Hstop, Hcache1, Hconfig1.
      repeat (split; [assumption || reflexivity |]). exact Hcount1.
    - exists st0, []. unfold sched_inv in Hinv. rewrite Hr in Hinv.
      subst st0; cbn. rewrite app_nil_r.
      repeat (split; [assumption || reflexivity |]). reflexivity. }
  unfold clearCache, bind, modify, gets. fold st0.
  rewrite Heq.
  unfold unlessEventsDisabled, bind, gets, Date_now, emit, ret.
  rewrite Hconfig2.
  destruct (disableEvents (config st)).
  - exists st2, new2. repeat (split; [assumption || reflexivity |]).
    exact Hcount2.
  - eexists _, (new2 ++ [_]). split; [reflexivity |]. cbn.
    split; [exact Hinv2 |].
    repeat (split; [assumption |]).
    split; [rewrite Htrace2, app_assoc; reflexivity |].
    rewrite count_app, Hcount2. reflexivity.
Qed.

Lemma removeSecretMapping_returns userId st :
  exists st' new,
    removeSecretMapping userId st = Returned tt st' /\
    cache st' = delete userId (cache st) /\
    secretMappings (config st') = delete userId (secretMappings (config st)) /\
    isRunning st' = isRunning st /\
    refreshIntervalId st' = refreshIntervalId st /\
    timers st' = timers st /\
    trace st' = trace st ++ new.
Proof.
  unfold removeSecretMapping, unlessEventsDisabled, bind, modify, gets,
    Date_now, emit, ret. cbn.
  destruct (disableEvents (config st)).
  - eexists _, []. split; [reflexivity |]. cbn. rewrite app_nil_r.
    repeat (split; [reflexivity |]). reflexivity.
  - eexists _, [_]. split; [reflexivity |]. cbn.
    repeat (split; [reflexivity |]). reflexivity.
Qed.

Lemma addSecretMapping_unfold userId secretId st :
  addSecretMapping userId secretId st
  = fetchSecretWithRetry userId secretId 1%nat
      (set_secretMappings (object_set userId secretId) st).
Proof. reflexivity. Qed.

Lemma initialize_unfold st :
  initialize st
  = match fetchAllSecrets st with
    | Returned _ st' => startScheduledRefresh st'
    | Thrown e st' => Thrown e st'
    | OutOfFuel => OutOfFuel
    end.
Proof. reflexivity. Qed.

Lemma started_cache_effect st :
  exists new, cache_effect st (started st) new.
Proof.
  unfold started. destruct (disableEvents (config st));
    eexists; apply cache_effect_shrink; cbn;
    try (rewrite <- ?app_assoc; reflexivity); auto.
Qed.

Lemma halted_cache_effect st h :
  exists new, cache_effect st (halted h st) new.
Proof.
  unfold halted. destruct (disableEvents (config st));
    eexists; apply cache_effect_shrink; cbn;
    try (rewrite <- ?app_assoc; reflexivity); auto.
Qed.

(** Every operation ends, keeps the scheduler invariant and touches the
    cache only as [cache_effect] allows; an operation that does not fetch
    adds nothing to the cache. *)
Lemma run_step op st : sched_inv st ->
  exists st' new,
    outcome_state (run op st) = Some st' /\
    sched_inv st' /\ cache_effect st st' new /\
    (fetches op = false ->
     forall x entry, cache st' !! x = Some entry -> cache st !! x = Some entry).
Proof.
  intros Hinv.
  assert (forall st' new,
            trace st' = trace st ++ new ->
            (forall x entry, cache st' !! x = Some entry ->
               cache st !! x = Some entry) ->
            cache_effect st st' new /\
            (fetches op = false ->
             forall x entry, cache st' !! x = Some entry ->
               cache st !! x = Some entry)) as Hshrink.
  { intros st' new Ht Hc. split; [apply cache_effect_shrink; assumption | auto]. }
  destruct op as [name | | u | | | u sid | u | | |]; cbn [run].
  - (* on *)
    eexists _, []. split; [reflexivity |]. split; [exact Hinv |].
    apply Hshrink; cbn; [rewrite app_nil_r; reflexivity | auto].
  - (* initialize *)
    rewrite initialize_unfold.
    destruct (fetchAllSecrets_effect st) as (st1 & new1 & Hout & Heff & _).
    pose proof (sched_inv_fetch_effect _ _ _ Heff Hinv) as Hinv1.
    pose proof (cache_effect_of_fetch _ _ _ Heff) as Hc1.
    destruct (fetchAllSecrets st) as [[] s1 | e s1 |]; cbn in Hout;
      try discriminate; injection Hout as ->.
    + destruct (isRunning st1) eqn:Hr.
      * rewrite (start_when_running _ Hr). exists st1, new1.
        repeat (split; [assumption || reflexivity |]). discriminate.
      * rewrite (start_when_stopped _ Hr).
        destruct (started_cache_effect st1) as (new2 & Hc2).
        eexists _, _. split; [reflexivity |].
        split; [exact (sched_inv_started _ Hinv1 Hr) |].
        split; [exact (cache_effect_trans _ _ _ _ _ Hc1 Hc2) | discriminate].
    + exists st1, new1.
      repeat (split; [assumption || reflexivity |]). discriminate.
  - (* getSecret *)
    exists st, []. split; [reflexivity |]. split; [exact Hinv |].
    apply Hshrink; [rewrite app_nil_r; reflexivity | auto].
  - (* getAllSecrets *)
    exists st, []. split; [reflexivity |]. split; [exact Hinv |].
    apply Hshrink; [rewrite app_nil_r; reflexivity | auto].
  - (* stopScheduledRefresh *)
    destruct (stop_from_inv st Hinv)
      as (st' & Hstop & Hinv' & _ & _ & Hcache & _ & new & Htrace & _).
    exists st', new. rewrite Hstop. split; [reflexivity |].
    split; [exact Hinv' |].
    apply Hshrink; [exact Htrace | rewrite Hcache; auto].
  - (* addSecretMapping *)
    rewrite addSecretMapping_unfold.
    destruct (fetchSecretWithRetry_total u sid 1%nat
                (set_secretMappings (object_set u sid) st))
      as (st' & new & Hout & Heff & _).
    exists st', new. split; [exact Hout |].
    split; [exact (sched_inv_fetch_effect _ _ _ Heff Hinv) |].
    split; [exact (cache_effect_of_fetch _ _ _ Heff) | discriminate].
  - (* removeSecretMapping *)
    destruct (removeSecretMapping_returns u st)
      as (st' & new & Heq & Hcache & _ & Hr & Hid & Htimers & Htrace).
    exists st', new. rewrite Heq. split; [reflexivity |].
    split.
    { unfold sched_inv in *. rewrite Hr, Hid, Htimers. exact Hinv. }
    apply Hshrink; [exact Htrace |].
    intros x entry. rewrite Hcache. intros Hx.
    apply lookup_delete_Some in Hx. tauto.
  - (* clearCache *)
    destruct (clearCache_from_inv st Hinv)
      as (st' & new & Heq & Hinv' & Hcache & _ & _ & _ & Htrace & _).
    exists st', new. rewrite Heq. split; [reflexivity |].
    split; [exact Hinv' |].
    apply Hshrink; [exact Htrace |].
    intros x entry. rewrite Hcache, lookup_empty. discriminate.
  - (* getCacheStats *)
    exists st, []. split; [reflexivity |]. split; [exact Hinv |].
    apply Hshrink; [rewrite app_nil_r; reflexivity | auto].
  - (* the timer fires *)
    destruct (scheduledRefresh_effect st) as (st' & new & Hout & Heff & _).
    exists st', new. split; [exact Hout |].
    split; [exact (sched_inv_fetch_effect _ _ _ Heff Hinv) |].
    split; [exact (cache_effect_of_fetch _ _ _ Heff) | discriminate].
Qed.

Lemma cache_inv_effect st st' (new : list Action) :
  cache_effect st st' new -> cache_inv st -> cache_inv st'.
Proof.
  intros (Ht & Hc) Hinv x entry Hx. rewrite Ht.
  destruct (Hc x entry Hx) as [Hold | Hnew].
  - apply fetched_app_l. exact (Hinv x entry Hold).
  - apply fetched_app_r. exact Hnew.
Qed.

Lemma sched_inv_new cfg src t0 : sched_inv (new_cache cfg src t0).
Proof. reflexivity. Qed.

Lemma cache_inv_new cfg src t0 : cache_inv (new_cache cfg src t0).
Proof. intros x entry Hx. cbn in Hx. rewrite lookup_empty in Hx. discriminate. Qed.

Lemma reachable_inv st : reachable st -> sched_inv st /\ cache_inv st.
Proof.
  induction 1 as [cfg src t0 _ | st op st' Hreach [IHs IHc] Hout].
  - split; [apply sched_inv_new | apply cache_inv_new].
  - destruct (run_step op st IHs) as (st'' & new & Hout' & Hs & Hc & _).
    rewrite Hout in Hout'. injection Hout' as <-.
    split; [exact Hs | exact (cache_inv_effect _ _ _ Hc IHc)].
Qed.

Lemma count_calls_attempts (tr : list Action) :
  count is_call tr = length (attempts_of tr).
Proof.
  induction tr as [| a tr IH]; [reflexivity |].
  destruct a; cbn; rewrite IH; reflexivity.
Qed.

(** ** A fetch whose first answer decodes *)

Lemma fetch_first_answer_decodes userId secretId attempt st v :
  attempt_result secretId (source st (calls st) secretId) = inr v ->
  fetchSecretWithRetry userId secretId attempt st
  = Returned tt (store userId v (after_call userId secretId attempt st)).
Proof. intros Hr. unfold fetchSecretWithRetry. apply fetch_step_succeeds, Hr. Qed.

(** A failing answer, while retries are left: the method goes on with
    the next attempt, from [before_retry]. *)
Lemma fetch_failure_retries userId secretId attempt st error :
  attempt_result secretId (source st (calls st) secretId) = inl error ->
  (attempt <= maxRetries (config st))%nat ->
  fetchSecretWithRetry userId secretId attempt st
  = fetchSecretWithRetry userId secretId (attempt + 1)
      (before_retry userId attempt error
         (after_call userId secretId attempt st)).
Proof.
  intros Hr Hle. unfold fetchSecretWithRetry.
  rewrite (fetch_step_fails _ _ _ _ _ _ Hr), catch_retries by exact Hle.
  cbn [config before_retry after_call record set_clock set_calls].
  replace (S (maxRetries (config st)) - attempt)%nat
    with (S (S (maxRetries (config st)) - (attempt + 1)))%nat by lia.
  reflexivity.
Qed.

(** A failing answer on the last attempt. *)
Lemma fetch_failure_reports userId secretId attempt st error :
  attempt_result secretId (source st (calls st) secretId) = inl error ->
  (maxRetries (config st) < attempt)%nat ->
  fetchSecretWithRetry userId secretId attempt st
  = report_failure userId error (after_call userId secretId attempt st).
Proof.
  intros Hr Hlt. unfold fetchSecretWithRetry.
  rewrite (fetch_step_fails _ _ _ _ _ _ Hr). apply catch_reports. exact Hlt.
Qed.

Lemma store_spec userId secretId attempt st v :
  let st' := store userId v (after_call userId secretId attempt st) in
  config st' = config st /\
  listeners st' = listeners st /\
  source st' = source st /\
  calls st' = S (calls st) /\
  cache st'
    = (if changed (cache st !! userId) v
       then <[userId := {| value := v; fetchedAt := clock st |}]> (cache st)
       else cache st) /\
  trace st'
    = trace st
      ++ ACall userId secretId attempt (source st (calls st) secretId)
           :: (if changed (cache st !! userId) v
               then (if disableEvents (config st) then []
                     else [AEmit (UpdateEvent userId v (clock st))])
                    ++ [ALog Info (UpdatedCache userId)]
               else []).
Proof.
  unfold store, after_call. cbn.
  destruct (changed (cache st !! userId) v);
    [destruct (disableEvents (config st)) |]; cbn;
    repeat (split; [reflexivity |]);
    rewrite <- ?app_assoc; reflexivity.
Qed.

Lemma unchanged_serialization (current : option CacheEntry) (v : JsValue) :
  changed current v = false ->
  exists entry, current = Some entry /\
    JSON_stringify (value entry) = JSON_stringify v.
Proof.
  destruct current as [entry |]; cbn; [| discriminate].
  intros Hb. exists entry. split; [reflexivity |].
  apply bool_decide_eq_false in Hb.
  destruct (decide (JSON_stringify (value entry) = JSON_stringify v));
    [assumption | contradiction].
Qed.

Lemma secretValueOf_text response text :
  textPayload response = Some text ->
  secretValueOf response
  = match JSON_parse text with
    | Some v => inr v
    | None => inl (SyntaxError text)
    end.
Proof.
  unfold textPayload, secretValueOf.
  destruct (SecretString response) as [[| c s] |]; try discriminate.
  intros [= <-]. reflexivity.
Qed.

(** An empty [SecretString] is falsy: line 61 does not parse it, the
    response is read as one without a text payload. *)
Lemma empty_text_is_no_text_payload (binary : option (list byte)) :
  textPayload {| SecretString := Some EmptyString; SecretBinary := binary |}
    = None /\
  secretValueOf {| SecretString := Some EmptyString; SecretBinary := binary |}
    = secretValueOf {| SecretString := None; SecretBinary := binary |}.
Proof. split; reflexivity. Qed.

Lemma secretValueOf_no_text response :
  textPayload response = None ->
  secretValueOf response
  = match SecretBinary response with
    | Some bytes => inr (JsString (Buffer_toString_utf8 bytes))
    | None => inr (JsString EmptyString)
    end.
Proof.
  unfold textPayload, secretValueOf.
  destruct (SecretString response) as [[| c s] |]; try discriminate;
    reflexivity.
Qed.

(** A fetch whose first [j] answers fail and whose next answer decodes to
    [v]: it reaches lines 66-75 with [v] at attempt [attempt + j], in a
    state [st_j] whose cache is still the one of [st]. *)
Lemma retries_then_decodes (j : nat) : forall fuel userId secretId attempt st v,
  (attempt + j <= S (maxRetries (config st)))%nat ->
  (S (maxRetries (config st)) - attempt < fuel)%nat ->
  (forall i, (i < j)%nat ->
     attempt_fails secretId (source st (calls st + i)%nat secretId) = true) ->
  attempt_result secretId (source st (calls st + j)%nat secretId) = inr v ->
  exists st_j new,
    fetchSecretWithRetry_fuel fuel userId secretId attempt st
      = Returned tt
          (store userId v (after_call userId secretId (attempt + j) st_j)) /\
    cache st_j = cache st /\ config st_j = config st /\
    source st_j = source st /\ calls st_j = (calls st + j)%nat /\
    trace st_j = trace st ++ new /\
    count is_update_event new = 0%nat /\
    attempts_of new = seq attempt j.
Proof.
  induction j as [| j IH]; intros fuel userId secretId attempt st v Hle Hfuel
    Hfail Hr.
  - destruct fuel as [| fuel]; [lia |].
    rewrite Nat.add_0_r in Hr. exists st, [].
    rewrite (fetch_step_succeeds _ _ _ _ _ _ Hr), !Nat.add_0_r, app_nil_r.
    repeat (split; [reflexivity |]). reflexivity.
  - destruct fuel as [| fuel]; [lia |].
    pose proof (Hfail 0%nat ltac:(lia)) as H0. rewrite Nat.add_0_r in H0.
    unfold attempt_fails in H0.
    destruct (attempt_result secretId (source st (calls st) secretId))
      as [error | v0] eqn:Hr0; [clear H0 | discriminate].
    rewrite (fetch_step_fails _ _ _ _ _ _ Hr0), catch_retries by (cbn; lia).
    destruct (IH fuel userId secretId (attempt + 1)%nat
                (before_retry userId attempt error
                   (after_call userId secretId attempt st)) v)
      as (st_j & new & Hrun & Hcache & Hconfig & Hsource & Hcalls & Htrace
          & Hcount & Hatt).
    { cbn. lia. }
    { cbn. lia. }
    { intros i Hi. cbn.
      pose proof (Hfail (S i) ltac:(lia)) as HSi.
      replace (calls st + S i)%nat with (S (calls st + i)) in HSi by lia.
      exact HSi. }
    { cbn. replace (S (calls st + j)) with (calls st + S j)%nat by lia.
      exact Hr. }
    cbn in Hcache, Hconfig, Hsource, Hcalls, Htrace.
    exists st_j. eexists (_ :: _ :: _ :: new).
    replace (attempt + S j)%nat with (attempt + 1 + j)%nat by lia.
    split; [exact Hrun |]. split; [exact Hcache |]. split; [exact Hconfig |].
    split; [exact Hsource |]. split; [rewrite Hcalls; lia |].
    split; [rewrite Htrace, <- !app_assoc; reflexivity |].
    split; [cbn; exact Hcount |].
    cbn. rewrite Hatt, Nat.add_1_r. reflexivity.
Qed.

(** ** The fan-out against a source that answers steadily *)

Lemma Promise_all_cons (p : M unit) (rest : list (M unit)) st st1 :
  p st = Returned tt st1 ->
  Promise_all (p :: rest) st = Promise_all rest st1.
Proof. intros Hp. cbn. rewrite Hp. reflexivity. Qed.

Section Steady.
Variable payload : string -> GetSecretValueCommandOutput.
Variable decoded : string -> JsValue.

Lemma steady_tail entry entries st st1 :
  steady_on payload decoded (entry :: entries) st -> source st1 = source st ->
  steady_on payload decoded entries st1.
Proof.
  intros Hst Hsrc alias id Hin. rewrite Hsrc.
  apply (Hst alias id). right. exact Hin.
Qed.

(** First round: none of the aliases is in the cache. *)
Lemma fanout_fresh (entries : list (string * string)) : forall st,
  NoDup entries.*1 ->
  steady_on payload decoded entries st ->
  (forall alias, alias ∈ entries.*1 -> cache st !! alias = None) ->
  exists st' new,
    Promise_all
      (map (fun entry => fetchSecretWithRetry entry.1 entry.2 1%nat) entries)
      st = Returned tt st' /\
    config st' = config st /\ source st' = source st /\
    trace st' = trace st ++ new /\
    (forall alias, alias ∉ entries.*1 ->
       cache st' !! alias = cache st !! alias) /\
    (forall alias id, (alias, id) ∈ entries ->
       exists entry, cache st' !! alias = Some entry /\
                     value entry = decoded id) /\
    (forall alias, alias ∈ entries.*1 ->
       count (is_update_for alias) new
       = (if disableEvents (config st) then 0 else 1)%nat) /\
    (forall alias, alias ∉ entries.*1 ->
       count (is_update_for alias) new = 0%nat).
Proof.
  induction entries as [| [u id] entries IH]; intros st Hnodup Hsteady Hfresh.
  { exists st, []. cbn. rewrite app_nil_r.
    repeat (split; [reflexivity |]).
    split; [intros alias id' Hin; inversion Hin |].
    split; [intros alias Hin; inversion Hin | reflexivity]. }
  cbn [fmap list_fmap fst] in Hnodup, Hfresh.
  apply NoDup_cons in Hnodup as [Hu Hnodup].
  destruct (Hsteady u id ltac:(left)) as [Hdec Hsrc].
  assert (attempt_result id (source st (calls st) id) = inr (decoded id))
    as Hr by (rewrite Hsrc; exact Hdec).
  pose proof (fetch_first_answer_decodes u id 1%nat st _ Hr) as Hrun.
  destruct (store_spec u id 1%nat st (decoded id))
    as (Hconfig1 & _ & Hsource1 & _ & Hcache1 & Htrace1).
  set (st1 := store u (decoded id) (after_call u id 1%nat st)) in *.
  rewrite (Hfresh u ltac:(left)) in Hcache1, Htrace1. cbn in Hcache1, Htrace1.
  destruct (IH st1 Hnodup (steady_tail _ _ _ _ Hsteady Hsource1))
    as (st' & new & Hall & Hconfig & Hsource & Htrace & Hother & Hin
        & Hone & Hnone).
  { intros alias Halias. rewrite Hcache1, lookup_insert_ne.
    - apply Hfresh. right. exact Halias.
    - intros ->. contradiction. }
  exists st'. eexists.
  cbn [map]. rewrite (Promise_all_cons _ _ _ _ Hrun).
  split; [exact Hall |].
  split; [rewrite Hconfig; exact Hconfig1 |].
  split; [rewrite Hsource; exact Hsource1 |].
  split. { rewrite Htrace, Htrace1, <- app_assoc. reflexivity. }
  rewrite Hconfig1 in Hone.
  split; [| split; [| split]].
  - intros alias Halias. cbn in Halias.
    apply not_elem_of_cons in Halias as [Hne Halias].
    rewrite (Hother alias Halias), Hcache1, lookup_insert_ne by congruence.
    reflexivity.
  - intros alias id' Hin'. apply elem_of_cons in Hin' as [[= -> ->] | Hin'].
    + rewrite (Hother u Hu), Hcache1, lookup_insert_eq. eauto.
    + exact (Hin alias id' Hin').
  - intros alias Halias. cbn in Halias. rewrite count_app.
    apply elem_of_cons in Halias as [-> | Halias].
    + rewrite (Hnone u Hu).
      destruct (disableEvents (config st)); cbn;
        rewrite ?bool_decide_eq_true_2 by reflexivity; reflexivity.
    + rewrite (Hone alias Halias).
      assert (u <> alias) as Hne by (intros ->; contradiction).
      destruct (disableEvents (config st)); cbn;
        rewrite ?bool_decide_eq_false_2 by exact Hne; reflexivity.
  - intros alias Halias. cbn in Halias.
    apply not_elem_of_cons in Halias as [Hne Halias].
    rewrite count_app, (Hnone alias Halias).
    destruct (disableEvents (config st)); cbn;
      rewrite ?bool_decide_eq_false_2 by congruence; reflexivity.
Qed.

(** Later rounds: the cache holds, for each alias, a value with the
    serialization of the answer. *)
Lemma fanout_unchanged (entries : list (string * string)) : forall st,
  steady_on payload decoded entries st ->
  (forall alias id, (alias, id) ∈ entries ->
     exists entry, cache st !! alias = Some entry /\
       JSON_stringify (value entry) = JSON_stringify (decoded id)) ->
  exists st' new,
    Promise_all
      (map (fun entry => fetchSecretWithRetry entry.1 entry.2 1%nat) entries)
      st = Returned tt st' /\
    config st' = config st /\ cache st' = cache st /\
    trace st' = trace st ++ new /\
    count is_update_event new = 0%nat.
Proof.
  induction entries as [| [u id] entries IH]; intros st Hsteady Hcached.
  { exists st, []. cbn. rewrite app_nil_r. auto. }
  destruct (Hsteady u id ltac:(left)) as [Hdec Hsrc].
  assert (attempt_result id (source st (calls st) id) = inr (decoded id))
    as Hr by (rewrite Hsrc; exact Hdec).
  pose proof (fetch_first_answer_decodes u id 1%nat st _ Hr) as Hrun.
  destruct (store_spec u id 1%nat st (decoded id))
    as (Hconfig1 & _ & Hsource1 & _ & Hcache1 & Htrace1).
  set (st1 := store u (decoded id) (after_call u id 1%nat st)) in *.
  destruct (Hcached u id ltac:(left)) as (entry & Hentry & Hser).
  assert (changed (cache st !! u) (decoded id) = false) as Hch.
  { rewrite Hentry. cbn. apply bool_decide_eq_false_2. auto. }
  rewrite Hch in Hcache1, Htrace1.
  destruct (IH st1 (steady_tail _ _ _ _ Hsteady Hsource1))
    as (st' & new & Hall & Hconfig & Hcache & Htrace & Hcount).
  { intros alias id' Hin. rewrite Hcache1. apply Hcached. right. exact Hin. }
  exists st'. eexists.
  cbn [map]. rewrite (Promise_all_cons _ _ _ _ Hrun).
  split; [exact Hall |].
  split; [rewrite Hconfig; exact Hconfig1 |].
  split; [rewrite Hcache; exact Hcache1 |].
  split. { rewrite Htrace, Htrace1, <- app_assoc. reflexivity. }
  rewrite count_app, Hcount. reflexivity.
Qed.

End Steady.

(** ** Any fetch, counted *)

Lemma count_update_error_le_emit (tr : list Action) :
  (count is_update_event tr + count is_error_event tr <= count is_emit tr)%nat.
Proof.
  induction tr as [| a tr IH]; [reflexivity |].
  destruct a as [| | [] | | |]; cbn; lia.
Qed.

(** Whatever the source answers, a fetch entered at [attempt] makes its
    calls at the attempts [attempt, attempt + 1, ..], suspends before each
    retry for the delay of line 78, sends at most one notification and
    leaves the other aliases alone. *)
Lemma fetch_counted fuel : forall userId secretId attempt st,
  (S (maxRetries (config st)) - attempt < fuel)%nat ->
  exists st' new retries,
    outcome_state (fetchSecretWithRetry_fuel fuel userId secretId attempt st)
      = Some st' /\
    config st' = config st /\ listeners st' = listeners st /\
    trace st' = trace st ++ new /\
    (retries <= S (maxRetries (config st)) - attempt)%nat /\
    attempts_of new = seq attempt (S retries) /\
    sleeps_of new
      = map (fun k => (retryDelay (config st) * Math_pow2 (Z.of_nat k - 1))%float)
          (seq attempt retries) /\
    (count is_emit new <= 1)%nat /\
    (disableEvents (config st) = true -> count is_emit new = 0%nat) /\
    (forall x, x <> userId -> cache st' !! x = cache st !! x) /\
    (exists r rest, new = ACall userId secretId attempt r :: rest).
Proof.
  induction fuel as [| fuel IH]; intros userId secretId attempt st Hfuel.
  { lia. }
  destruct (attempt_result secretId (source st (calls st) secretId))
    as [error | v] eqn:Hr.
  - rewrite (fetch_step_fails _ _ _ _ _ _ Hr).
    destruct (le_gt_dec attempt (maxRetries (config st))) as [Hretry | Hlast].
    + rewrite catch_retries by exact Hretry.
      destruct (IH userId secretId (attempt + 1)%nat
                  (before_retry userId attempt error
                     (after_call userId secretId attempt st)))
        as (st' & new & retries & Hout & Hconfig & Hlisten & Htrace & Hle
            & Hatt & Hsl & Hemit & Hsilent & Hframe & _).
      { cbn. lia. }
      cbn in Hconfig, Hlisten, Htrace, Hle, Hsl, Hsilent, Hframe.
      exists st'.
      eexists (ACall userId secretId attempt _ :: ALog Warn _ :: ASleep _
                 :: new), (S retries).
      split; [exact Hout |]. split; [exact Hconfig |].
      split; [exact Hlisten |].
      split; [rewrite Htrace, <- !app_assoc; reflexivity |].
      split; [lia |].
      split; [cbn; rewrite Hatt, Nat.add_1_r; reflexivity |].
      split; [cbn; rewrite Hsl, Nat.add_1_r; reflexivity |].
      split; [exact Hemit |]. split; [exact Hsilent |].
      split; [exact Hframe | eauto].
    + rewrite catch_reports by (cbn; lia). unfold report_failure. cbn.
      destruct (disableEvents (config st)) eqn:Hd;
        [| destruct (bool_decide (EvError ∈ listeners st))];
        eexists _, _, 0%nat; cbn;
        (split; [reflexivity |]); (split; [reflexivity |]);
        (split; [reflexivity |]);
        (split; [cbn; rewrite <- ?app_assoc; reflexivity |]);
        (split; [lia |]); (split; [reflexivity |]);
        (split; [reflexivity |]); (split; [cbn; lia |]);
        (split; [intros; reflexivity || discriminate |]);
        (split; [reflexivity | eauto]).
  - rewrite (fetch_step_succeeds _ _ _ _ _ _ Hr).
    destruct (store_spec userId secretId attempt st v)
      as (Hconfig & Hlisten & _ & _ & Hcache & Htrace).
    eexists _, _, 0%nat. split; [reflexivity |].
    split; [exact Hconfig |]. split; [exact Hlisten |].
    split; [exact Htrace |]. split; [lia |].
    assert (forall x, x <> userId ->
              (if changed (cache st !! userId) v
               then <[userId := {| value := v; fetchedAt := clock st |}]>
                      (cache st)
               else cache st) !! x = cache st !! x) as Hframe.
    { intros x Hx. destruct (changed _ _); [| reflexivity].
      apply lookup_insert_ne. congruence. }
    rewrite Hcache.
    destruct (changed (cache st !! userId) v);
      [destruct (disableEvents (config st)) |]; cbn;
      (split; [reflexivity |]); (split; [reflexivity |]);
      (split; [lia |]);
      (split; [intros; reflexivity || discriminate |]);
      (split; [exact Hframe | eauto]).
Qed.

Lemma fetchSecretWithRetry_counted userId secretId st :
  exists st' new retries,
    outcome_state (fetchSecretWithRetry userId secretId 1%nat st) = Some st' /\
    config st' = config st /\ listeners st' = listeners st /\
    trace st' = trace st ++ new /\
    (retries <= maxRetries (config st))%nat /\
    attempts_of new = seq 1 (S retries) /\
    sleeps_of new
      = map (fun k => (retryDelay (config st) * Math_pow2 (Z.of_nat k - 1))%float)
          (seq 1 retries) /\
    (count is_emit new <= 1)%nat /\
    (disableEvents (config st) = true -> count is_emit new = 0%nat) /\
    (forall x, x <> userId -> cache st' !! x = cache st !! x) /\
    (exists r rest, new = ACall userId secretId 1%nat r :: rest).
Proof.
  destruct (fetch_counted (S (S (maxRetries (config st)) - 1)) userId secretId
              1%nat st ltac:(lia))
    as (st' & new & retries & Hout & Hrest).
  exists st', new, retries. split; [exact Hout |].
  replace (S (maxRetries (config st)) - 1)%nat with (maxRetries (config st))
    in Hrest by lia.
  exact Hrest.
Qed.

(** ** Retries that end well *)

Lemma recovering_run (j : nat) : forall fuel userId secretId attempt st v,
  (attempt + j <= S (maxRetries (config st)))%nat ->
  (S (maxRetries (config st)) - attempt < fuel)%nat ->
  (forall i, (i < j)%nat ->
     attempt_fails secretId (source st (calls st + i)%nat secretId) = true) ->
  attempt_result secretId (source st (calls st + j)%nat secretId) = inr v ->
  exists st_j new,
    fetchSecretWithRetry_fuel fuel userId secretId attempt st
      = Returned tt
          (store userId v (after_call userId secretId (attempt + j) st_j)) /\
    cache st_j = cache st /\ config st_j = config st /\
    trace st_j = trace st ++ new /\
    count is_emit new = 0%nat /\
    count is_call new = j /\
    sleeps_of new
      = map (fun k => (retryDelay (config st) * Math_pow2 (Z.of_nat k - 1))%float)
          (seq attempt j).
Proof.
  induction j as [| j IH]; intros fuel userId secretId attempt st v Hle Hfuel
    Hfail Hr.
  - destruct fuel as [| fuel]; [lia |].
    rewrite Nat.add_0_r in Hr. exists st, [].
    rewrite (fetch_step_succeeds _ _ _ _ _ _ Hr), !Nat.add_0_r, app_nil_r.
    repeat (split; [reflexivity |]). reflexivity.
  - destruct fuel as [| fuel]; [lia |].
    pose proof (Hfail 0%nat ltac:(lia)) as H0. rewrite Nat.add_0_r in H0.
    unfold attempt_fails in H0.
    destruct (attempt_result secretId (source st (calls st) secretId))
      as [error | v0] eqn:Hr0; [clear H0 | discriminate].
    rewrite (fetch_step_fails _ _ _ _ _ _ Hr0), catch_retries by (cbn; lia).
    destruct (IH fuel userId secretId (attempt + 1)%nat
                (before_retry userId attempt error
                   (after_call userId secretId attempt st)) v)
      as (st_j & new & Hrun & Hcache & Hconfig & Htrace & Hemit & Hcalls
          & Hsl).
    { cbn. lia. }
    { cbn. lia. }
    { intros i Hi. cbn.
      pose proof (Hfail (S i) ltac:(lia)) as HSi.
      replace (calls st + S i)%nat with (S (calls st + i)) in HSi by lia.
      exact HSi. }
    { cbn. replace (S (calls st + j)) with (calls st + S j)%nat by lia.
      exact Hr. }
    cbn in Hcache, Hconfig, Htrace, Hsl.
    exists st_j. eexists (_ :: _ :: _ :: new).
    replace (attempt + S j)%nat with (attempt + 1 + j)%nat by lia.
    split; [exact Hrun |]. split; [exact Hcache |]. split; [exact Hconfig |].
    split; [rewrite Htrace, <- !app_assoc; reflexivity |].
    split; [cbn; exact Hemit |].
    split; [cbn; rewrite Hcalls; reflexivity |].
    cbn. rewrite Hsl, Nat.add_1_r. reflexivity.
Qed.

(** ** What the timers arm *)

(** A delay of whole milliseconds between [1] and [TIMEOUT_MAX] is armed
    as it is. *)
Lemma armed_exact (delay : float) :
  PrimFloat.leb 1 delay = true ->
  PrimFloat.leb delay TIMEOUT_MAX = true ->
  Math_trunc delay = delay ->
  armed delay = delay.
Proof.
  intros Hlow Hhigh Hwhole. unfold armed. rewrite Hlow, Hhigh. exact Hwhole.
Qed.

(** ** Assignment to a plain object *)

Lemma object_set_other key v (obj : gmap string string) :
  key <> "__proto__"%string -> object_set key v obj = <[key := v]> obj.
Proof.
  intros Hkey. unfold object_set.
  rewrite bool_decide_eq_false_2 by exact Hkey. reflexivity.
Qed.

Lemma object_set_proto v (obj : gmap string string) :
  object_set "__proto__" v obj = obj.
Proof.
  unfold object_set. rewrite bool_decide_eq_true_2 by reflexivity.
  reflexivity.
Qed.

Lemma delete_object_set key v (obj : gmap string string) :
  delete key (object_set key v obj) = delete key obj.
Proof.
  unfold object_set. destruct (bool_decide (key = "__proto__"%string));
    [reflexivity | apply delete_insert_eq].
Qed.

(** ** The calls of a fetch are its own *)

Lemma targets_of_app (tr1 tr2 : list Action) :
  targets_of (tr1 ++ tr2) = targets_of tr1 ++ targets_of tr2.
Proof.
  induction tr1 as [| a tr1 IH]; [reflexivity |].
  destruct a; cbn; rewrite IH; reflexivity.
Qed.

Lemma fetch_targets fuel : forall userId secretId attempt st,
  (S (maxRetries (config st)) - attempt < fuel)%nat ->
  exists st' new,
    outcome_state (fetchSecretWithRetry_fuel fuel userId secretId attempt st)
      = Some st' /\
    trace st' = trace st ++ new /\
    Forall (fun target => target = (userId, secretId)) (targets_of new).
Proof.
  induction fuel as [| fuel IH]; intros userId secretId attempt st Hfuel.
  { lia. }
  destruct (attempt_result secretId (source st (calls st) secretId))
    as [error | v] eqn:Hr.
  - rewrite (fetch_step_fails _ _ _ _ _ _ Hr).
    destruct (le_gt_dec attempt (maxRetries (config st))) as [Hretry | Hlast].
    + rewrite catch_retries by exact Hretry.
      destruct (IH userId secretId (attempt + 1)%nat
                  (before_retry userId attempt error
                     (after_call userId secretId attempt st)))
        as (st' & new & Hout & Htrace & Htargets).
      { cbn. lia. }
      cbn in Htrace.
      exists st'.
      eexists (ACall userId secretId attempt _ :: ALog Warn _ :: ASleep _
                 :: new).
      split; [exact Hout |].
      split; [rewrite Htrace, <- !app_assoc; reflexivity |].
      cbn. apply Forall_cons. split; [reflexivity | exact Htargets].
    + rewrite catch_reports by (cbn; lia). unfold report_failure. cbn.
      destruct (disableEvents (config st));
        [| destruct (bool_decide (EvError ∈ listeners st))];
        eexists _, _; cbn;
        (split; [reflexivity |]);
        (split; [cbn; rewrite <- ?app_assoc; reflexivity |]);
        cbn; apply Forall_cons; (split; [reflexivity | apply Forall_nil_2]).
  - rewrite (fetch_step_succeeds _ _ _ _ _ _ Hr).
    destruct (store_spec userId secretId attempt st v)
      as (_ & _ & _ & _ & _ & Htrace).
    eexists _, _. split; [reflexivity |]. split; [exact Htrace |].
    destruct (changed (cache st !! userId) v);
      [destruct (disableEvents (config st)) |]; cbn;
      apply Forall_cons; (split; [reflexivity | apply Forall_nil_2]).
Qed.

(** ** A fetch that recovers *)

(** The first [j] answers fail and the next one decodes to [v]. *)
Lemma fetch_recovers st userId secretId (j : nat) v :
  (j <= maxRetries (config st))%nat ->
  (forall i, (i < j)%nat ->
     attempt_fails secretId (source st (calls st + i)%nat secretId) = true) ->
  attempt_result secretId (source st (calls st + j)%nat secretId) = inr v ->
  exists st' v',
    fetchSecretWithRetry userId secretId 1%nat st = Returned tt st' /\
    count is_call (actions_since st st') = (j + 1)%nat /\
    sleeps_of (actions_since st st')
      = map (fun k => (retryDelay (config st) * Math_pow2 (Z.of_nat k - 1))%float)
          (seq 1 j) /\
    count is_error_event (actions_since st st') = 0%nat /\
    getSecret userId st' = Some v' /\
    JSON_stringify v' = JSON_stringify v /\
    (changed (cache st !! userId) v = true -> v' = v).
Proof.
  intros Hj Hfail Hr.
  destruct (recovering_run j (S (S (maxRetries (config st)) - 1)) userId
              secretId 1%nat st v)
    as (st_j & new & Hrun & Hcache_j & Hconfig_j & Htrace_j & Hemit & Hcalls
        & Hsl); [lia | lia | exact Hfail | exact Hr |].
  destruct (store_spec userId secretId (1 + j)%nat st_j v)
    as (_ & _ & _ & _ & Hcache & Htrace).
  rewrite Hcache_j in Hcache, Htrace. rewrite Hconfig_j in Htrace.
  pose proof (count_update_error_le_emit new) as Hnone.
  assert (exists v', (value <$> (if changed (cache st !! userId) v
            then <[userId := {| value := v; fetchedAt := clock st_j |}]>
                   (cache st)
            else cache st) !! userId) = Some v' /\
            JSON_stringify v' = JSON_stringify v /\
            (changed (cache st !! userId) v = true -> v' = v))
    as (v' & Hget & Hser & Hnew).
  { destruct (changed (cache st !! userId) v) eqn:Hch.
    - exists v. rewrite lookup_insert_eq. auto.
    - destruct (unchanged_serialization _ _ Hch) as (entry & Hentry & Hser).
      exists (value entry). rewrite Hentry. cbn.
      split; [reflexivity |]. split; [exact Hser | discriminate]. }
  eexists _, v'. split; [exact Hrun |].
  erewrite actions_since_app
    by (rewrite Htrace, Htrace_j, <- app_assoc; reflexivity).
  unfold getSecret. rewrite Hcache.
  rewrite !count_app, sleeps_of_app, Hcalls, Hsl.
  split; [| split; [| split; [| split; [exact Hget | auto]]]];
    destruct (changed _ _); [destruct (disableEvents _) | |
                             destruct (disableEvents _) | |
                             destruct (disableEvents _) |]; cbn;
    rewrite ?app_nil_r; lia || reflexivity.
Qed.

(** * The properties of the specification *)

(** C1, as the code has it.  A fetch whose answers all fail makes exactly
    [maxRetries + 1] attempts, numbered [1 .. maxRetries + 1] (one attempt
    when [maxRetries = 0]); it emits exactly one error notification when
    events are enabled and none when [disableEvents] is set.  For every
    [k] from [2] to [maxRetries + 1], the action right before attempt [k]
    is the suspension, for which [setTimeout] is given the double
    [retryDelay * Math.pow(2, k - 2)]; the suspension lasts what Node arms
    for that delay, which is the delay itself when it is a whole number
    of milliseconds between [1] and [TIMEOUT_MAX]. *)
Theorem C1_retry_bound_and_backoff st userId secretId :
  exhausts secretId st ->
  exists st',
    outcome_state (fetchSecretWithRetry userId secretId 1%nat st) = Some st' /\
    attempts_of (actions_since st st') = seq 1 (maxRetries (config st) + 1) /\
    count is_call (actions_since st st')
      = (maxRetries (config st) + 1)%nat /\
    count is_error_event (actions_since st st')
      = (if disableEvents (config st) then 0 else 1)%nat /\
    sleeps_of (actions_since st st')
      = map (fun k => (retryDelay (config st) * Math_pow2 (Z.of_nat k - 2))%float)
          (seq 2 (maxRetries (config st))) /\
    (forall k, (2 <= k <= maxRetries (config st) + 1)%nat ->
       let delay :=
         (retryDelay (config st) * Math_pow2 (Z.of_nat k - 2))%float in
       (exists pre r post,
          actions_since st st'
          = pre ++ ASleep delay :: ACall userId secretId k r :: post) /\
       suspensions_of (actions_since st st') !! (k - 2)%nat
         = Some (armed delay) /\
       (PrimFloat.leb 1 delay = true ->
        PrimFloat.leb delay TIMEOUT_MAX = true ->
        Math_trunc delay = delay ->
        suspensions_of (actions_since st st') !! (k - 2)%nat = Some delay)).
Proof.
  intros Hex.
  destruct (exhausting_run (S (S (maxRetries (config st)) - 1)) userId
              secretId 1%nat st)
    as (st' & new & Hout & _ & _ & Htrace & Hatt & Hsl & Herr & _ & Hadj & _).
  { lia. }
  { lia. }
  { intros i Hi. apply Hex. lia. }
  exists st'. rewrite (actions_since_app _ _ _ Htrace).
  split; [exact Hout |].
  assert (attempts_of new = seq 1 (maxRetries (config st) + 1)) as Hatt'.
  { rewrite Hatt. f_equal. lia. }
  split; [exact Hatt' |].
  split. { rewrite count_calls_attempts, Hatt', length_seq. reflexivity. }
  split; [exact Herr |].
  assert (sleeps_of new
          = (fun k => (retryDelay (config st)
                       * Math_pow2 (Z.of_nat k - 2))%float)
              <$> seq 2 (maxRetries (config st))) as Hsl'.
  { rewrite Hsl.
    replace (S (maxRetries (config st)) - 1)%nat
      with (maxRetries (config st)) by lia.
    rewrite <- (fmap_S_seq 1). change (map ?f ?l) with (f <$> l).
    rewrite <- list_fmap_compose. apply list_fmap_ext.
    intros _ k _. cbn. f_equal. f_equal. lia. }
  split; [exact Hsl' |].
  intros k Hk delay.
  assert (suspensions_of new !! (k - 2)%nat = Some (armed delay)) as Harmed.
  { unfold suspensions_of. rewrite Hsl', !list_lookup_fmap.
    rewrite lookup_seq_lt by lia. cbn.
    replace (S (S (k - 2))) with k by lia. reflexivity. }
  split; [apply Hadj; lia |].
  split; [exact Harmed |].
  intros Hlow Hhigh Hwhole. rewrite Harmed.
  f_equal. exact (armed_exact _ Hlow Hhigh Hwhole).
Qed.

(** C4.  A fetch that exhausts its retries leaves the cache exactly as it
    was: [getSecret] answers what it answered before, for the alias (its
    stale value, or nothing) and for every other alias. *)
Theorem C4_exhausted_fetch_keeps_cache st userId secretId :
  exhausts secretId st ->
  exists st',
    outcome_state (fetchSecretWithRetry userId secretId 1%nat st) = Some st' /\
    cache st' = cache st /\
    (forall entry, cache st !! userId = Some entry ->
       getSecret userId st' = Some (value entry)) /\
    (cache st !! userId = None -> getSecret userId st' = None) /\
    (forall x, getSecret x st' = getSecret x st).
Proof.
  intros Hex.
  destruct (exhausting_run (S (S (maxRetries (config st)) - 1)) userId
              secretId 1%nat st)
    as (st' & new & Hout & Hcache & _).
  { lia. }
  { lia. }
  { intros i Hi. apply Hex. lia. }
  exists st'. split; [exact Hout |]. split; [exact Hcache |].
  unfold getSecret. rewrite Hcache.
  split; [intros entry ->; reflexivity |].
  split; [intros ->; reflexivity | reflexivity].
Qed.

(** C7, where the code departs from it.  [addSecretMapping] always ends;
    it assigns the mapping to the registry object and then runs one
    [fetchSecretWithRetry] for that alias, entered at attempt 1: every call
    it makes is for that alias and identifier, at the attempts [1, 2, ..],
    at most [maxRetries + 1] of them, every other alias keeps its value,
    and it returns unless an unhandled error event throws.  The fetch
    retries while the answers fail: [maxRetries + 1] calls when they all
    do, and [j + 1] calls when the first [j] fail and the next one decodes
    to [v]; then [getSecret] answers a value with the serialization of [v]
    ([v] itself when line 70 wrote it), which for a binary payload [X] is
    [X] decoded as text; with [j = 0] that is one call and no suspension.
    The assignment of line 134 is an upsert for every alias but
    ["__proto__"]: for that alias the registry stays as it was, while the
    fetch is made and its value cached all the same. *)
Theorem C7_addSecretMapping_fetches_once st userId secretId :
  exists st',
    outcome_state (addSecretMapping userId secretId st) = Some st' /\
    secretMappings (config st')
      = object_set userId secretId (secretMappings (config st)) /\
    (userId <> "__proto__"%string ->
       secretMappings (config st')
         = <[userId := secretId]> (secretMappings (config st)) /\
       secretMappings (config st') !! userId = Some secretId) /\
    (userId = "__proto__"%string ->
       secretMappings (config st') = secretMappings (config st)) /\
    (exists retries,
       (retries <= maxRetries (config st))%nat /\
       attempts_of (actions_since st st') = seq 1 (S retries) /\
       count is_call (actions_since st st') = S retries /\
       sleeps_of (actions_since st st')
         = map (fun k => (retryDelay (config st)
                          * Math_pow2 (Z.of_nat k - 1))%float)
             (seq 1 retries)) /\
    Forall (fun target => target = (userId, secretId))
      (targets_of (actions_since st st')) /\
    (forall x, x <> userId -> getSecret x st' = getSecret x st) /\
    (errors_handled st ->
       addSecretMapping userId secretId st = Returned tt st') /\
    (exhausts secretId st ->
       count is_call (actions_since st st')
         = (maxRetries (config st) + 1)%nat /\
       getSecret userId st' = getSecret userId st) /\
    (forall (j : nat) response v,
       (j <= maxRetries (config st))%nat ->
       (forall i, (i < j)%nat ->
          attempt_fails secretId (source st (calls st + i)%nat secretId)
          = true) ->
       source st (calls st + j)%nat secretId = Resolves (Some response) ->
       secretValueOf response = inr v ->
       addSecretMapping userId secretId st = Returned tt st' /\
       attempts_of (actions_since st st') = seq 1 (j + 1) /\
       count is_call (actions_since st st') = (j + 1)%nat /\
       length (sleeps_of (actions_since st st')) = j /\
       (exists v', getSecret userId st' = Some v' /\
          JSON_stringify v' = JSON_stringify v /\
          (changed (cache st !! userId) v = true -> v' = v)) /\
       (forall X, textPayload response = None ->
          SecretBinary response = Some X ->
          v = JsString (Buffer_toString_utf8 X))).
Proof.
  set (st0 := set_secretMappings (object_set userId secretId) st).
  destruct (fetchSecretWithRetry_counted userId secretId st0)
    as (st' & new & retries & Hout & Hconfig & _ & Htrace & Hle & Hatt & Hsl
        & _ & _ & Hframe & _).
  pose proof Hout as Hfuel. unfold fetchSecretWithRetry in Hfuel.
  assert (count is_call new = S retries) as Hcalls.
  { rewrite count_calls_attempts, Hatt, length_seq. reflexivity. }
  exists st'. rewrite addSecretMapping_unfold. fold st0.
  change (actions_since st st') with (actions_since st0 st').
  rewrite (actions_since_app _ _ _ Htrace).
  split; [exact Hout |].
  split; [rewrite Hconfig; reflexivity |].
  split.
  { intros Hkey. rewrite Hconfig. cbn. rewrite object_set_other by exact Hkey.
    split; [reflexivity | apply lookup_insert_eq]. }
  split.
  { intros ->. rewrite Hconfig. cbn. apply object_set_proto. }
  split; [exists retries; auto |].
  split.
  { destruct (fetch_targets (S (S (maxRetries (config st0)) - 1)) userId
                secretId 1%nat st0 ltac:(lia))
      as (st2 & new2 & Hout2 & Htrace2 & Htargets).
    rewrite Hfuel in Hout2. injection Hout2 as <-.
    rewrite Htrace in Htrace2. apply app_inv_head in Htrace2. subst new2.
    exact Htargets. }
  split.
  { intros x Hx. unfold getSecret. rewrite (Hframe x Hx). reflexivity. }
  split.
  { intros Hh.
    destruct (fetchSecretWithRetry_total userId secretId 1%nat st0)
      as (st2 & new2 & Hout2 & _ & Hret).
    rewrite (Hret Hh) in Hout |- *. injection Hout as ->. reflexivity. }
  split.
  { intros Hex.
    destruct (exhausting_run (S (S (maxRetries (config st0)) - 1)) userId
                secretId 1%nat st0)
      as (st2 & new2 & Hout2 & Hcache2 & _ & Htrace2 & Hatt2 & _);
      [lia | lia | intros i Hi; apply Hex; cbn in Hi; lia |].
    rewrite Hfuel in Hout2. injection Hout2 as <-.
    rewrite Htrace in Htrace2. apply app_inv_head in Htrace2. subst new2.
    split.
    - rewrite count_calls_attempts, Hatt2, length_seq. cbn. lia.
    - unfold getSecret. rewrite Hcache2. reflexivity. }
  intros j response v Hj Hfail Hsrc Hv.
  assert (attempt_result secretId (source st0 (calls st0 + j)%nat secretId)
          = inr v) as Hr by (cbn; rewrite Hsrc; exact Hv).
  destruct (fetch_recovers st0 userId secretId j v Hj Hfail Hr)
    as (st2 & v' & Hrun & Hcalls2 & Hsl2 & _ & Hget & Hser & Hnew).
  rewrite Hrun in Hout. injection Hout as ->.
  rewrite (actions_since_app _ _ _ Htrace) in Hcalls2, Hsl2.
  split; [exact Hrun |].
  assert (retries = j) as -> by lia.
  split; [rewrite Hatt; f_equal; lia |].
  split; [exact Hcalls2 |].
  split; [rewrite Hsl2, length_map, length_seq; reflexivity |].
  split; [exists v'; auto |].
  intros X Htext Hbin.
  rewrite (secretValueOf_no_text _ Htext), Hbin in Hv.
  injection Hv as <-. reflexivity.
Qed.

(** C8, as the code has it.  An answer whose text payload is not empty and
    does not parse is a failure like a rejection: nothing is written, and
    the method goes the way of the [catch] block, with the next attempt
    after the suspension of that attempt number while retries are left,
    and with the report of the failure on the last attempt.  A rejected
    call goes the same way.  (An empty [SecretString] is not parsed at
    all: line 61 reads it as no text payload.) *)
Theorem C8_malformed_text_is_a_failure st userId secretId attempt
    response text :
  source st (calls st) secretId = Resolves (Some response) ->
  SecretString response = Some text ->
  text <> EmptyString ->
  JSON_parse text = None ->
  textPayload response = Some text /\
  attempt_fails secretId (source st (calls st) secretId) = true /\
  fetchSecret_try userId secretId attempt st
    = Thrown (SyntaxError text) (after_call userId secretId attempt st) /\
  cache (after_call userId secretId attempt st) = cache st /\
  ((attempt <= maxRetries (config st))%nat ->
     let st2 := before_retry userId attempt (SyntaxError text)
                  (after_call userId secretId attempt st) in
     fetchSecretWithRetry userId secretId attempt st
       = fetchSecretWithRetry userId secretId (attempt + 1) st2 /\
     cache st2 = cache st /\
     count is_call (actions_since st st2) = 1%nat /\
     sleeps_of (actions_since st st2)
       = [(retryDelay (config st) * Math_pow2 (Z.of_nat attempt - 1))%float]) /\
  ((maxRetries (config st) < attempt)%nat ->
     fetchSecretWithRetry userId secretId attempt st
       = report_failure userId (SyntaxError text)
           (after_call userId secretId attempt st) /\
     exists st',
       outcome_state (fetchSecretWithRetry userId secretId attempt st)
         = Some st' /\
       cache st' = cache st /\
       count is_error_event (actions_since st st')
         = (if disableEvents (config st) then 0 else 1)%nat) /\
  (forall st_r message,
     source st_r (calls st_r) secretId = Rejects message ->
     ((attempt <= maxRetries (config st_r))%nat ->
        fetchSecretWithRetry userId secretId attempt st_r
        = fetchSecretWithRetry userId secretId (attempt + 1)
            (before_retry userId attempt (ClientError message)
               (after_call userId secretId attempt st_r))) /\
     ((maxRetries (config st_r) < attempt)%nat ->
        fetchSecretWithRetry userId secretId attempt st_r
        = report_failure userId (ClientError message)
            (after_call userId secretId attempt st_r))) /\
  ((forall i, (i <= maxRetries (config st))%nat ->
      exists response_i text_i,
        source st (calls st + i)%nat secretId = Resolves (Some response_i) /\
        SecretString response_i = Some text_i /\
        text_i <> EmptyString /\ JSON_parse text_i = None) ->
   exists st',
     outcome_state (fetchSecretWithRetry userId secretId 1%nat st) = Some st' /\
     count is_call (actions_since st st') = (maxRetries (config st) + 1)%nat /\
     cache st' = cache st).
Proof.
  intros Hsrc Hstring Hne Hparse.
  assert (forall r t, SecretString r = Some t -> t <> EmptyString ->
            textPayload r = Some t) as Htruthy.
  { intros r t Hs Ht. unfold textPayload. rewrite Hs.
    destruct t; [contradiction | reflexivity]. }
  pose proof (Htruthy _ _ Hstring Hne) as Htext.
  assert (attempt_result secretId (source st (calls st) secretId)
          = inl (SyntaxError text)) as Hr.
  { rewrite Hsrc. cbn. rewrite (secretValueOf_text _ _ Htext), Hparse.
    reflexivity. }
  split; [exact Htext |].
  split; [unfold attempt_fails; rewrite Hr; reflexivity |].
  split; [exact (fetchSecret_try_fails _ _ _ _ _ Hr) |].
  split; [reflexivity |].
  split; [| split; [| split]].
  - intros Hle st2.
    split; [exact (fetch_failure_retries _ _ _ _ _ Hr Hle) |].
    split; [reflexivity |].
    erewrite actions_since_app
      by (subst st2; cbn; rewrite <- !app_assoc; reflexivity).
    split; reflexivity.
  - intros Hlt.
    pose proof (fetch_failure_reports userId _ _ _ _ Hr Hlt) as Hrep.
    split; [exact Hrep |]. rewrite Hrep. unfold report_failure. cbn.
    destruct (disableEvents (config st));
      [| destruct (bool_decide (EvError ∈ listeners st))];
      eexists; (split; [reflexivity |]); (split; [reflexivity |]);
      (erewrite actions_since_app
         by (cbn; rewrite <- ?app_assoc; reflexivity));
      reflexivity.
  - intros st_r message Hrej.
    assert (attempt_result secretId (source st_r (calls st_r) secretId)
            = inl (ClientError message)) as Hr'
      by (rewrite Hrej; reflexivity).
    split; intros Hc.
    + exact (fetch_failure_retries _ _ _ _ _ Hr' Hc).
    + exact (fetch_failure_reports _ _ _ _ _ Hr' Hc).
  - intros Hall.
    destruct (exhausting_run (S (S (maxRetries (config st)) - 1)) userId
                secretId 1%nat st)
      as (st' & new & Hout & Hcache & _ & Htrace & Hatt & _);
      [lia | lia | |].
    { intros i Hi.
      destruct (Hall i ltac:(lia)) as (r & t & Hs & Hstr & Ht & Hp).
      unfold attempt_fails. rewrite Hs. cbn.
      rewrite (secretValueOf_text _ _ (Htruthy _ _ Hstr Ht)), Hp.
      reflexivity. }
    exists st'. split; [exact Hout |].
    rewrite (actions_since_app _ _ _ Htrace).
    split; [| exact Hcache].
    rewrite count_calls_attempts, Hatt, length_seq. lia.
Qed.

(** C10, as the code has it.  An answer with neither a text payload nor a
    binary payload is a success with the empty string: one call, no retry,
    no error.  When the cache does not already hold a value with that
    serialization, the empty string is written, and one update
    notification is emitted when events are enabled, none when
    [disableEvents] is set; otherwise nothing is written or emitted. *)
Theorem C10_empty_response_caches_empty_string st userId secretId attempt
    response :
  source st (calls st) secretId = Resolves (Some response) ->
  textPayload response = None ->
  SecretBinary response = None ->
  exists st',
    fetchSecretWithRetry userId secretId attempt st = Returned tt st' /\
    attempt_fails secretId (source st (calls st) secretId) = false /\
    count is_call (actions_since st st') = 1%nat /\
    count is_error_event (actions_since st st') = 0%nat /\
    sleeps_of (actions_since st st') = [] /\
    if changed (cache st !! userId) (JsString EmptyString)
    then
      cache st'
        = <[userId := {| value := JsString EmptyString;
                         fetchedAt := clock st |}]> (cache st) /\
      getSecret userId st' = Some (JsString EmptyString) /\
      count is_update_event (actions_since st st')
        = (if disableEvents (config st) then 0 else 1)%nat /\
      count (is_update_for userId) (actions_since st st')
        = (if disableEvents (config st) then 0 else 1)%nat
    else
      cache st' = cache st /\
      count is_update_event (actions_since st st') = 0%nat.
Proof.
  intros Hsrc Htext Hbin.
  assert (attempt_result secretId (source st (calls st) secretId)
          = inr (JsString EmptyString)) as Hr.
  { rewrite Hsrc. cbn. rewrite (secretValueOf_no_text _ Htext), Hbin.
    reflexivity. }
  destruct (store_spec userId secretId attempt st (JsString EmptyString))
    as (_ & _ & _ & _ & Hcache & Hnew).
  eexists. split; [exact (fetch_first_answer_decodes _ _ _ _ _ Hr) |].
  split; [unfold attempt_fails; rewrite Hr; reflexivity |].
  rewrite (actions_since_app _ _ _ Hnew), Hcache.
  unfold getSecret. rewrite Hcache.
  destruct (changed (cache st !! userId) (JsString EmptyString));
    [destruct (disableEvents (config st)) |]; cbn;
    rewrite ?lookup_insert_eq, ?bool_decide_eq_true_2 by reflexivity;
    repeat (split; [reflexivity |]); reflexivity.
Qed.

(** C5.  In every state the object can reach, the scheduler is a machine
    with two states.  Stopped: [startScheduledRefresh] arms one fresh
    timer, the only one armed afterwards, and sets [isRunning];
    [stopScheduledRefresh] changes nothing.  Running:
    [stopScheduledRefresh] cancels the timer of [refreshIntervalId],
    leaving none armed, and resets [isRunning];
    [startScheduledRefresh] changes nothing: no second timer, no start
    notification. *)
Theorem C5_scheduler_two_states st :
  reachable st ->
  exists st_start st_stop,
    startScheduledRefresh st = Returned tt st_start /\
    stopScheduledRefresh st = Returned tt st_stop /\
    if isRunning st
    then
      st_start = st /\
      isRunning st_stop = false /\
      timers st_stop = ∅ /\
      (exists h period,
         refreshIntervalId st = Some h /\ timers st = {[ h := period ]} /\
         In (AClearInterval h) (actions_since st st_stop)) /\
      count is_clear_interval (actions_since st st_stop) = 1%nat /\
      count is_stop_event (actions_since st st_stop)
        = (if disableEvents (config st) then 0 else 1)%nat
    else
      st_stop = st /\
      timers st = ∅ /\
      isRunning st_start = true /\
      (exists h,
         refreshIntervalId st_start = Some h /\
         timers st_start = {[ h := refreshInterval (config st) ]} /\
         In (ASetInterval h (refreshInterval (config st)))
            (actions_since st st_start)) /\
      count is_set_interval (actions_since st st_start) = 1%nat /\
      count is_start_event (actions_since st st_start)
        = (if disableEvents (config st) then 0 else 1)%nat.
Proof.
  intros Hreach. destruct (reachable_inv st Hreach) as [Hinv _].
  unfold sched_inv in Hinv. destruct (isRunning st) eqn:Hr.
  - destruct Hinv as (h & period & Hid & Htimers).
    exists st, (halted h st).
    split; [exact (start_when_running _ Hr) |].
    split; [exact (stop_when_running _ _ Hr Hid) |].
    split; [reflexivity |].
    unfold halted. destruct (disableEvents (config st)); cbn;
      (erewrite actions_since_app
         by (cbn; rewrite <- ?app_assoc; reflexivity));
      (split; [reflexivity |]);
      (split; [rewrite Htimers; apply delete_singleton_eq |]);
      (split; [exists h, period; cbn; auto |]);
      split; reflexivity.
  - exists (started st), st.
    split; [exact (start_when_stopped _ Hr) |].
    split; [exact (stop_when_stopped _ Hr) |].
    split; [reflexivity |]. split; [exact Hinv |].
    unfold started. destruct (disableEvents (config st)); cbn;
      (erewrite actions_since_app
         by (cbn; rewrite <- ?app_assoc; reflexivity));
      (split; [reflexivity |]);
      (split; [exists (nextHandle st); rewrite Hinv; cbn; auto |]);
      split; reflexivity.
Qed.

(** C6.  In every state the object can reach, [clearCache] returns and
    leaves an empty cache ([getSecret] answers nothing for any alias,
    [getCacheStats] is 0) and a stopped scheduler with no timer armed; it
    emits one clear notification, none when [disableEvents] is set; the
    alias registry is the one it was. *)
Theorem C6_clearCache_empties_and_stops st :
  reachable st ->
  exists st',
    clearCache st = Returned tt st' /\
    (forall userId, getSecret userId st' = None) /\
    getCacheStats st' = 0%nat /\
    isRunning st' = false /\
    timers st' = ∅ /\
    count is_clear_event (actions_since st st')
      = (if disableEvents (config st) then 0 else 1)%nat /\
    secretMappings (config st') = secretMappings (config st) /\
    (forall alias secretId,
       secretMappings (config st) !! alias = Some secretId ->
       secretMappings (config st') !! alias = Some secretId).
Proof.
  intros Hreach. destruct (reachable_inv st Hreach) as [Hinv _].
  destruct (clearCache_from_inv st Hinv)
    as (st' & new & Heq & _ & Hcache & Hrun & Htimers & Hconfig & Htrace
        & Hcount).
  exists st'. split; [exact Heq |].
  split. { intros userId. unfold getSecret. rewrite Hcache, lookup_empty.
           reflexivity. }
  split. { unfold getCacheStats. rewrite Hcache. apply map_size_empty. }
  split; [exact Hrun |]. split; [exact Htimers |].
  split. { rewrite (actions_since_app _ _ _ Htrace). exact Hcount. }
  rewrite Hconfig. split; [reflexivity | auto].
Qed.

(** C9.  In every state the object can reach, every alias of the cache was
    fetched successfully: the trace holds a call made for it whose answer
    decodes to the cached value.  Every operation ends and keeps it so:
    what the cache holds afterwards was there before or is the decoded
    answer of a call the operation made, and an operation that does not
    fetch ([removeSecretMapping], [clearCache], ...) adds nothing.  The
    converse does not hold: an alias can be in the registry without an
    entry in the cache. *)
Theorem C9_cache_entries_were_fetched st op :
  reachable st ->
  cache_inv st /\
  (exists st',
     outcome_state (run op st) = Some st' /\
     cache_inv st' /\
     (forall x entry, cache st' !! x = Some entry ->
        cache st !! x = Some entry \/
        fetched x (value entry) (actions_since st st')) /\
     (fetches op = false ->
      forall x entry, cache st' !! x = Some entry ->
        cache st !! x = Some entry)) /\
  (exists st0 alias,
     reachable st0 /\ is_Some (secretMappings (config st0) !! alias) /\
     cache st0 !! alias = None).
Proof.
  intros Hreach. destruct (reachable_inv st Hreach) as [Hs Hc].
  split; [exact Hc |]. split.
  - destruct (run_step op st Hs) as (st' & new & Hout & _ & Heff & Hshrink).
    exists st'. split; [exact Hout |].
    split; [exact (cache_inv_effect _ _ _ Heff Hc) |].
    destruct Heff as (Htrace & Hwrites).
    rewrite (actions_since_app _ _ _ Htrace). auto.
  - exists (new_cache
              {| region := "us-east-1";
                 secretMappings := {[ "a"%string := "idA"%string ]};
                 refreshInterval := 1000%float; maxRetries := 0;
                 retryDelay := 100%float; disableEvents := false |}
              (fun _ _ => Resolves None) 0), "a"%string.
    split.
    { apply reachable_new. unfold configSchema. cbn.
      rewrite bool_decide_eq_true_2; [reflexivity |].
      apply insert_non_empty. }
    cbn. split; [rewrite lookup_singleton_eq; eauto | apply lookup_empty].
Qed.

(** C3, as the code has it.  A fetch that succeeds, at its first attempt
    or after [j] failed ones, with an answer that decodes to a value with
    the serialization of the cached one, writes nothing and emits no
    update notification.  So, for a registry none of whose aliases is
    cached yet and a source that keeps answering the same decodable
    payload for each identifier, two calls of [fetchAllSecrets] in a row
    both return; the first writes the decoded value of every alias of
    the registry to the cache, and emits one update notification for each
    of them when events are enabled, and none when [disableEvents] is
    set; the second emits none and leaves the cache as it is. *)
Theorem C3_unchanged_source_updates_once st
    (payload : string -> GetSecretValueCommandOutput)
    (decoded : string -> JsValue) :
  (forall alias id, secretMappings (config st) !! alias = Some id ->
     secretValueOf (payload id) = inr (decoded id) /\
     forall n, source st n id = Resolves (Some (payload id))) ->
  (forall alias, is_Some (secretMappings (config st) !! alias) ->
     cache st !! alias = None) ->
  (forall st_a userId secretId j response v entry,
     (j <= maxRetries (config st_a))%nat ->
     (forall i, (i < j)%nat ->
        attempt_fails secretId (source st_a (calls st_a + i)%nat secretId)
        = true) ->
     source st_a (calls st_a + j)%nat secretId = Resolves (Some response) ->
     secretValueOf response = inr v ->
     cache st_a !! userId = Some entry ->
     JSON_stringify (value entry) = JSON_stringify v ->
     exists st',
       fetchSecretWithRetry userId secretId 1%nat st_a = Returned tt st' /\
       cache st' = cache st_a /\
       count is_update_event (actions_since st_a st') = 0%nat /\
       count is_call (actions_since st_a st') = (j + 1)%nat) /\
  (exists st1 st2,
     fetchAllSecrets st = Returned tt st1 /\
     fetchAllSecrets st1 = Returned tt st2 /\
     (forall alias id, secretMappings (config st) !! alias = Some id ->
        getSecret alias st1 = Some (decoded id)) /\
     (forall alias, is_Some (secretMappings (config st) !! alias) ->
        count (is_update_for alias) (actions_since st st1)
        = (if disableEvents (config st) then 0 else 1)%nat) /\
     (forall alias, secretMappings (config st) !! alias = None ->
        count (is_update_for alias) (actions_since st st1) = 0%nat) /\
     count is_update_event (actions_since st1 st2) = 0%nat /\
     cache st2 = cache st1).
Proof.
  intros Hsteady Hfresh. split.
  - intros st_a userId secretId j response v entry Hj Hfail Hsrc Hv Hentry
      Hser.
    assert (attempt_result secretId
              (source st_a (calls st_a + j)%nat secretId) = inr v) as Hr
      by (rewrite Hsrc; exact Hv).
    destruct (retries_then_decodes j (S (S (maxRetries (config st_a)) - 1))
                userId secretId 1%nat st_a v)
      as (st_j & new & Hrun & Hcache_j & _ & _ & _ & Htrace_j & Hcount & Hatt);
      [lia | lia | exact Hfail | exact Hr |].
    destruct (store_spec userId secretId (1 + j)%nat st_j v)
      as (_ & _ & _ & _ & Hcache & Htrace).
    assert (changed (cache st_j !! userId) v = false) as Hch.
    { rewrite Hcache_j, Hentry. cbn. apply bool_decide_eq_false_2. auto. }
    rewrite Hch in Hcache, Htrace.
    eexists. split; [exact Hrun |].
    split; [rewrite Hcache; exact Hcache_j |].
    erewrite actions_since_app
      by (rewrite Htrace, Htrace_j, <- app_assoc; reflexivity).
    rewrite !count_app, Hcount, (count_calls_attempts new), Hatt, length_seq.
    cbn. split; lia.
  - set (entries := map_to_list (secretMappings (config st))).
    assert (forall alias, alias ∈ entries.*1 <->
              is_Some (secretMappings (config st) !! alias)) as Hdom.
    { intros alias. subst entries. rewrite list_elem_of_fmap. split.
      - intros ([a id] & -> & Hin). apply elem_of_map_to_list in Hin. eauto.
      - intros [id Hid]. exists (alias, id). split; [reflexivity |].
        apply elem_of_map_to_list. exact Hid. }
    assert (forall st0, source st0 = source st ->
              steady_on payload decoded entries st0) as Hsteady'.
    { intros st0 Hsrc alias id Hin. rewrite Hsrc.
      apply (Hsteady alias). apply elem_of_map_to_list. exact Hin. }
    (* first call *)
    destruct (fanout_fresh payload decoded entries
                (record (ALog Info FetchingAll) st))
      as (st1 & new1 & Hall1 & Hconfig1 & Hsource1 & Htrace1 & _ & Hin1
          & Hone1 & Hnone1).
    { apply NoDup_fst_map_to_list. }
    { apply Hsteady'. reflexivity. }
    { intros alias Halias. cbn. apply Hfresh, Hdom, Halias. }
    cbn in Hconfig1, Hsource1, Htrace1, Hone1.
    (* second call *)
    destruct (fanout_unchanged payload decoded entries
                (record (ALog Info FetchingAll)
                   (record (ALog Info FinishedFetchingAll) st1)))
      as (st2 & new2 & Hall2 & Hconfig2 & Hcache2 & Htrace2 & Hcount2).
    { apply Hsteady'. exact Hsource1. }
    { intros alias id Hin. cbn.
      destruct (Hin1 alias id Hin) as (entry & Hentry & Hvalue).
      exists entry. rewrite Hvalue. auto. }
    cbn in Hconfig2, Hcache2, Htrace2.
    exists (record (ALog Info FinishedFetchingAll) st1),
      (record (ALog Info FinishedFetchingAll) st2).
    split. { rewrite fetchAllSecrets_unfold. fold entries. rewrite Hall1.
             reflexivity. }
    split. { rewrite fetchAllSecrets_unfold.
             cbn [config record]. rewrite Hconfig1. fold entries.
             rewrite Hall2. reflexivity. }
    assert (actions_since st (record (ALog Info FinishedFetchingAll) st1)
            = [ALog Info FetchingAll] ++ new1
              ++ [ALog Info FinishedFetchingAll]) as ->.
    { apply actions_since_app. cbn. rewrite Htrace1, <- !app_assoc.
      reflexivity. }
    assert (actions_since (record (ALog Info FinishedFetchingAll) st1)
              (record (ALog Info FinishedFetchingAll) st2)
            = [ALog Info FetchingAll] ++ new2
              ++ [ALog Info FinishedFetchingAll]) as ->.
    { apply actions_since_app. cbn. rewrite Htrace2, <- !app_assoc.
      reflexivity. }
    split.
    { intros alias id Hreg. unfold getSecret. cbn [cache record].
      destruct (Hin1 alias id) as (entry & Hentry & Hvalue).
      { apply elem_of_map_to_list. exact Hreg. }
      rewrite Hentry. cbn. rewrite Hvalue. reflexivity. }
    split; [| split; [| split]].
    + intros alias Halias. rewrite !count_app, Hone1 by (apply Hdom, Halias).
      cbn. lia.
    + intros alias Halias. rewrite !count_app, Hnone1.
      * reflexivity.
      * intros Hin. apply Hdom in Hin. rewrite Halias in Hin.
        destruct Hin; discriminate.
    + rewrite !count_app, Hcount2. reflexivity.
    + exact Hcache2.
Qed.

(** When events are disabled, or somebody listens to ['error'], no fetch
    error reaches the caller of [fetchAllSecrets] or [initialize], whatever
    the Secret Source does. *)
Lemma initialize_resolves_when_errors_handled st :
  errors_handled st ->
  (exists st', fetchAllSecrets st = Returned tt st') /\
  (exists st', initialize st = Returned tt st').
Proof.
  intros Hh.
  destruct (fetchAllSecrets_effect st) as (st1 & new & _ & _ & Hret).
  specialize (Hret Hh). split; [eauto |].
  rewrite initialize_unfold, Hret.
  destruct (isRunning st1) eqn:Hr.
  - rewrite (start_when_running _ Hr). eauto.
  - rewrite (start_when_stopped _ Hr). eauto.
Qed.

(** C2, where the code departs from it.  The object has one alias, events
    are enabled and nobody listens to ['error'].  When the fetch of the
    alias exhausts its retries, the [emit('error', ..)] of line 84 throws
    out of the [catch] block: [fetchAllSecrets] and [initialize] reject
    with that error, and [initialize] does not reach
    [startScheduledRefresh]. *)
Theorem C2_unhandled_error_event_reaches_caller st alias secretId :
  secretMappings (config st) = {[ alias := secretId ]} ->
  exhausts secretId st ->
  disableEvents (config st) = false ->
  EvError ∉ listeners st ->
  exists cause timestamp st',
    fetchAllSecrets st
      = Thrown (UnhandledError (Some alias) cause timestamp) st' /\
    initialize st
      = Thrown (UnhandledError (Some alias) cause timestamp) st' /\
    isRunning st' = isRunning st /\
    timers st' = timers st /\
    count is_error_event (actions_since st st') = 1%nat /\
    count is_call (actions_since st st')
      = (maxRetries (config st) + 1)%nat.
Proof.
  intros Hreg Hex Hev Hno.
  set (st0 := record (ALog Info FetchingAll) st).
  destruct (exhausting_run (S (S (maxRetries (config st0)) - 1)) alias
              secretId 1%nat st0)
    as (st' & new & Hout & _ & _ & Htrace & Hatt & _ & Herr & _ & _ & Hthrow).
  { lia. }
  { lia. }
  { intros i Hi. apply Hex. cbn in Hi. lia. }
  destruct (Hthrow Hev Hno) as (cause & timestamp & Hrun).
  destruct (fetchSecretWithRetry_total alias secretId 1%nat st0)
    as (st'' & new' & Hout' & Heff & _).
  unfold fetchSecretWithRetry in Hout'. rewrite Hout in Hout'.
  injection Hout' as <-.
  destruct Heff as (_ & _ & Hr & _ & _ & Ht & _).
  assert (fetchAllSecrets st
          = Thrown (UnhandledError (Some alias) cause timestamp) st') as Hall.
  { rewrite fetchAllSecrets_unfold, Hreg, map_to_list_singleton. cbn [map].
    fold st0. cbn [Promise_all fst snd].
    unfold fetchSecretWithRetry at 1. rewrite Hrun. reflexivity. }
  exists cause, timestamp, st'.
  split; [exact Hall |].
  split; [rewrite initialize_unfold, Hall; reflexivity |].
  split; [exact Hr |]. split; [exact Ht |].
  assert (actions_since st st' = [ALog Info FetchingAll] ++ new) as ->.
  { apply actions_since_app. rewrite Htrace. subst st0. cbn.
    rewrite <- app_assoc. reflexivity. }
  rewrite !count_app, Herr, (count_calls_attempts new), Hatt, length_seq.
  subst st0. cbn. rewrite Hev. split; lia.
Qed.

End Properties.

(** * The properties on concrete objects *)

Lemma C1_retry_bound_and_backoff_witness :
  exhausts "idA" (fresh_state 2 false failing_source) /\
  exists st',
    outcome_state
      (fetchSecretWithRetry "a" "idA" 1%nat (fresh_state 2 false failing_source))
      = Some st' /\
    attempts_of (actions_since (fresh_state 2 false failing_source) st')
      = [1; 2; 3]%nat /\
    sleeps_of (actions_since (fresh_state 2 false failing_source) st')
      = [100; 200]%float /\
    suspensions_of (actions_since (fresh_state 2 false failing_source) st')
      !! 1%nat = Some 200%float.
Proof.
  split; [intros i _; reflexivity |].
  destruct (C1_retry_bound_and_backoff (fresh_state 2 false failing_source)
              "a" "idA")
    as (st' & Hout & Hatt & _ & _ & Hsl & Hk).
  { intros i _. reflexivity. }
  exists st'. split; [exact Hout |]. split; [exact Hatt |].
  split; [exact Hsl |].
  destruct (Hk 3%nat (conj (le_S _ _ (le_n 2)) (le_n 3))) as (_ & _ & Hexact).
  exact (Hexact eq_refl eq_refl eq_refl).
Defined.

(** Where the claim fails.  With [disableEvents] set, a fetch that
    exhausts its retries emits no error notification at all.  With
    [retryDelay = 2^31] the delay given to [setTimeout] before attempt 2
    is above [TIMEOUT_MAX], and with [retryDelay = 1.5] it is not a whole
    number: in both cases the suspension lasts 1 ms.  With
    [retryDelay = 2^1023] the delay before attempt 3 is [Infinity]. *)
Lemma C1_counterexample :
  (exhausts "idA" (fresh_state 0 true failing_source) /\
   exists st',
     fetchSecretWithRetry "a" "idA" 1%nat (fresh_state 0 true failing_source)
       = Returned tt st' /\
     count is_error_event
       (actions_since (fresh_state 0 true failing_source) st') = 0%nat) /\
  (exhausts "idA" (backoff_state 2147483648 1) /\
   exists st',
     outcome_state
       (fetchSecretWithRetry "a" "idA" 1%nat (backoff_state 2147483648 1))
       = Some st' /\
     sleeps_of (actions_since (backoff_state 2147483648 1) st')
       = [2147483648%float] /\
     suspensions_of (actions_since (backoff_state 2147483648 1) st')
       = [1%float]) /\
  (exhausts "idA" (backoff_state 1.5 1) /\
   exists st',
     outcome_state
       (fetchSecretWithRetry "a" "idA" 1%nat (backoff_state 1.5 1))
       = Some st' /\
     sleeps_of (actions_since (backoff_state 1.5 1) st') = [1.5%float] /\
     suspensions_of (actions_since (backoff_state 1.5 1) st') = [1%float]) /\
  (exhausts "idA" (backoff_state (Math_pow2 1023) 2) /\
   exists st',
     outcome_state
       (fetchSecretWithRetry "a" "idA" 1%nat
          (backoff_state (Math_pow2 1023) 2))
       = Some st' /\
     sleeps_of (actions_since (backoff_state (Math_pow2 1023) 2) st')
       = [Math_pow2 1023; infinity]).
Proof.
  repeat split; try (intros i _; reflexivity);
    eexists; (split; [vm_compute; reflexivity |]);
    repeat split; vm_compute; reflexivity.
Qed.

Lemma C4_exhausted_fetch_keeps_cache_witness :
  exhausts "idA" stale_state /\
  exists st',
    outcome_state (fetchSecretWithRetry "a" "idA" 1%nat stale_state)
      = Some st' /\
    cache st' = cache stale_state /\
    getSecret "a" st' = Some (JBool true).
Proof.
  assert (exhausts "idA" stale_state) as Hex.
  { intros i _. vm_compute. reflexivity. }
  split; [exact Hex |].
  destruct (C4_exhausted_fetch_keeps_cache stale_state "a" "idA" Hex)
    as (st' & Hout & Hcache & Hstale & _).
  exists st'. split; [exact Hout |]. split; [exact Hcache |].
  apply (Hstale (@Build_CacheEntry SmallPlatform (JBool true) 0)).
  vm_compute. reflexivity.
Defined.

(** The object of the first failing scenario: one alias, no retries, events
    enabled, no listener, a source that rejects.  [initialize] rejects. *)
Lemma C2_unhandled_error_event_reaches_caller_witness :
  secretMappings (config (fresh_state 0 false failing_source))
    = {[ "a"%string := "idA"%string ]} /\
  exhausts "idA" (fresh_state 0 false failing_source) /\
  disableEvents (config (fresh_state 0 false failing_source)) = false /\
  (EvError ∉ listeners (fresh_state 0 false failing_source)) /\
  exists cause timestamp st',
    initialize (fresh_state 0 false failing_source)
      = Thrown (UnhandledError (Some "a"%string) cause timestamp) st' /\
    isRunning st' = false.
Proof.
  assert (exhausts "idA" (fresh_state 0 false failing_source)) as Hex.
  { intros i _. reflexivity. }
  assert (EvError ∉ listeners (fresh_state 0 false failing_source)) as Hno.
  { cbn. apply not_elem_of_nil. }
  split; [reflexivity |]. split; [exact Hex |]. split; [reflexivity |].
  split; [exact Hno |].
  destruct (C2_unhandled_error_event_reaches_caller
              (fresh_state 0 false failing_source) "a" "idA"
              eq_refl Hex eq_refl Hno)
    as (cause & timestamp & st' & _ & Hinit & Hrun & _).
  exists cause, timestamp, st'. split; [exact Hinit | exact Hrun].
Defined.

Lemma C3_unchanged_source_updates_once_witness :
  (forall alias id,
     secretMappings (config (fresh_state 2 false steady_source)) !! alias
       = Some id ->
     secretValueOf
       {| SecretString := Some "true"%string; SecretBinary := None |}
       = inr (JBool true) /\
     forall n, source (fresh_state 2 false steady_source) n id
       = Resolves (Some {| SecretString := Some "true"%string;
                           SecretBinary := None |})) /\
  (forall alias,
     is_Some (secretMappings (config (fresh_state 2 false steady_source))
                !! alias) ->
     cache (fresh_state 2 false steady_source) !! alias = None) /\
  exists st1 st2,
    fetchAllSecrets (fresh_state 2 false steady_source) = Returned tt st1 /\
    fetchAllSecrets st1 = Returned tt st2 /\
    getSecret "a" st1 = Some (JBool true) /\
    count (is_update_for "a")
      (actions_since (fresh_state 2 false steady_source) st1) = 1%nat /\
    count is_update_event (actions_since st1 st2) = 0%nat.
Proof.
  assert (forall alias id,
     secretMappings (config (fresh_state 2 false steady_source)) !! alias
       = Some id ->
     secretValueOf
       {| SecretString := Some "true"%string; SecretBinary := None |}
       = inr (JBool true) /\
     forall n, source (fresh_state 2 false steady_source) n id
       = Resolves (Some {| SecretString := Some "true"%string;
                           SecretBinary := None |})) as Hsteady.
  { intros alias id _. split; [reflexivity | intros n; reflexivity]. }
  assert (forall alias,
     is_Some (secretMappings (config (fresh_state 2 false steady_source))
                !! alias) ->
     cache (fresh_state 2 false steady_source) !! alias = None) as Hfresh.
  { intros alias _. apply lookup_empty. }
  split; [exact Hsteady |]. split; [exact Hfresh |].
  destruct (C3_unchanged_source_updates_once
              (fresh_state 2 false steady_source)
              (fun _ => {| SecretString := Some "true"%string;
                           SecretBinary := None |})
              (fun _ => JBool true) Hsteady Hfresh)
    as (_ & st1 & st2 & H1 & H2 & Hcached & Hone & _ & Hzero & _).
  exists st1, st2. split; [exact H1 |]. split; [exact H2 |].
  split.
  { apply (Hcached "a"%string "idA"%string). cbn.
    apply lookup_singleton_eq. }
  split; [| exact Hzero].
  apply (Hone "a"%string). cbn. rewrite lookup_singleton_eq. eauto.
Defined.

(** Where the claim fails: three first calls of [fetchAllSecrets] against
    a source that does not change, none of which emits an update
    notification for the alias.  With [disableEvents] set, the first call
    caches the value of every alias and emits nothing.  With the alias
    already cached with the value of the source, the call writes nothing.
    With a source that keeps rejecting, nothing is decoded. *)
Lemma C3_counterexample :
  (exists st1,
     fetchAllSecrets (fresh_state 2 true steady_source) = Returned tt st1 /\
     getSecret "a" st1 = Some (JBool true) /\
     count (is_update_for "a")
       (actions_since (fresh_state 2 true steady_source) st1) = 0%nat) /\
  (disableEvents (config running_state) = false /\
   getSecret "a" running_state = Some (JBool true) /\
   exists st1,
     fetchAllSecrets running_state = Returned tt st1 /\
     count (is_update_for "a") (actions_since running_state st1) = 0%nat) /\
  (disableEvents (config listening_state) = false /\
   getSecret "a" listening_state = None /\
   (forall n id, source listening_state n id = Rejects "unreachable") /\
   exists st1,
     fetchAllSecrets listening_state = Returned tt st1 /\
     count (is_update_for "a") (actions_since listening_state st1) = 0%nat).
Proof.
  split; [| split].
  - eexists. split; [vm_compute; reflexivity |]. split; reflexivity.
  - split; [reflexivity |]. split; [vm_compute; reflexivity |].
    eexists. split; [vm_compute; reflexivity |]. vm_compute. reflexivity.
  - split; [reflexivity |]. split; [vm_compute; reflexivity |].
    split; [intros n id; reflexivity |].
    eexists. split; [vm_compute; reflexivity |]. vm_compute. reflexivity.
Qed.

Lemma reachable_running_state : reachable running_state.
Proof.
  apply (reachable_step (fresh_state 2 false steady_source) OpInitialize).
  - apply reachable_new. vm_compute. reflexivity.
  - vm_compute. reflexivity.
Qed.

Lemma reachable_stale_state : reachable stale_state.
Proof.
  apply (reachable_step (fresh_state 2 false flaky_source) OpInitialize).
  - apply reachable_new. vm_compute. reflexivity.
  - vm_compute. reflexivity.
Qed.

Lemma C5_scheduler_two_states_witness :
  reachable running_state /\
  exists st_stop,
    startScheduledRefresh running_state = Returned tt running_state /\
    stopScheduledRefresh running_state = Returned tt st_stop /\
    isRunning st_stop = false /\ timers st_stop = ∅.
Proof.
  split; [exact reachable_running_state |].
  destruct (C5_scheduler_two_states running_state reachable_running_state)
    as (st_start & st_stop & Hstart & Hstop & Hif).
  assert (isRunning running_state = true) as Hr by (vm_compute; reflexivity).
  rewrite Hr in Hif. destruct Hif as (-> & Hrun & Htimers & _).
  exists st_stop. auto.
Defined.

Lemma C6_clearCache_empties_and_stops_witness :
  reachable running_state /\
  exists st',
    clearCache running_state = Returned tt st' /\
    getSecret "a" st' = None /\ getCacheStats st' = 0%nat /\
    isRunning st' = false /\
    secretMappings (config st') !! "a"%string = Some "idA"%string.
Proof.
  split; [exact reachable_running_state |].
  destruct (C6_clearCache_empties_and_stops running_state
              reachable_running_state)
    as (st' & Hclear & Hget & Hsize & Hrun & _ & _ & _ & Hreg).
  exists st'. split; [exact Hclear |]. split; [apply Hget |].
  split; [exact Hsize |]. split; [exact Hrun |].
  apply Hreg. vm_compute. reflexivity.
Defined.

(** The scenario of the claim, and the alias for which it fails: the
    mapping of ["__proto__"] is fetched and cached, and is not in the
    registry. *)
Lemma C7_addSecretMapping_fetches_once_witness :
  (exists st',
     addSecretMapping "b" "idB" (fresh_state 2 false binary_source)
       = Returned tt st' /\
     secretMappings (config st') !! "b"%string = Some "idB"%string /\
     getSecret "b" st' = Some (JStr "hi") /\
     count is_call (actions_since (fresh_state 2 false binary_source) st')
       = 1%nat) /\
  (exists st',
     addSecretMapping "__proto__" "idP" (fresh_state 2 false binary_source)
       = Returned tt st' /\
     secretMappings (config st')
       = secretMappings (config (fresh_state 2 false binary_source)) /\
     secretMappings (config st') !! "__proto__"%string = None /\
     getSecret "__proto__" st' = Some (JStr "hi") /\
     count is_call (actions_since (fresh_state 2 false binary_source) st')
       = 1%nat).
Proof.
  split.
  - destruct (C7_addSecretMapping_fetches_once
                (fresh_state 2 false binary_source) "b" "idB")
      as (st' & _ & _ & Hupsert & _ & _ & _ & _ & _ & _ & Hdecodes).
    destruct (Hdecodes 0%nat
                {| SecretString := None; SecretBinary := Some [x68; x69] |}
                (JStr "hi") (le_0_n _)
                (fun i Hi => match Nat.nlt_0_r i Hi with end)
                eq_refl eq_refl)
      as (Hadd & _ & Hcalls & _ & (v' & Hget & _ & Hv) & _).
    exists st'. split; [exact Hadd |].
    split; [apply Hupsert; discriminate |].
    split; [| exact Hcalls].
    rewrite Hget. f_equal. apply Hv. reflexivity.
  - destruct (C7_addSecretMapping_fetches_once
                (fresh_state 2 false binary_source) "__proto__" "idP")
      as (st' & _ & _ & _ & Hproto & _ & _ & _ & _ & _ & Hdecodes).
    destruct (Hdecodes 0%nat
                {| SecretString := None; SecretBinary := Some [x68; x69] |}
                (JStr "hi") (le_0_n _)
                (fun i Hi => match Nat.nlt_0_r i Hi with end)
                eq_refl eq_refl)
      as (Hadd & _ & Hcalls & _ & (v' & Hget & _ & Hv) & _).
    exists st'. split; [exact Hadd |].
    split; [exact (Hproto eq_refl) |].
    split; [rewrite (Hproto eq_refl); reflexivity |].
    split; [| exact Hcalls].
    rewrite Hget. f_equal. apply Hv. reflexivity.
Defined.

Lemma C8_malformed_text_is_a_failure_witness :
  source (fresh_state 2 false malformed_source)
    (calls (fresh_state 2 false malformed_source)) "idA"
    = Resolves (Some {| SecretString := Some "oops"%string;
                        SecretBinary := None |}) /\
  SecretString {| SecretString := Some "oops"%string; SecretBinary := None |}
    = Some "oops"%string /\
  "oops"%string <> EmptyString /\
  JSON_parse "oops" = None /\
  attempt_fails "idA"
    (source (fresh_state 2 false malformed_source)
       (calls (fresh_state 2 false malformed_source)) "idA") = true /\
  fetchSecretWithRetry "a" "idA" 1%nat (fresh_state 2 false malformed_source)
    = fetchSecretWithRetry "a" "idA" 2%nat
        (before_retry "a" 1%nat (SyntaxError "oops")
           (after_call "a" "idA" 1%nat
              (fresh_state 2 false malformed_source))) /\
  sleeps_of
    (actions_since (fresh_state 2 false malformed_source)
       (before_retry "a" 1%nat (SyntaxError "oops")
          (after_call "a" "idA" 1%nat
             (fresh_state 2 false malformed_source))))
    = [100%float] /\
  exists st',
    outcome_state
      (fetchSecretWithRetry "a" "idA" 1%nat
         (fresh_state 2 false malformed_source)) = Some st' /\
    count is_call (actions_since (fresh_state 2 false malformed_source) st')
      = 3%nat /\
    getSecret "a" st' = None.
Proof.
  assert ("oops"%string <> EmptyString) as Hne by discriminate.
  split; [reflexivity |]. split; [reflexivity |]. split; [exact Hne |].
  split; [reflexivity |].
  destruct (C8_malformed_text_is_a_failure
              (fresh_state 2 false malformed_source) "a" "idA" 1%nat
              {| SecretString := Some "oops"%string; SecretBinary := None |}
              "oops" eq_refl eq_refl Hne eq_refl)
    as (_ & Hfails & _ & _ & Hretry & _ & _ & Hall).
  split; [exact Hfails |].
  destruct (Hretry (le_S _ _ (le_n 1))) as (Hstep & _ & _ & Hsl).
  split; [exact Hstep |]. split; [exact Hsl |].
  destruct Hall as (st' & Hout & Hcalls & Hcache).
  { intros i _.
    exists {| SecretString := Some "oops"%string; SecretBinary := None |},
      "oops"%string.
    split; [reflexivity |]. split; [reflexivity |].
    split; [exact Hne | reflexivity]. }
  exists st'. split; [exact Hout |]. split; [exact Hcalls |].
  unfold getSecret. rewrite Hcache. reflexivity.
Defined.

(** Where the claim fails: an empty text payload is not a document
    ([JSON.parse] throws on it), and the answer is not a failure: the
    fetch returns after one call, without retry or error notification,
    and the empty string is cached. *)
Lemma C8_counterexample :
  source (fresh_state 2 false blank_text_source)
    (calls (fresh_state 2 false blank_text_source)) "idA"
    = Resolves (Some {| SecretString := Some EmptyString;
                        SecretBinary := None |}) /\
  JSON_parse EmptyString = None /\
  exists st',
    fetchSecretWithRetry "a" "idA" 1%nat
      (fresh_state 2 false blank_text_source) = Returned tt st' /\
    count is_call (actions_since (fresh_state 2 false blank_text_source) st')
      = 1%nat /\
    sleeps_of (actions_since (fresh_state 2 false blank_text_source) st')
      = [] /\
    count is_error_event
      (actions_since (fresh_state 2 false blank_text_source) st') = 0%nat /\
    getSecret "a" st' = Some (JStr EmptyString).
Proof.
  split; [reflexivity |]. split; [reflexivity |].
  eexists. split; [vm_compute; reflexivity |].
  repeat split; vm_compute; reflexivity.
Qed.

Lemma C9_cache_entries_were_fetched_witness :
  reachable stale_state /\
  cache_inv stale_state /\
  exists st',
    outcome_state (run (OpRemoveSecretMapping "a") stale_state) = Some st' /\
    cache_inv st'.
Proof.
  split; [exact reachable_stale_state |].
  destruct (C9_cache_entries_were_fetched stale_state
              (OpRemoveSecretMapping "a") reachable_stale_state)
    as (Hinv & (st' & Hout & Hinv' & _) & _).
  split; [exact Hinv |]. exists st'. split; [exact Hout | exact Hinv'].
Defined.

Lemma C10_empty_response_caches_empty_string_witness :
  source (fresh_state 2 false empty_source)
    (calls (fresh_state 2 false empty_source)) "idA"
    = Resolves (Some {| SecretString := None; SecretBinary := None |}) /\
  textPayload {| SecretString := None; SecretBinary := None |} = None /\
  SecretBinary {| SecretString := None; SecretBinary := None |} = None /\
  exists st',
    fetchSecretWithRetry "a" "idA" 1%nat (fresh_state 2 false empty_source)
      = Returned tt st' /\
    getSecret "a" st' = Some (JStr EmptyString) /\
    count is_update_event
      (actions_since (fresh_state 2 false empty_source) st') = 1%nat.
Proof.
  split; [reflexivity |]. split; [reflexivity |]. split; [reflexivity |].
  destruct (C10_empty_response_caches_empty_string
              (fresh_state 2 false empty_source) "a" "idA" 1%nat
              {| SecretString := None; SecretBinary := None |}
              eq_refl eq_refl eq_refl)
    as (st' & Hrun & _ & _ & _ & _ & Hif).
  change (changed (cache (fresh_state 2 false empty_source) !! "a"%string)
            (JsString EmptyString)) with true in Hif.
  destruct Hif as (_ & Hget & Hcount & _).
  exists st'. split; [exact Hrun |]. split; [exact Hget | exact Hcount].
Defined.

(** With [disableEvents] set, the empty string is written to the cache
    and no update notification is emitted. *)
Lemma C10_counterexample :
  exists st',
    fetchSecretWithRetry "a" "idA" 1%nat (fresh_state 2 true empty_source)
      = Returned tt st' /\
    getSecret "a" st' = Some (JStr EmptyString) /\
    count is_update_event
      (actions_since (fresh_state 2 true empty_source) st') = 0%nat.
Proof. eexists. split; [vm_compute; reflexivity |]. split; reflexivity. Qed.

(** * More of the class *)

Section Coverage.
Context `{Platform}.

Implicit Types (st : State) (userId secretId : string) (attempt fuel : nat).

(** ** The fan-out, counted *)

Lemma Promise_all_counted (entries : list (string * string)) : forall st,
  exists st' new,
    outcome_state
      (Promise_all
         (map (fun entry => fetchSecretWithRetry entry.1 entry.2 1%nat)
            entries) st) = Some st' /\
    config st' = config st /\ listeners st' = listeners st /\
    trace st' = trace st ++ new /\
    (disableEvents (config st) = true -> count is_emit new = 0%nat) /\
    (count is_emit new <= length entries)%nat /\
    (length entries <= count is_call new)%nat /\
    (count is_call new <= length entries * S (maxRetries (config st)))%nat /\
    (forall u id, (u, id) ∈ entries ->
       exists r, In (ACall u id 1%nat r) new) /\
    (forall x, x ∉ entries.*1 -> cache st' !! x = cache st !! x).
Proof.
  induction entries as [| [u id] entries IH]; intros st.
  { exists st, []. cbn. rewrite app_nil_r.
    repeat (split; [reflexivity || lia |]).
    split; [intros u id Hin; inversion Hin | reflexivity]. }
  cbn [map Promise_all fst snd].
  destruct (fetchSecretWithRetry_counted u id st)
    as (st1 & new1 & retries & Hout1 & Hconfig1 & Hlisten1 & Htrace1 & Hle
        & Hatt & _ & Hemit1 & Hsilent1 & Hframe1 & (r1 & rest1 & Hhead)).
  destruct (IH st1)
    as (st2 & new2 & Hout2 & Hconfig2 & Hlisten2 & Htrace2 & Hsilent2
        & Hemit2 & Hlow & Hhigh & Hin2 & Hframe2).
  rewrite Hconfig1 in Hsilent2, Hhigh.
  assert (count is_call new1 = S retries) as Hcalls1.
  { rewrite count_calls_attempts, Hatt, length_seq. reflexivity. }
  exists st2, (new1 ++ new2).
  split.
  { destruct (fetchSecretWithRetry u id 1%nat st) as [[] s1 | e s1 |];
      cbn in Hout1; try discriminate; injection Hout1 as ->;
      [exact Hout2 |].
    destruct (Promise_all _ st1) as [[] s2 | e2 s2 |]; cbn in Hout2 |- *;
      try discriminate; exact Hout2. }
  split; [rewrite Hconfig2; exact Hconfig1 |].
  split; [rewrite Hlisten2; exact Hlisten1 |].
  split; [rewrite Htrace2, Htrace1, app_assoc; reflexivity |].
  rewrite !count_app, Hcalls1. cbn [length].
  split; [intros Hd; rewrite (Hsilent1 Hd), (Hsilent2 Hd); reflexivity |].
  split; [lia |]. split; [lia |]. split; [nia |].
  split.
  - intros u' id' Hin. apply elem_of_cons in Hin as [[= -> ->] | Hin].
    + exists r1. apply in_or_app. left. rewrite Hhead. left. reflexivity.
    + destruct (Hin2 u' id' Hin) as (r & Hr). exists r.
      apply in_or_app. right. exact Hr.
  - intros x Hx. cbn in Hx. apply not_elem_of_cons in Hx as [Hne Hx].
    rewrite (Hframe2 x Hx). apply Hframe1. exact Hne.
Qed.

Lemma fetchAllSecrets_counted st :
  exists st' new,
    outcome_state (fetchAllSecrets st) = Some st' /\
    config st' = config st /\ listeners st' = listeners st /\
    trace st' = trace st ++ new /\
    (disableEvents (config st) = true -> count is_emit new = 0%nat) /\
    (count is_emit new <= size (secretMappings (config st)))%nat /\
    (size (secretMappings (config st)) <= count is_call new)%nat /\
    (count is_call new
     <= size (secretMappings (config st)) * S (maxRetries (config st)))%nat /\
    (forall u id, secretMappings (config st) !! u = Some id ->
       exists r, In (ACall u id 1%nat r) new) /\
    (forall x, secretMappings (config st) !! x = None ->
       cache st' !! x = cache st !! x).
Proof.
  rewrite fetchAllSecrets_unfold.
  destruct (Promise_all_counted (map_to_list (secretMappings (config st)))
              (record (ALog Info FetchingAll) st))
    as (st1 & new1 & Hout & Hconfig & Hlisten & Htrace & Hsilent & Hemit
        & Hlow & Hhigh & Hin & Hframe).
  rewrite length_map_to_list in Hemit, Hlow, Hhigh.
  cbn in Hconfig, Hlisten, Htrace, Hsilent, Hhigh, Hframe.
  assert (forall u id, secretMappings (config st) !! u = Some id ->
            exists r, In (ACall u id 1%nat r) new1) as Hin'.
  { intros u id Hu. apply Hin, elem_of_map_to_list, Hu. }
  assert (forall x, secretMappings (config st) !! x = None ->
            cache st1 !! x = cache st !! x) as Hframe'.
  { intros x Hx. apply Hframe. intros Hel.
    apply list_elem_of_fmap in Hel as ([a id] & -> & Hel).
    apply elem_of_map_to_list in Hel. cbn in Hx. congruence. }
  destruct (Promise_all _ _) as [[] s1 | e s1 |]; cbn in Hout;
    try discriminate; injection Hout as ->.
  - eexists _, ([ALog Info FetchingAll] ++ new1
                  ++ [ALog Info FinishedFetchingAll]).
    split; [reflexivity |]. cbn [config listeners trace cache record].
    split; [exact Hconfig |]. split; [exact Hlisten |].
    split; [rewrite Htrace, <- !app_assoc; reflexivity |].
    rewrite !count_app. cbn [count is_emit is_call].
    split; [intros Hd; rewrite (Hsilent Hd); reflexivity |].
    split; [lia |]. split; [lia |]. split; [lia |].
    split; [| exact Hframe'].
    intros u id Hu. destruct (Hin' u id Hu) as (r & Hr). exists r.
    apply in_or_app. right. apply in_or_app. left. exact Hr.
  - eexists _, ([ALog Info FetchingAll] ++ new1).
    split; [reflexivity |].
    split; [exact Hconfig |]. split; [exact Hlisten |].
    split; [rewrite Htrace, <- !app_assoc; reflexivity |].
    rewrite !count_app. cbn [count is_emit is_call].
    split; [intros Hd; rewrite (Hsilent Hd); reflexivity |].
    split; [lia |]. split; [lia |]. split; [lia |].
    split; [| exact Hframe'].
    intros u id Hu. destruct (Hin' u id Hu) as (r & Hr). exists r.
    apply in_or_app. right. exact Hr.
Qed.

(** ** Every operation: what it sends and when it returns *)

Lemma started_quiet st :
  exists new,
    trace (started st) = trace st ++ new /\
    config (started st) = config st /\
    listeners (started st) = listeners st /\
    calls (started st) = calls st /\
    count is_call new = 0%nat /\
    (disableEvents (config st) = true -> count is_emit new = 0%nat).
Proof.
  unfold started. destruct (disableEvents (config st)); eexists; cbn;
    (split; [rewrite <- ?app_assoc; reflexivity |]);
    repeat (split; [reflexivity |]); intros; reflexivity || discriminate.
Qed.

Lemma stop_quiet st :
  exists st' new,
    stopScheduledRefresh st = Returned tt st' /\
    trace st' = trace st ++ new /\
    config st' = config st /\ listeners st' = listeners st /\
    calls st' = calls st /\ cache st' = cache st /\
    count is_call new = 0%nat /\
    (disableEvents (config st) = true -> count is_emit new = 0%nat).
Proof.
  unfold stopScheduledRefresh, unlessEventsDisabled, clearInterval, console,
    bind, modify, gets, Date_now, emit, ret.
  destruct (isRunning st); [destruct (refreshIntervalId st) |]; cbn;
    [destruct (disableEvents (config st)) eqn:Hd; cbn | |];
    eexists _, _; (split; [reflexivity |]); cbn;
    (split; [first [ rewrite <- ?app_assoc; reflexivity
                   | symmetry; apply app_nil_r ] |]);
    repeat (split; [reflexivity |]);
    intros; reflexivity || discriminate.
Qed.

Ltac finish_local :=
  eexists _, _; split; [reflexivity |]; cbn;
  split; [first [ rewrite <- ?app_assoc; reflexivity
                | symmetry; apply app_nil_r ] |];
  split; [first [ reflexivity | assumption ] |];
  split; [let x := fresh in
          let Hx := fresh in
          intros x Hx;
          first [ exact Hx | apply elem_of_app; left; exact Hx ] |];
  split; [intros Hd'; first [ reflexivity | discriminate ] |];
  intros _; split; [reflexivity |]; split; reflexivity.

(** What an operation appends to the trace: no notification when events
    are disabled, and no call of the Secret Source unless it is one of the
    three operations that fetch; those others always return. *)
Lemma run_trace op st :
  exists st' new,
    outcome_state (run op st) = Some st' /\
    trace st' = trace st ++ new /\
    disableEvents (config st') = disableEvents (config st) /\
    (forall name, name ∈ listeners st -> name ∈ listeners st') /\
    (disableEvents (config st) = true -> count is_emit new = 0%nat) /\
    (fetches op = false ->
     run op st = Returned tt st' /\
     count is_call new = 0%nat /\ calls st' = calls st).
Proof.
  destruct op as [name | | u | | | u sid | u | | |]; cbn [run fetches].
  - (* on *)
    unfold on, modify. finish_local.
  - (* initialize *)
    rewrite initialize_unfold.
    destruct (fetchAllSecrets_counted st)
      as (st1 & new1 & Hout & Hconfig & Hlisten & Htrace & Hsilent & _).
    destruct (fetchAllSecrets st) as [[] s1 | e s1 |]; cbn in Hout;
      try discriminate; injection Hout as ->.
    + destruct (isRunning st1) eqn:Hr.
      * rewrite (start_when_running _ Hr). exists st1, new1.
        split; [reflexivity |]. split; [exact Htrace |].
        split; [rewrite Hconfig; reflexivity |].
        split; [intros name; rewrite Hlisten; auto |].
        split; [exact Hsilent | discriminate].
      * rewrite (start_when_stopped _ Hr).
        destruct (started_quiet st1)
          as (new2 & Htrace2 & Hconfig2 & Hlisten2 & _ & _ & Hsilent2).
        exists (started st1), (new1 ++ new2).
        split; [reflexivity |].
        split; [rewrite Htrace2, Htrace, app_assoc; reflexivity |].
        split; [rewrite Hconfig2, Hconfig; reflexivity |].
        split; [intros name; rewrite Hlisten2, Hlisten; auto |].
        split; [| discriminate].
        intros Hd. rewrite count_app, (Hsilent Hd), Hsilent2;
          [reflexivity | rewrite Hconfig; exact Hd].
    + exists st1, new1.
      split; [reflexivity |]. split; [exact Htrace |].
      split; [rewrite Hconfig; reflexivity |].
      split; [intros name; rewrite Hlisten; auto |].
      split; [exact Hsilent | discriminate].
  - (* getSecret *)
    unfold bind, gets, ret. finish_local.
  - (* getAllSecrets *)
    unfold bind, gets, ret. finish_local.
  - (* stopScheduledRefresh *)
    destruct (stop_quiet st)
      as (st' & new & Hstop & Htrace & Hconfig & Hlisten & Hcalls & _ & Hnone
          & Hsilent).
    exists st', new. rewrite Hstop. split; [reflexivity |].
    split; [exact Htrace |]. split; [rewrite Hconfig; reflexivity |].
    split; [intros name; rewrite Hlisten; auto |].
    split; [exact Hsilent | auto].
  - (* addSecretMapping *)
    rewrite addSecretMapping_unfold.
    destruct (fetchSecretWithRetry_counted u sid
                (set_secretMappings (object_set u sid) st))
      as (st' & new & retries & Hout & Hconfig & Hlisten & Htrace & _ & _ & _
          & _ & Hsilent & _).
    exists st', new. split; [exact Hout |]. split; [exact Htrace |].
    split; [rewrite Hconfig; reflexivity |].
    split; [intros name; rewrite Hlisten; auto |].
    split; [exact Hsilent | discriminate].
  - (* removeSecretMapping *)
    unfold removeSecretMapping, unlessEventsDisabled, bind, modify, gets,
      Date_now, emit, ret. cbn.
    destruct (disableEvents (config st)) eqn:Hd; cbn; finish_local.
  - (* clearCache *)
    set (st0 := set_cache (fun _ => ∅) st).
    assert (exists st1 new1,
              (if isRunning st0 then stopScheduledRefresh else ret tt) st0
              = Returned tt st1 /\
              trace st1 = trace st ++ new1 /\
              config st1 = config st /\ listeners st1 = listeners st /\
              calls st1 = calls st /\ count is_call new1 = 0%nat /\
              (disableEvents (config st) = true ->
               count is_emit new1 = 0%nat))
      as (st1 & new1 & Heq & Htrace & Hconfig & Hlisten & Hcalls & Hnone
          & Hsilent).
    { destruct (isRunning st0).
      - destruct (stop_quiet st0)
          as (st1 & new1 & Hstop & Htrace & Hconfig & Hlisten & Hcalls & _
              & Hnone & Hsilent).
        exists st1, new1. auto 10.
      - exists st0, []. subst st0. cbn. rewrite app_nil_r. auto 10. }
    unfold clearCache, bind, modify, gets. fold st0. rewrite Heq.
    unfold unlessEventsDisabled, bind, gets, Date_now, emit, ret.
    rewrite Hconfig.
    destruct (disableEvents (config st)) eqn:Hd.
    + exists st1, new1. split; [reflexivity |]. split; [exact Htrace |].
      split; [rewrite Hconfig; exact Hd |].
      split; [intros name; rewrite Hlisten; auto |].
      split; [exact Hsilent | auto].
    + eexists _, (new1 ++ [_]). split; [reflexivity |]. cbn.
      split; [rewrite Htrace, app_assoc; reflexivity |].
      split; [rewrite Hconfig; exact Hd |].
      split; [intros name; rewrite Hlisten; auto |].
      split; [discriminate |].
      intros _. split; [reflexivity |].
      rewrite count_app, Hnone. auto.
  - (* getCacheStats *)
    unfold bind, gets, ret. finish_local.
  - (* the timer fires *)
    unfold scheduledRefresh, bind, try_catch, console, modify.
    destruct (fetchAllSecrets_counted (record (ALog Info RefreshTriggered) st))
      as (st1 & new1 & Hout & Hconfig & Hlisten & Htrace & Hsilent & _).
    cbn in Hconfig, Hlisten, Htrace, Hsilent.
    destruct (fetchAllSecrets _) as [[] s1 | e s1 |]; cbn in Hout;
      try discriminate; injection Hout as ->.
    + exists st1, ([ALog Info RefreshTriggered] ++ new1).
      split; [reflexivity |].
      split; [rewrite Htrace, <- app_assoc; reflexivity |].
      split; [rewrite Hconfig; reflexivity |].
      split; [intros name; rewrite Hlisten; auto |].
      split; [| discriminate].
      intros Hd. rewrite count_app, (Hsilent Hd). reflexivity.
    + unfold unlessEventsDisabled, bind, gets, Date_now, emit, ret. cbn.
      rewrite Hconfig.
      destruct (disableEvents (config st)) eqn:Hd; cbn;
        [| destruct (bool_decide (EvError ∈ listeners st1))];
        eexists _, ([ALog Info RefreshTriggered] ++ new1 ++ _);
        (split; [reflexivity |]); cbn;
        (split; [rewrite Htrace, <- ?app_assoc; reflexivity |]);
        (split; [rewrite Hconfig; exact Hd |]);
        (split; [intros name; rewrite Hlisten; auto |]);
        (split; [| discriminate]);
        intros Hd'; try discriminate;
        rewrite !count_app, (Hsilent eq_refl); reflexivity.
Qed.

Lemma run_returns_when_handled op st :
  errors_handled st -> exists st', run op st = Returned tt st'.
Proof.
  intros Hh.
  destruct (fetches op) eqn:Hf.
  - destruct op; try discriminate; cbn [run].
    + apply initialize_resolves_when_errors_handled. exact Hh.
    + rewrite addSecretMapping_unfold.
      destruct (fetchSecretWithRetry_total userId secretId 1%nat
                  (set_secretMappings (object_set userId secretId) st))
        as (st' & new & _ & _ & Hret).
      exists st'. apply Hret. exact Hh.
    + destruct (scheduledRefresh_effect st) as (st' & new & _ & _ & Hret).
      exists st'. apply Hret. exact Hh.
  - destruct (run_trace op st) as (st' & new & _ & _ & _ & _ & _ & Hlocal).
    exists st'. apply Hlocal. exact Hf.
Qed.

(** * Further properties *)

(** X1.  Whatever the Secret Source answers, one [fetchSecretWithRetry]
    ends after at least one and at most [maxRetries + 1] calls, made at the
    attempts [1, 2, ..]; before the retry that follows attempt [k],
    [setTimeout] is given the double [retryDelay * Math.pow(2, k - 1)];
    and it sends at most one notification, so never both an update and an
    error. *)
Theorem fetch_is_bounded userId secretId st :
  exists st' retries,
    outcome_state (fetchSecretWithRetry userId secretId 1%nat st) = Some st' /\
    (retries <= maxRetries (config st))%nat /\
    attempts_of (actions_since st st') = seq 1 (S retries) /\
    count is_call (actions_since st st') = S retries /\
    sleeps_of (actions_since st st')
      = map (fun k => (retryDelay (config st) * Math_pow2 (Z.of_nat k - 1))%float)
          (seq 1 retries) /\
    (count is_emit (actions_since st st') <= 1)%nat /\
    (count is_update_event (actions_since st st')
     + count is_error_event (actions_since st st') <= 1)%nat.
Proof.
  destruct (fetchSecretWithRetry_counted userId secretId st)
    as (st' & new & retries & Hout & _ & _ & Htrace & Hle & Hatt & Hsl & Hemit
        & _).
  exists st', retries. rewrite (actions_since_app _ _ _ Htrace).
  split; [exact Hout |]. split; [exact Hle |]. split; [exact Hatt |].
  split; [rewrite count_calls_attempts, Hatt, length_seq; reflexivity |].
  split; [exact Hsl |]. split; [exact Hemit |].
  pose proof (count_update_error_le_emit new). lia.
Qed.

(** X2.  One [fetchSecretWithRetry], whatever its outcome, leaves every
    other alias of the cache as it was, and does not touch the registry,
    the listeners or the scheduler. *)
Theorem fetch_touches_only_its_alias userId secretId st :
  exists st',
    outcome_state (fetchSecretWithRetry userId secretId 1%nat st) = Some st' /\
    (forall x, x <> userId -> getSecret x st' = getSecret x st) /\
    config st' = config st /\
    listeners st' = listeners st /\
    isRunning st' = isRunning st /\
    refreshIntervalId st' = refreshIntervalId st /\
    timers st' = timers st.
Proof.
  destruct (fetchSecretWithRetry_counted userId secretId st)
    as (st' & new & retries & Hout & _ & _ & _ & _ & _ & _ & _ & _ & Hframe
        & _).
  destruct (fetchSecretWithRetry_total userId secretId 1%nat st)
    as (st'' & new' & Hout' & Heff & _).
  rewrite Hout in Hout'. injection Hout' as <-.
  destruct Heff as (A1 & A2 & A3 & A4 & _ & A6 & _).
  exists st'. split; [exact Hout |].
  split; [| auto 10].
  intros x Hx. unfold getSecret. rewrite (Hframe x Hx). reflexivity.
Qed.

(** X3.  [fetchAllSecrets] does not stop at the first failure: whatever
    the Secret Source answers, and whether the call returns or throws, a
    first attempt is made for every alias of the registry.  The calls of
    one round number at least the size of the registry and at most
    [maxRetries + 1] times that, the notifications at most that size, and
    the entries of aliases outside the registry stay as they are. *)
Theorem fetchAllSecrets_attempts_every_alias st :
  exists st',
    outcome_state (fetchAllSecrets st) = Some st' /\
    (forall alias secretId,
       secretMappings (config st) !! alias = Some secretId ->
       exists r, In (ACall alias secretId 1%nat r) (actions_since st st')) /\
    (size (secretMappings (config st))
     <= count is_call (actions_since st st'))%nat /\
    (count is_call (actions_since st st')
     <= size (secretMappings (config st)) * (maxRetries (config st) + 1))%nat /\
    (count is_emit (actions_since st st')
     <= size (secretMappings (config st)))%nat /\
    (forall x, secretMappings (config st) !! x = None ->
       getSecret x st' = getSecret x st) /\
    config st' = config st.
Proof.
  destruct (fetchAllSecrets_counted st)
    as (st' & new & Hout & Hconfig & _ & Htrace & _ & Hemit & Hlow & Hhigh
        & Hin & Hframe).
  exists st'. rewrite (actions_since_app _ _ _ Htrace).
  split; [exact Hout |]. split; [exact Hin |]. split; [exact Hlow |].
  split; [rewrite Nat.add_1_r; exact Hhigh |]. split; [exact Hemit |].
  split; [| exact Hconfig].
  intros x Hx. unfold getSecret. rewrite (Hframe x Hx). reflexivity.
Qed.

(** X4.  With [disableEvents] set, no operation sends any notification,
    none of them throws, whatever the Secret Source does, and the flag
    stays set. *)
Theorem disabled_events_emit_nothing op st :
  disableEvents (config st) = true ->
  exists st',
    run op st = Returned tt st' /\
    count is_emit (actions_since st st') = 0%nat /\
    disableEvents (config st') = true.
Proof.
  intros Hd.
  destruct (run_trace op st)
    as (st' & new & Hout & Htrace & Hflag & _ & Hsilent & _).
  destruct (run_returns_when_handled op st (or_introl Hd)) as (st'' & Hret).
  rewrite Hret in Hout. injection Hout as ->.
  exists st'. split; [exact Hret |].
  rewrite (actions_since_app _ _ _ Htrace).
  split; [exact (Hsilent Hd) | rewrite Hflag; exact Hd].
Qed.

(** X5.  Once a listener is registered for ['error'], no operation throws,
    whatever the Secret Source does, and the listener stays registered. *)
Theorem error_listener_contains_failures op st :
  EvError ∈ listeners st ->
  exists st', run op st = Returned tt st' /\ EvError ∈ listeners st'.
Proof.
  intros Hl.
  destruct (run_trace op st) as (st' & new & Hout & _ & _ & Hmono & _).
  destruct (run_returns_when_handled op st (or_intror Hl)) as (st'' & Hret).
  rewrite Hret in Hout. injection Hout as ->.
  exists st'. split; [exact Hret | exact (Hmono _ Hl)].
Qed.

(** X6.  Only [initialize], [addSecretMapping] and the timer call the
    Secret Source: every other operation returns, without a call,
    whatever the listeners and the flags are. *)
Theorem local_operations_make_no_call op st :
  fetches op = false ->
  exists st',
    run op st = Returned tt st' /\
    count is_call (actions_since st st') = 0%nat /\
    calls st' = calls st.
Proof.
  intros Hf.
  destruct (run_trace op st) as (st' & new & _ & Htrace & _ & _ & _ & Hlocal).
  destruct (Hlocal Hf) as (Hret & Hnone & Hcalls).
  exists st'. rewrite (actions_since_app _ _ _ Htrace). auto.
Qed.

(** X7.  A refresh cycle of the timer, whether its fetches succeed, fail
    or throw, leaves the scheduler as it was: the timer stays armed, and
    the registry and the listeners are untouched. *)
Theorem refresh_keeps_scheduler st :
  exists st',
    outcome_state (scheduledRefresh st) = Some st' /\
    isRunning st' = isRunning st /\
    refreshIntervalId st' = refreshIntervalId st /\
    timers st' = timers st /\
    config st' = config st /\
    listeners st' = listeners st.
Proof.
  destruct (scheduledRefresh_effect st) as (st' & new & Hout & Heff & _).
  destruct Heff as (A1 & A2 & A3 & A4 & _ & A6 & _).
  exists st'. auto 10.
Qed.

(** X8.  [removeSecretMapping] returns and forgets the alias: it is gone
    from the registry and from the cache, every other alias keeps its
    mapping and its value, the scheduler is untouched, and one remove
    notification for the alias is sent unless events are disabled.
    Removing an alias that is neither mapped nor cached changes neither
    map, and still sends the notification. *)
Theorem removeSecretMapping_forgets_alias userId st :
  exists st',
    removeSecretMapping userId st = Returned tt st' /\
    getSecret userId st' = None /\
    secretMappings (config st') !! userId = None /\
    (forall x, x <> userId ->
       getSecret x st' = getSecret x st /\
       secretMappings (config st') !! x = secretMappings (config st) !! x) /\
    isRunning st' = isRunning st /\ timers st' = timers st /\
    (exists timestamp,
       actions_since st st'
       = if disableEvents (config st) then []
         else [AEmit (RemoveEvent userId timestamp)]) /\
    (cache st !! userId = None -> cache st' = cache st) /\
    (secretMappings (config st) !! userId = None ->
     secretMappings (config st') = secretMappings (config st)).
Proof.
  unfold removeSecretMapping, unlessEventsDisabled, bind, modify, gets,
    Date_now, emit, ret. cbn.
  assert (forall x, x <> userId ->
            value <$> delete userId (cache st) !! x = getSecret x st /\
            delete userId (secretMappings (config st)) !! x
            = secretMappings (config st) !! x) as Hothers.
  { intros x Hx. unfold getSecret.
    rewrite !lookup_delete_ne by congruence. auto. }
  destruct (disableEvents (config st)); eexists; (split; [reflexivity |]);
    unfold getSecret; cbn; rewrite !lookup_delete_eq;
    (split; [reflexivity |]); (split; [reflexivity |]);
    (split; [exact Hothers |]);
    (split; [reflexivity |]); (split; [reflexivity |]);
    (split; [exists (clock st); apply actions_since_app; cbn;
             first [ reflexivity | symmetry; apply app_nil_r ] |]);
    split; apply delete_id.
Qed.

(** X9.  Adding a mapping and removing it again, whatever the fetch in
    between did, leaves no trace of the alias in the cache or in the
    registry, and every other alias keeps its value. *)
Theorem add_then_remove_round_trip userId secretId st :
  exists st1 st2,
    outcome_state (addSecretMapping userId secretId st) = Some st1 /\
    removeSecretMapping userId st1 = Returned tt st2 /\
    getSecret userId st2 = None /\
    secretMappings (config st2) = delete userId (secretMappings (config st)) /\
    (forall x, x <> userId -> getSecret x st2 = getSecret x st).
Proof.
  rewrite addSecretMapping_unfold.
  destruct (fetchSecretWithRetry_counted userId secretId
              (set_secretMappings (object_set userId secretId) st))
    as (st1 & new & retries & Hout & Hconfig & _ & _ & _ & _ & _ & _ & _
        & Hframe & _).
  destruct (removeSecretMapping_returns userId st1)
    as (st2 & new2 & Hrem & Hcache & Hreg & _).
  exists st1, st2. split; [exact Hout |]. split; [exact Hrem |].
  unfold getSecret. rewrite Hcache, Hreg, Hconfig. cbn.
  split; [rewrite lookup_delete_eq; reflexivity |].
  split; [apply delete_object_set |].
  intros x Hx. rewrite lookup_delete_ne by congruence.
  rewrite (Hframe x Hx). reflexivity.
Qed.

(** X10.  The readers and the alias ["__proto__"].  For every other
    alias, the object of [getAllSecrets] holds what [getSecret] answers;
    it never holds an own entry for ["__proto__"], also when the cache has
    one, which [getSecret] answers and [getCacheStats] counts: the size
    of [getCacheStats] is the number of entries of [getAllSecrets], plus
    one when ["__proto__"] is cached.  The size is 0 exactly when
    [getSecret] answers nothing for every alias. *)
Theorem readers_agree st :
  (forall userId, userId <> "__proto__"%string ->
     getAllSecrets st !! userId = getSecret userId st) /\
  getAllSecrets st !! "__proto__"%string = None /\
  getCacheStats st
    = (size (getAllSecrets st)
       + match cache st !! "__proto__"%string with
         | Some _ => 1
         | None => 0
         end)%nat /\
  (getCacheStats st = 0%nat <-> forall userId, getSecret userId st = None).
Proof.
  unfold getAllSecrets, getSecret, getCacheStats.
  split.
  { intros userId Hne. rewrite lookup_fmap, lookup_delete_ne by congruence.
    reflexivity. }
  split; [rewrite lookup_fmap, lookup_delete_eq; reflexivity |].
  split.
  { rewrite map_size_fmap.
    destruct (cache st !! "__proto__"%string) as [entry |] eqn:Hp.
    - rewrite <- (insert_delete_id (cache st) "__proto__"%string entry Hp)
        at 1.
      rewrite map_size_insert_None by apply lookup_delete_eq. lia.
    - rewrite delete_id by exact Hp. lia. }
  rewrite map_size_empty_iff. split.
  - intros -> userId. rewrite lookup_empty. reflexivity.
  - intros Hnone. apply map_eq. intros userId. rewrite lookup_empty.
    specialize (Hnone userId).
    destruct (cache st !! userId); [discriminate | reflexivity].
Qed.

(** X11.  A successful answer whose value does not serialize like the
    cached one (or with nothing cached) replaces the entry: [getSecret]
    then answers the new value, and the one update notification, sent
    unless events are disabled, carries that value and the [fetchedAt] of
    the new entry. *)
Theorem changed_value_is_overwritten st userId secretId attempt response v :
  source st (calls st) secretId = Resolves (Some response) ->
  secretValueOf response = inr v ->
  (forall entry, cache st !! userId = Some entry ->
     JSON_stringify (value entry) <> JSON_stringify v) ->
  exists st' t,
    fetchSecretWithRetry userId secretId attempt st = Returned tt st' /\
    cache st' !! userId = Some {| value := v; fetchedAt := t |} /\
    getSecret userId st' = Some v /\
    updates_of (actions_since st st')
      = (if disableEvents (config st) then [] else [(userId, v, t)]) /\
    count is_call (actions_since st st') = 1%nat.
Proof.
  intros Hsrc Hv Hdiff.
  assert (attempt_result secretId (source st (calls st) secretId) = inr v)
    as Hr by (rewrite Hsrc; exact Hv).
  assert (changed (cache st !! userId) v = true) as Hch.
  { destruct (cache st !! userId) as [entry |]; [| reflexivity].
    cbn. apply bool_decide_eq_true_2. auto. }
  destruct (store_spec userId secretId attempt st v)
    as (_ & _ & _ & _ & Hcache & Htrace).
  rewrite Hch in Hcache, Htrace.
  eexists _, (clock st).
  split; [exact (fetch_first_answer_decodes _ _ _ _ _ Hr) |].
  unfold getSecret. rewrite Hcache, lookup_insert_eq.
  split; [reflexivity |]. split; [reflexivity |].
  rewrite (actions_since_app _ _ _ Htrace).
  destruct (disableEvents (config st)); split; reflexivity.
Qed.

(** X12.  An empty [SecretString] is not parsed: the response is read as
    one without text.  The fetch succeeds with one call, and what is
    cached has the serialization of the binary payload decoded as text,
    or of the empty string when there is no binary payload. *)
Theorem empty_text_falls_back st userId secretId attempt binary :
  source st (calls st) secretId
    = Resolves (Some {| SecretString := Some EmptyString;
                        SecretBinary := binary |}) ->
  exists st' v',
    fetchSecretWithRetry userId secretId attempt st = Returned tt st' /\
    count is_call (actions_since st st') = 1%nat /\
    count is_error_event (actions_since st st') = 0%nat /\
    getSecret userId st' = Some v' /\
    JSON_stringify v'
      = JSON_stringify
          (JsString (match binary with
                     | Some bytes => Buffer_toString_utf8 bytes
                     | None => EmptyString
                     end)).
Proof.
  intros Hsrc.
  set (v := JsString (match binary with
                      | Some bytes => Buffer_toString_utf8 bytes
                      | None => EmptyString
                      end)).
  assert (attempt_result secretId (source st (calls st) secretId) = inr v)
    as Hr by (rewrite Hsrc; destruct binary; reflexivity).
  destruct (store_spec userId secretId attempt st v)
    as (_ & _ & _ & _ & Hcache & Htrace).
  eexists. 
  assert (exists v', (value <$> (if changed (cache st !! userId) v
            then <[userId := {| value := v; fetchedAt := clock st |}]>
                   (cache st)
            else cache st) !! userId) = Some v' /\
            JSON_stringify v' = JSON_stringify v) as (v' & Hget & Hser).
  { destruct (changed (cache st !! userId) v) eqn:Hch.
    - exists v. rewrite lookup_insert_eq. auto.
    - destruct (unchanged_serialization _ _ Hch) as (entry & Hentry & Hser).
      exists (value entry). rewrite Hentry. auto. }
  exists v'.
  split; [exact (fetch_first_answer_decodes _ _ _ _ _ Hr) |].
  unfold getSecret. rewrite Hcache, (actions_since_app _ _ _ Htrace).
  split; [| split; [| split; [exact Hget | exact Hser]]];
    destruct (changed _ _); [destruct (disableEvents _) | | 
                             destruct (disableEvents _) |]; reflexivity.
Qed.

(** X13.  With an empty registry (every alias was removed),
    [fetchAllSecrets] returns without any call or notification, and leaves
    the cache as it is. *)
Theorem fetchAllSecrets_on_empty_registry st :
  secretMappings (config st) = ∅ ->
  exists st',
    fetchAllSecrets st = Returned tt st' /\
    actions_since st st'
      = [ALog Info FetchingAll; ALog Info FinishedFetchingAll] /\
    cache st' = cache st /\ calls st' = calls st.
Proof.
  intros Hempty. rewrite fetchAllSecrets_unfold, Hempty, map_to_list_empty.
  cbn. eexists. split; [reflexivity |].
  split; [| split; reflexivity].
  apply actions_since_app. cbn. rewrite <- app_assoc. reflexivity.
Qed.

(** ** Retries that do not end well *)

Lemma exhausting_run_error fuel : forall userId secretId attempt st,
  (attempt <= S (maxRetries (config st)))%nat ->
  (S (maxRetries (config st)) < attempt + fuel)%nat ->
  (forall i, (attempt + i <= S (maxRetries (config st)))%nat ->
     attempt_fails secretId (source st (calls st + i)%nat secretId) = true) ->
  disableEvents (config st) = false ->
  exists st' new error,
    outcome_state (fetchSecretWithRetry_fuel fuel userId secretId attempt st)
      = Some st' /\
    trace st' = trace st ++ new /\
    attempt_result secretId
      (source st (calls st + (S (maxRetries (config st)) - attempt))%nat
         secretId) = inl error /\
    errors_notified userId new = [error].
Proof.
  induction fuel as [| fuel IH]; intros userId secretId attempt st Hle Hfuel
    Hfail Hev.
  { lia. }
  pose proof (Hfail 0%nat ltac:(lia)) as H0. rewrite Nat.add_0_r in H0.
  unfold attempt_fails in H0.
  destruct (attempt_result secretId (source st (calls st) secretId))
    as [error | v] eqn:Hr; [clear H0 | discriminate].
  rewrite (fetch_step_fails _ _ _ _ _ _ Hr).
  destruct (le_gt_dec attempt (maxRetries (config st))) as [Hretry | Hlast].
  - rewrite catch_retries by exact Hretry.
    destruct (IH userId secretId (attempt + 1)%nat
                (before_retry userId attempt error
                   (after_call userId secretId attempt st)))
      as (st' & new & last & Hout & Htrace & Hlast & Hnotified).
    { cbn. lia. }
    { cbn. lia. }
    { intros i Hi. cbn in Hi |- *.
      pose proof (Hfail (S i) ltac:(lia)) as HSi.
      replace (calls st + S i)%nat with (S (calls st + i)) in HSi by lia.
      exact HSi. }
    { exact Hev. }
    cbn in Htrace, Hlast.
    replace (S (calls st + (S (maxRetries (config st)) - (attempt + 1))))
      with (calls st + (S (maxRetries (config st)) - attempt))%nat
      in Hlast by lia.
    exists st'. eexists (_ :: _ :: _ :: new), last.
    split; [exact Hout |].
    split; [rewrite Htrace, <- !app_assoc; reflexivity |].
    split; [exact Hlast | exact Hnotified].
  - rewrite catch_reports by (cbn; lia). unfold report_failure. cbn.
    rewrite Hev.
    replace (S (maxRetries (config st)) - attempt)%nat with 0%nat by lia.
    rewrite Nat.add_0_r.
    destruct (bool_decide (EvError ∈ listeners st));
      eexists _, _, error; cbn;
      (split; [reflexivity |]);
      (split; [cbn; rewrite <- ?app_assoc; reflexivity |]);
      (split; [exact Hr |]);
      cbn; rewrite bool_decide_eq_true_2 by reflexivity; reflexivity.
Qed.

(** X14.  A transient failure is recovered: when the first [j] answers
    fail, with [j <= maxRetries], and the next one decodes to [v], the
    fetch returns after [j + 1] calls and [j] suspensions, for which
    [setTimeout] is given the doubles [retryDelay * Math.pow(2, k - 1)],
    [k = 1 .. j]; no error notification is sent, and [getSecret] then
    answers a value with the serialization of [v] ([v] itself when
    nothing was cached). *)
Theorem fetch_recovers_after_failures st userId secretId (j : nat)
    response v :
  (j <= maxRetries (config st))%nat ->
  (forall i, (i < j)%nat ->
     attempt_fails secretId (source st (calls st + i)%nat secretId) = true) ->
  source st (calls st + j)%nat secretId = Resolves (Some response) ->
  secretValueOf response = inr v ->
  exists st' v',
    fetchSecretWithRetry userId secretId 1%nat st = Returned tt st' /\
    count is_call (actions_since st st') = (j + 1)%nat /\
    sleeps_of (actions_since st st')
      = map (fun k => (retryDelay (config st) * Math_pow2 (Z.of_nat k - 1))%float)
          (seq 1 j) /\
    suspensions_of (actions_since st st')
      = map (fun k => armed (retryDelay (config st)
                             * Math_pow2 (Z.of_nat k - 1))%float)
          (seq 1 j) /\
    count is_error_event (actions_since st st') = 0%nat /\
    getSecret userId st' = Some v' /\
    JSON_stringify v' = JSON_stringify v /\
    (cache st !! userId = None -> v' = v).
Proof.
  intros Hj Hfail Hsrc Hv.
  assert (attempt_result secretId (source st (calls st + j)%nat secretId)
          = inr v) as Hr by (rewrite Hsrc; exact Hv).
  destruct (fetch_recovers st userId secretId j v Hj Hfail Hr)
    as (st' & v' & Hrun & Hcalls & Hsl & Herr & Hget & Hser & Hnew).
  exists st', v'. split; [exact Hrun |]. split; [exact Hcalls |].
  split; [exact Hsl |].
  split.
  { unfold suspensions_of. rewrite Hsl. change (map ?f ?l) with (f <$> l).
    rewrite <- list_fmap_compose. reflexivity. }
  split; [exact Herr |]. split; [exact Hget |]. split; [exact Hser |].
  intros Hnone. apply Hnew. rewrite Hnone. reflexivity.
Qed.

(** X15.  The error notification of an exhausted fetch carries the error
    of the last attempt: with events enabled, exactly one error
    notification is sent for the alias, and its error is the one the
    answer to call [maxRetries + 1] amounts to. *)
Theorem exhausted_fetch_reports_last_error st userId secretId :
  exhausts secretId st ->
  disableEvents (config st) = false ->
  exists st' error,
    outcome_state (fetchSecretWithRetry userId secretId 1%nat st) = Some st' /\
    attempt_result secretId
      (source st (calls st + maxRetries (config st))%nat secretId)
      = inl error /\
    errors_notified userId (actions_since st st') = [error].
Proof.
  intros Hex Hev.
  destruct (exhausting_run_error (S (S (maxRetries (config st)) - 1)) userId
              secretId 1%nat st)
    as (st' & new & error & Hout & Htrace & Hlast & Hnotified);
    [lia | lia | intros i Hi; apply Hex; lia | exact Hev |].
  replace (S (maxRetries (config st)) - 1)%nat with (maxRetries (config st))
    in Hlast by lia.
  exists st', error. rewrite (actions_since_app _ _ _ Htrace). auto.
Qed.

(** ** [initialize] and the timer *)

Lemma started_fields st :
  cache (started st) = cache st /\
  config (started st) = config st /\
  isRunning (started st) = true /\
  refreshIntervalId (started st) = Some (nextHandle st) /\
  timers (started st)
    = <[nextHandle st := refreshInterval (config st)]> (timers st).
Proof.
  unfold started. destruct (disableEvents (config st)); cbn; auto.
Qed.

(** X17.  [initialize] on an object with an empty cache and a stopped
    scheduler, against a source that answers every identifier of the
    registry with a decodable payload: it returns, [getSecret] answers
    the decoded value for every alias of the registry and nothing for
    any other alias, [getCacheStats] is the size of the registry, and
    the scheduler runs with exactly one timer, the one [setInterval] was
    asked for with [refreshInterval]; it fires at the period Node arms
    for that, which is [refreshInterval] when that is a whole number of
    milliseconds between [1] and [TIMEOUT_MAX]. *)
Theorem initialize_populates_and_starts st
    (payload : string -> GetSecretValueCommandOutput)
    (decoded : string -> JsValue) :
  cache st = ∅ -> isRunning st = false -> timers st = ∅ ->
  (forall alias id, secretMappings (config st) !! alias = Some id ->
     secretValueOf (payload id) = inr (decoded id) /\
     forall n, source st n id = Resolves (Some (payload id))) ->
  exists st',
    initialize st = Returned tt st' /\
    (forall alias id, secretMappings (config st) !! alias = Some id ->
       getSecret alias st' = Some (decoded id)) /\
    (forall alias, secretMappings (config st) !! alias = None ->
       getSecret alias st' = None) /\
    getCacheStats st' = size (secretMappings (config st)) /\
    isRunning st' = true /\
    exists h,
      refreshIntervalId st' = Some h /\
      timers st' = {[ h := refreshInterval (config st) ]} /\
      armed_timers st' = {[ h := armed (refreshInterval (config st)) ]} /\
      (PrimFloat.leb 1 (refreshInterval (config st)) = true ->
       PrimFloat.leb (refreshInterval (config st)) TIMEOUT_MAX = true ->
       Math_trunc (refreshInterval (config st)) = refreshInterval (config st) ->
       armed_timers st' = {[ h := refreshInterval (config st) ]}).
Proof.
  intros Hempty Hstopped Htimers Hsteady.
  set (entries := map_to_list (secretMappings (config st))).
  destruct (fanout_fresh payload decoded entries
              (record (ALog Info FetchingAll) st))
    as (st1 & new1 & Hall & Hconfig1 & _ & _ & Hother & Hin & _).
  { apply NoDup_fst_map_to_list. }
  { intros alias id Hel. apply (Hsteady alias).
    apply elem_of_map_to_list. exact Hel. }
  { intros alias _. cbn. rewrite Hempty. apply lookup_empty. }
  cbn in Hconfig1, Hother.
  assert (fetchAllSecrets st
          = Returned tt (record (ALog Info FinishedFetchingAll) st1)) as Hfa.
  { rewrite fetchAllSecrets_unfold. fold entries. rewrite Hall. reflexivity. }
  destruct (fetchAllSecrets_effect st) as (s1 & n1 & Hout & Heff & _).
  rewrite Hfa in Hout. injection Hout as <-.
  destruct Heff as (_ & _ & Hrun & _ & _ & Htm & _).
  set (st2 := record (ALog Info FinishedFetchingAll) st1) in *.
  assert (isRunning st2 = false) as Hr2 by (rewrite Hrun; exact Hstopped).
  destruct (started_fields st2) as (Hc & Hcfg & Hr & Hid & Ht).
  assert (forall alias id, secretMappings (config st) !! alias = Some id ->
            getSecret alias (started st2) = Some (decoded id)) as Hcached.
  { intros alias id Hreg. unfold getSecret. rewrite Hc.
    destruct (Hin alias id) as (entry & Hentry & Hvalue).
    { apply elem_of_map_to_list. exact Hreg. }
    change (cache st2) with (cache st1). rewrite Hentry. cbn.
    rewrite Hvalue. reflexivity. }
  assert (forall alias, secretMappings (config st) !! alias = None ->
            getSecret alias (started st2) = None) as Habsent.
  { intros alias Hreg. unfold getSecret. rewrite Hc.
    change (cache st2) with (cache st1). rewrite Hother.
    - rewrite Hempty, lookup_empty. reflexivity.
    - intros Hel. apply list_elem_of_fmap in Hel as ([a id] & -> & Hel).
      apply elem_of_map_to_list in Hel. cbn in Hreg. congruence. }
  exists (started st2).
  split; [rewrite initialize_unfold, Hfa; exact (start_when_stopped _ Hr2) |].
  split; [exact Hcached |]. split; [exact Habsent |].
  split.
  { unfold getCacheStats.
    rewrite <- (size_dom (D := gset string) (cache (started st2))),
            <- (size_dom (D := gset string) (secretMappings (config st))).
    f_equal. apply set_eq. intros alias. rewrite !elem_of_dom.
    destruct (secretMappings (config st) !! alias) as [id |] eqn:Hreg.
    - specialize (Hcached alias id Hreg). unfold getSecret in Hcached.
      destruct (cache (started st2) !! alias); [| discriminate].
      split; eauto.
    - specialize (Habsent alias Hreg). unfold getSecret in Habsent.
      destruct (cache (started st2) !! alias); [discriminate |].
      split; intros [? ?]; discriminate. }
  split; [exact Hr |].
  assert (timers (started st2)
          = {[ nextHandle st2 := refreshInterval (config st) ]}) as Hone.
  { rewrite Ht, Htm, Htimers.
    change (config st2) with (config st1). rewrite Hconfig1. reflexivity. }
  assert (armed_timers (started st2)
          = {[ nextHandle st2 := armed (refreshInterval (config st)) ]})
    as Harmed.
  { unfold armed_timers. rewrite Hone. apply map_fmap_singleton. }
  exists (nextHandle st2). split; [exact Hid |]. split; [exact Hone |].
  split; [exact Harmed |].
  intros Hlow Hhigh Hwhole.
  rewrite Harmed, (armed_exact _ Hlow Hhigh Hwhole). reflexivity.
Qed.

(** X18.  [initialize] never arms a second timer.  On an object whose
    scheduler already runs, whatever the fetches do, the armed timer and
    [refreshIntervalId] stay the ones they were and no handle is
    allocated; and whenever [initialize] returns, the scheduler runs with
    exactly one timer armed, the one of [refreshIntervalId]. *)
Theorem initialize_arms_one_timer st :
  reachable st ->
  exists st',
    outcome_state (initialize st) = Some st' /\
    (isRunning st = true ->
       isRunning st' = true /\ timers st' = timers st /\
       refreshIntervalId st' = refreshIntervalId st /\
       nextHandle st' = nextHandle st) /\
    (forall st'', initialize st = Returned tt st'' ->
       isRunning st'' = true /\
       exists h period,
         refreshIntervalId st'' = Some h /\ timers st'' = {[ h := period ]}).
Proof.
  intros Hreach. destruct (reachable_inv st Hreach) as [Hinv _].
  rewrite initialize_unfold.
  destruct (fetchAllSecrets_effect st) as (st1 & new1 & Hout & Heff & _).
  pose proof (sched_inv_fetch_effect _ _ _ Heff Hinv) as Hinv1.
  destruct Heff as (_ & Hid & Hrun & _ & _ & Htm & Hnext & _).
  assert (forall s, sched_inv s -> isRunning s = true ->
            isRunning s = true /\
            exists h period,
              refreshIntervalId s = Some h /\ timers s = {[ h := period ]})
    as Hone.
  { intros s Hs Hr. split; [exact Hr |]. unfold sched_inv in Hs.
    rewrite Hr in Hs. exact Hs. }
  destruct (fetchAllSecrets st) as [[] s1 | e s1 |]; cbn in Hout;
    try discriminate; injection Hout as ->.
  - destruct (isRunning st1) eqn:Hr1.
    + rewrite (start_when_running _ Hr1). exists st1.
      split; [reflexivity |].
      split; [intros _; auto |].
      intros st'' [= <-]. exact (Hone st1 Hinv1 Hr1).
    + rewrite (start_when_stopped _ Hr1). exists (started st1).
      split; [reflexivity |].
      split; [intros Hr; rewrite Hr in Hrun; discriminate |].
      intros st'' [= <-].
      apply Hone; [exact (sched_inv_started _ Hinv1 Hr1) |].
      apply started_fields.
  - exists st1. split; [reflexivity |].
    split; [intros Hr; rewrite Hrun; auto | discriminate].
Qed.

Lemma fetchAllSecrets_unhandled st alias secretId :
  secretMappings (config st) = {[ alias := secretId ]} ->
  exhausts secretId st ->
  disableEvents (config st) = false ->
  EvError ∉ listeners st ->
  exists cause timestamp st' new,
    fetchAllSecrets st
      = Thrown (UnhandledError (Some alias) cause timestamp) st' /\
    config st' = config st /\ listeners st' = listeners st /\
    trace st' = trace st ++ new /\
    count is_error_event new = 1%nat.
Proof.
  intros Hreg Hex Hev Hno.
  set (st0 := record (ALog Info FetchingAll) st).
  destruct (exhausting_run (S (S (maxRetries (config st0)) - 1)) alias
              secretId 1%nat st0)
    as (st' & new & Hout & _ & Hconfig & Htrace & _ & _ & Herr & _ & _
        & Hthrow);
    [lia | lia | intros i Hi; apply Hex; cbn in Hi; lia |].
  destruct (Hthrow Hev Hno) as (cause & timestamp & Hrun).
  destruct (fetchSecretWithRetry_total alias secretId 1%nat st0)
    as (st'' & new' & Hout' & Heff & _).
  unfold fetchSecretWithRetry in Hout'. rewrite Hout in Hout'.
  injection Hout' as <-.
  destruct Heff as (_ & _ & _ & Hlisten & _).
  exists cause, timestamp, st', ([ALog Info FetchingAll] ++ new).
  split.
  { rewrite fetchAllSecrets_unfold, Hreg, map_to_list_singleton. cbn [map].
    fold st0. cbn [Promise_all fst snd].
    unfold fetchSecretWithRetry at 1. rewrite Hrun. reflexivity. }
  split; [exact Hconfig |]. split; [exact Hlisten |].
  split; [rewrite Htrace; subst st0; cbn; rewrite <- app_assoc; reflexivity |].
  rewrite count_app, Herr. subst st0. cbn. rewrite Hev. reflexivity.
Qed.

(** X19.  The [catch] of the timer callback does not contain an unhandled
    error event.  With one alias, events enabled and nobody listening to
    ['error'], a refresh cycle whose fetch exhausts its retries calls
    [emit('error', ..)] a second time from the handler of line 95, and
    that call throws too: the cycle ends in a rejection that wraps the
    first one, after two error notifications; the timer stays armed. *)
Theorem scheduledRefresh_unhandled_rethrows st alias secretId :
  secretMappings (config st) = {[ alias := secretId ]} ->
  exhausts secretId st ->
  disableEvents (config st) = false ->
  EvError ∉ listeners st ->
  exists cause t1 t2 st',
    scheduledRefresh st
      = Thrown (UnhandledError None
                  (UnhandledError (Some alias) cause t1) t2) st' /\
    count is_error_event (actions_since st st') = 2%nat /\
    isRunning st' = isRunning st /\ timers st' = timers st.
Proof.
  intros Hreg Hex Hev Hno.
  destruct (fetchAllSecrets_unhandled (record (ALog Info RefreshTriggered) st)
              alias secretId Hreg Hex Hev Hno)
    as (cause & t1 & st1 & new & Hfa & Hconfig & Hlisten & Htrace & Herr).
  destruct (scheduledRefresh_effect st) as (st' & new' & Hout & Heff & _).
  destruct Heff as (_ & _ & Hrun & _ & _ & Htm & _).
  cbn in Hconfig, Hlisten, Htrace.
  assert (scheduledRefresh st
          = Thrown (UnhandledError None
                      (UnhandledError (Some alias) cause t1) (clock st1))
              (record (AEmit (ErrorEvent None
                        (UnhandledError (Some alias) cause t1) (clock st1)))
                 st1)) as Hrefresh.
  { unfold scheduledRefresh, bind, try_catch, console, modify.
    rewrite Hfa.
    unfold unlessEventsDisabled, bind, gets, Date_now, emit.
    rewrite Hconfig, Hev. cbn.
    rewrite Hlisten, bool_decide_eq_false_2 by exact Hno.
    reflexivity. }
  rewrite Hrefresh in Hout. injection Hout as <-.
  exists cause, t1, (clock st1). eexists.
  split; [exact Hrefresh |].
  split; [| auto].
  erewrite actions_since_app
    by (cbn; rewrite Htrace, <- !app_assoc; reflexivity).
  rewrite !count_app, Herr. reflexivity.
Qed.

End Coverage.

(** * The further properties on concrete objects *)

Lemma disabled_events_emit_nothing_witness :
  disableEvents (config (fresh_state 2 true failing_source)) = true /\
  exists st',
    run OpInitialize (fresh_state 2 true failing_source) = Returned tt st' /\
    count is_emit (actions_since (fresh_state 2 true failing_source) st')
      = 0%nat.
Proof.
  split; [reflexivity |].
  destruct (disabled_events_emit_nothing OpInitialize
              (fresh_state 2 true failing_source) eq_refl)
    as (st' & Hrun & Hnone & _).
  exists st'. split; [exact Hrun | exact Hnone].
Defined.

Lemma error_listener_contains_failures_witness :
  EvError ∈ listeners listening_state /\
  exists st', run OpInitialize listening_state = Returned tt st'.
Proof.
  assert (EvError ∈ listeners listening_state) as Hl.
  { vm_compute. apply list_elem_of_here. }
  split; [exact Hl |].
  destruct (error_listener_contains_failures OpInitialize listening_state Hl)
    as (st' & Hrun & _).
  exists st'. exact Hrun.
Defined.

Lemma local_operations_make_no_call_witness :
  fetches OpClearCache = false /\
  exists st',
    run OpClearCache running_state = Returned tt st' /\
    count is_call (actions_since running_state st') = 0%nat.
Proof.
  split; [reflexivity |].
  destruct (local_operations_make_no_call OpClearCache running_state eq_refl)
    as (st' & Hrun & Hnone & _).
  exists st'. split; [exact Hrun | exact Hnone].
Defined.

Lemma changed_value_is_overwritten_witness :
  source rotated_state (calls rotated_state) "idA"
    = Resolves (Some {| SecretString := Some "false"%string;
                        SecretBinary := None |}) /\
  getSecret "a" rotated_state = Some (JBool true) /\
  exists st',
    fetchSecretWithRetry "a" "idA" 1%nat rotated_state = Returned tt st' /\
    getSecret "a" st' = Some (JBool false).
Proof.
  split; [vm_compute; reflexivity |]. split; [vm_compute; reflexivity |].
  destruct (changed_value_is_overwritten rotated_state "a" "idA" 1%nat
              {| SecretString := Some "false"%string; SecretBinary := None |}
              (JBool false))
    as (st' & t & Hrun & _ & Hget & _).
  { vm_compute. reflexivity. }
  { reflexivity. }
  { intros entry Hentry. vm_compute in Hentry. injection Hentry as <-.
    vm_compute. discriminate. }
  exists st'. split; [exact Hrun | exact Hget].
Defined.

Lemma empty_text_falls_back_witness :
  source (fresh_state 2 false empty_text_source)
    (calls (fresh_state 2 false empty_text_source)) "idA"
    = Resolves (Some {| SecretString := Some EmptyString;
                        SecretBinary := Some [x68; x69] |}) /\
  exists st' v',
    fetchSecretWithRetry "a" "idA" 1%nat
      (fresh_state 2 false empty_text_source) = Returned tt st' /\
    getSecret "a" st' = Some v' /\
    json_stringify v' = json_stringify (JStr "hi").
Proof.
  split; [reflexivity |].
  destruct (empty_text_falls_back (fresh_state 2 false empty_text_source)
              "a" "idA" 1%nat (Some [x68; x69]) eq_refl)
    as (st' & v' & Hrun & _ & _ & Hget & Hser).
  exists st', v'. split; [exact Hrun |]. split; [exact Hget | exact Hser].
Defined.

Lemma fetchAllSecrets_on_empty_registry_witness :
  secretMappings (config emptied_state) = ∅ /\
  exists st',
    fetchAllSecrets emptied_state = Returned tt st' /\
    calls st' = calls emptied_state.
Proof.
  assert (secretMappings (config emptied_state) = ∅) as Hempty.
  { vm_compute. reflexivity. }
  split; [exact Hempty |].
  destruct (fetchAllSecrets_on_empty_registry emptied_state Hempty)
    as (st' & Hrun & _ & _ & Hcalls).
  exists st'. split; [exact Hrun | exact Hcalls].
Defined.

Lemma fetch_recovers_after_failures_witness :
  (2 <= maxRetries (config (fresh_state 2 false recovering_source)))%nat /\
  (forall i, (i < 2)%nat ->
     attempt_fails "idA"
       (source (fresh_state 2 false recovering_source)
          (calls (fresh_state 2 false recovering_source) + i)%nat "idA")
     = true) /\
  exists st',
    fetchSecretWithRetry "a" "idA" 1%nat
      (fresh_state 2 false recovering_source) = Returned tt st' /\
    count is_call (actions_since (fresh_state 2 false recovering_source) st')
      = 3%nat /\
    sleeps_of (actions_since (fresh_state 2 false recovering_source) st')
      = [100; 200]%float /\
    suspensions_of (actions_since (fresh_state 2 false recovering_source) st')
      = [100; 200]%float /\
    getSecret "a" st' = Some (JBool true).
Proof.
  assert (forall i, (i < 2)%nat ->
     attempt_fails "idA"
       (source (fresh_state 2 false recovering_source)
          (calls (fresh_state 2 false recovering_source) + i)%nat "idA")
     = true) as Hfail.
  { intros i Hi. destruct i as [| [| i]]; [reflexivity | reflexivity | lia]. }
  split; [cbn; lia |]. split; [exact Hfail |].
  destruct (fetch_recovers_after_failures
              (fresh_state 2 false recovering_source) "a" "idA" 2%nat
              {| SecretString := Some "true"%string; SecretBinary := None |}
              (JBool true))
    as (st' & v' & Hrun & Hcalls & Hsl & Harmed & _ & Hget & _ & Hnew).
  { cbn. lia. }
  { exact Hfail. }
  { reflexivity. }
  { reflexivity. }
  exists st'. split; [exact Hrun |]. split; [exact Hcalls |].
  split; [exact Hsl |]. split; [exact Harmed |].
  rewrite Hget. f_equal. apply Hnew. reflexivity.
Defined.

Lemma exhausted_fetch_reports_last_error_witness :
  exhausts "idA" (fresh_state 2 false failing_source) /\
  disableEvents (config (fresh_state 2 false failing_source)) = false /\
  exists st',
    outcome_state
      (fetchSecretWithRetry "a" "idA" 1%nat
         (fresh_state 2 false failing_source)) = Some st' /\
    errors_notified "a"
      (actions_since (fresh_state 2 false failing_source) st')
      = [ClientError "unreachable"].
Proof.
  assert (exhausts "idA" (fresh_state 2 false failing_source)) as Hex.
  { intros i _. reflexivity. }
  split; [exact Hex |]. split; [reflexivity |].
  destruct (exhausted_fetch_reports_last_error
              (fresh_state 2 false failing_source) "a" "idA" Hex eq_refl)
    as (st' & error & Hout & Hlast & Hnotified).
  exists st'. split; [exact Hout |].
  rewrite Hnotified. cbn in Hlast. injection Hlast as <-. reflexivity.
Defined.

Lemma initialize_populates_and_starts_witness :
  cache (fresh_state 2 false steady_source) = ∅ /\
  isRunning (fresh_state 2 false steady_source) = false /\
  timers (fresh_state 2 false steady_source) = ∅ /\
  exists st',
    initialize (fresh_state 2 false steady_source) = Returned tt st' /\
    getSecret "a" st' = Some (JBool true) /\
    getCacheStats st' = 1%nat /\ isRunning st' = true /\
    exists h, armed_timers st' = {[ h := 1000%float ]}.
Proof.
  split; [reflexivity |]. split; [reflexivity |]. split; [reflexivity |].
  destruct (initialize_populates_and_starts
              (fresh_state 2 false steady_source)
              (fun _ => {| SecretString := Some "true"%string;
                           SecretBinary := None |})
              (fun _ => JBool true) eq_refl eq_refl eq_refl)
    as (st' & Hrun & Hget & _ & Hsize & Hrunning & h & _ & _ & _ & Hperiod).
  { intros alias id _. split; [reflexivity | intros n; reflexivity]. }
  exists st'. split; [exact Hrun |].
  split; [apply (Hget "a"%string "idA"%string); vm_compute; reflexivity |].
  split; [rewrite Hsize; vm_compute; reflexivity |].
  split; [exact Hrunning |].
  exists h. exact (Hperiod eq_refl eq_refl eq_refl).
Defined.

Lemma initialize_arms_one_timer_witness :
  reachable running_state /\
  isRunning running_state = true /\
  exists st',
    outcome_state (initialize running_state) = Some st' /\
    timers st' = timers running_state /\
    nextHandle st' = nextHandle running_state.
Proof.
  assert (isRunning running_state = true) as Hr by (vm_compute; reflexivity).
  split; [exact reachable_running_state |]. split; [exact Hr |].
  destruct (initialize_arms_one_timer running_state reachable_running_state)
    as (st' & Hout & Hsame & _).
  destruct (Hsame Hr) as (_ & Htimers & _ & Hnext).
  exists st'. split; [exact Hout |]. split; [exact Htimers | exact Hnext].
Defined.

Lemma scheduledRefresh_unhandled_rethrows_witness :
  secretMappings (config (fresh_state 0 false failing_source))
    = {[ "a"%string := "idA"%string ]} /\
  exhausts "idA" (fresh_state 0 false failing_source) /\
  disableEvents (config (fresh_state 0 false failing_source)) = false /\
  (EvError ∉ listeners (fresh_state 0 false failing_source)) /\
  exists cause t1 t2 st',
    scheduledRefresh (fresh_state 0 false failing_source)
      = Thrown (UnhandledError None
                  (UnhandledError (Some "a"%string) cause t1) t2) st' /\
    count is_error_event
      (actions_since (fresh_state 0 false failing_source) st') = 2%nat.
Proof.
  assert (exhausts "idA" (fresh_state 0 false failing_source)) as Hex.
  { intros i _. reflexivity. }
  assert (EvError ∉ listeners (fresh_state 0 false failing_source)) as Hno.
  { cbn. apply not_elem_of_nil. }
  split; [reflexivity |]. split; [exact Hex |]. split; [reflexivity |].
  split; [exact Hno |].
  destruct (scheduledRefresh_unhandled_rethrows
              (fresh_state 0 false failing_source) "a" "idA"
              eq_refl Hex eq_refl Hno)
    as (cause & t1 & t2 & st' & Hrun & Hcount & _).
  exists cause, t1, t2, st'. split; [exact Hrun | exact Hcount].
Defined.
